(** * VocabularyService: a shallow embedding of [app/services/vocab_service.py]

    Part I follows the Python source function by function; Part II states and
    proves the properties of the vocabulary selection, the exercise builders
    and the lesson assembly.

    - A [str] is a [String.string]: a sequence of ASCII characters, which is
      what English terms are; [lower] and [len] are the ASCII ones.
    - A Python [int] is a [Z]; the length of a list is a [nat].
    - A [float] is an IEEE 754 binary64 value, computed with the operations
      of [SpecFloat], so that [int(limit * 0.3)] is what Python computes.
    - An insertion-ordered [dict] is an association list.
    - The two effects of the module, drawing from [random] and raising, are
      threaded by the monad [Rand.M]; the generator is an arbitrary sequence
      of draws, so a statement about every generator is a statement about
      every run.
    - The collaborators (the spreadsheet store, the text generator, the JSON
      parser, the clock) are inputs of the functions that use them. *)

From Stdlib Require Import List String Ascii Bool Arith ZArith Lia.
From Stdlib Require Import Permutation Sorted DecimalString DecimalNat.
From Stdlib Require Import SpecFloat.
Import ListNotations.

Local Open Scope string_scope.
Local Open Scope list_scope.
Local Open Scope nat_scope.

(* ===================================================================== *)
(** ** Python string primitives *)
(* ===================================================================== *)

Module PyStr.

(** [c.lower()] on one ASCII character. *)
Definition lower_ascii (c : ascii) : ascii :=
  let n := nat_of_ascii c in
  if (65 <=? n) && (n <=? 90) then ascii_of_nat (n + 32) else c.

(** [s.lower()]. *)
Fixpoint lower (s : string) : string :=
  match s with
  | EmptyString => EmptyString
  | String c t => String (lower_ascii c) (lower t)
  end.

(** [needle in hay]: substring test; the empty needle occurs everywhere. *)
Fixpoint contains (needle hay : string) : bool :=
  String.prefix needle hay ||
  match hay with
  | EmptyString => false
  | String _ t => contains needle t
  end.

(** [x in xs] for a list or set of strings. *)
Definition mem (x : string) (xs : list string) : bool :=
  existsb (String.eqb x) xs.

(** Scan for [s.replace(old, new)] with [old] non-empty: [skip] counts the
    characters of a match that are still to be consumed. *)
Fixpoint replace_scan (old new : string) (skip : nat) (s : string) : string :=
  match s with
  | EmptyString => EmptyString
  | String c t =>
      match skip with
      | S k => replace_scan old new k t
      | O =>
          if String.prefix old s
          then (new ++ replace_scan old new (String.length old - 1) t)%string
          else String c (replace_scan old new 0 t)
      end
  end.

(** With an empty [old], Python inserts [new] before every character and
    at the end. *)
Fixpoint intersperse (new s : string) : string :=
  match s with
  | EmptyString => new
  | String c t => (new ++ String c (intersperse new t))%string
  end.

(** [s.replace(old, new)]: every non-overlapping occurrence, left to right,
    compared character by character (case-sensitive). *)
Definition replace (old new s : string) : string :=
  match old with
  | EmptyString => intersperse new s
  | String _ _ => replace_scan old new 0 s
  end.

(** [str(n)] for a non-negative int. *)
Definition of_nat (n : nat) : string :=
  NilEmpty.string_of_uint (Nat.to_uint n).

End PyStr.

(* ===================================================================== *)
(** ** Data model ([app/database/models.py]) *)
(* ===================================================================== *)

Inductive EnglishLevel : Type := BASIC | INTERMEDIATE | ADVANCED.

(** [level.value] *)
Definition level_value (l : EnglishLevel) : string :=
  match l with
  | BASIC => "basic"
  | INTERMEDIATE => "intermediate"
  | ADVANCED => "advanced"
  end.

Definition EnglishLevel_eqb (a b : EnglishLevel) : bool :=
  match a, b with
  | BASIC, BASIC | INTERMEDIATE, INTERMEDIATE | ADVANCED, ADVANCED => true
  | _, _ => false
  end.

Record VocabularyItem : Type := mkVocabularyItem {
  id : string;
  category : string;
  english_word : string;
  spanish_translation : string;
  example_sentence : string;
  complexity : EnglishLevel;
  pronunciation : option string
}.

Definition option_string_eqb (a b : option string) : bool :=
  match a, b with
  | None, None => true
  | Some x, Some y => String.eqb x y
  | _, _ => false
  end.

(** [a == b] on two items: pydantic compares the fields. *)
Definition VocabularyItem_eqb (a b : VocabularyItem) : bool :=
  String.eqb (id a) (id b) &&
  String.eqb (category a) (category b) &&
  String.eqb (english_word a) (english_word b) &&
  String.eqb (spanish_translation a) (spanish_translation b) &&
  String.eqb (example_sentence a) (example_sentence b) &&
  EnglishLevel_eqb (complexity a) (complexity b) &&
  option_string_eqb (pronunciation a) (pronunciation b).

(* ===================================================================== *)
(** ** Word classifiers *)
(* ===================================================================== *)

(** The [themes] dict of [_extract_theme], in insertion order. *)
Definition themes : list (string * list string) :=
  [ ("time", ["time"; "hour"; "minute"; "second"; "day"; "week"; "month"; "year"]);
    ("family", ["mother"; "father"; "brother"; "sister"; "family"; "parent"; "child"]);
    ("work", ["work"; "job"; "office"; "boss"; "employee"; "meeting"; "project"]);
    ("food", ["food"; "eat"; "drink"; "water"; "coffee"; "tea"; "meal"; "restaurant"]);
    ("home", ["house"; "home"; "room"; "bed"; "kitchen"; "bathroom"; "garden"]);
    ("school", ["school"; "student"; "teacher"; "class"; "lesson"; "homework"; "exam"]);
    ("health", ["health"; "doctor"; "hospital"; "medicine"; "sick"; "healthy"; "exercise"]);
    ("money", ["money"; "bank"; "pay"; "price"; "cost"; "buy"; "sell"; "market"]);
    ("travel", ["travel"; "trip"; "airport"; "hotel"; "passport"; "ticket"; "destination"]);
    ("technology", ["computer"; "phone"; "internet"; "email"; "software"; "data"; "digital"]) ].

(** The nested [for theme, keywords ... for keyword ...] loop with its early
    [return theme]; falling off the end returns ["general"]. *)
Fixpoint first_theme (table : list (string * list string)) (word_lower : string)
  : string :=
  match table with
  | [] => "general"
  | (theme, keywords) :: rest =>
      if existsb (fun keyword => PyStr.contains keyword word_lower) keywords
      then theme
      else first_theme rest word_lower
  end.

Definition _extract_theme (word : string) : string :=
  let word_lower := PyStr.lower word in
  first_theme themes word_lower.

Definition practical_words : list string :=
  [ "hello"; "goodbye"; "please"; "thank"; "sorry"; "excuse";
    "help"; "need"; "want"; "have"; "do"; "make"; "take"; "give";
    "go"; "come"; "see"; "look"; "hear"; "say"; "tell"; "ask";
    "eat"; "drink"; "sleep"; "work"; "study"; "learn"; "teach";
    "buy"; "sell"; "pay"; "cost"; "price"; "money"; "time"; "day" ].

Definition _is_practical_word (word : string) : bool :=
  existsb (fun practical => PyStr.contains practical (PyStr.lower word))
          practical_words.

Definition common_words : list string :=
  [ "the"; "be"; "to"; "of"; "and"; "a"; "in"; "that"; "have"; "i";
    "it"; "for"; "not"; "on"; "with"; "he"; "as"; "you"; "do"; "at" ].

Definition interesting_patterns : list string :=
  [ "anti"; "auto"; "bio"; "geo"; "hyper"; "inter"; "macro";
    "micro"; "multi"; "neo"; "omni"; "poly"; "tele"; "trans" ].

Definition _is_interesting_word (word : string) : bool :=
  let word_lower := PyStr.lower word in
  if 8 <? String.length word then true
  else if existsb (fun pattern => PyStr.contains pattern word_lower)
                  interesting_patterns
  then true
  else negb (PyStr.mem word_lower common_words).


(* ===================================================================== *)
(** ** Effects: exceptions and the random generator *)
(* ===================================================================== *)

Inductive exn : Type :=
| IndexError | ValueError | OverflowError | ZeroDivisionError
| AttributeError | TypeError | ValidationError
| JSONDecodeError | ExternalError (msg : string).

Inductive result (A : Type) : Type :=
| Ok (a : A)
| Raise (e : exn).
Arguments Ok {A} a.
Arguments Raise {A} e.

Module Rand.

(** The generator is the sequence of raw draws it is going to deliver; a
    statement quantified over every [rng] covers every run of [random]. *)
Definition rng : Type := list nat.

(** A computation that may consume draws and may raise. *)
Definition M (A : Type) : Type := rng -> result (A * rng).

Definition ret {A} (a : A) : M A := fun g => Ok (a, g).

Definition bind {A B} (m : M A) (k : A -> M B) : M B :=
  fun g => match m g with
           | Ok (a, g') => k a g'
           | Raise e => Raise e
           end.

Definition raise {A} (e : exn) : M A := fun _ => Raise e.

Definition lift {A} (r : result A) : M A :=
  fun g => match r with Ok a => Ok (a, g) | Raise e => Raise e end.

(** [random._randbelow(n)] for [n > 0]: an index below [n]. *)
Definition randbelow (n : nat) : M nat :=
  fun g => match g with
           | [] => Ok (0, [])
           | x :: g' => Ok (x mod n, g')
           end.

Fixpoint remove_nth {A} (i : nat) (l : list A) : list A :=
  match l, i with
  | [], _ => []
  | _ :: t, O => t
  | x :: t, S j => x :: remove_nth j t
  end.

(** [k] successive draws without replacement. *)
Fixpoint sample_loop {A} (k : nat) (pool : list A) : M (list A) :=
  match k with
  | O => ret []
  | S k' =>
      bind (randbelow (List.length pool)) (fun j =>
      match nth_error pool j with
      | None => raise ValueError
      | Some x =>
          bind (sample_loop k' (remove_nth j pool)) (fun rest =>
          ret (x :: rest))
      end)
  end.

(** [random.sample(population, k)]: [ValueError] unless
    [0 <= k <= len(population)]; otherwise [k] entries at distinct
    positions. *)
Definition sample {A} (population : list A) (k : Z) : M (list A) :=
  if ((k <? 0) || (Z.of_nat (List.length population) <? k))%Z
  then raise ValueError
  else sample_loop (Z.to_nat k) population.

(** [random.choice(seq)]: [IndexError] on an empty sequence. *)
Definition choice {A} (seq : list A) : M A :=
  match seq with
  | [] => raise IndexError
  | d :: _ => bind (randbelow (List.length seq)) (fun j => ret (nth j seq d))
  end.

End Rand.

Declare Scope rand_scope.
Delimit Scope rand_scope with rand.
Notation "x <- m ;; k" := (Rand.bind m (fun x => k))
  (at level 61, m at next level, right associativity) : rand_scope.
Local Open Scope rand_scope.

(* ===================================================================== *)
(** ** Python floats (IEEE 754 binary64) *)
(* ===================================================================== *)

Module PyFloat.

Definition prec : Z := 53.
Definition emax : Z := 1024.

(** [float(z)]: correctly rounded; an int beyond the double range raises
    [OverflowError]. *)
Definition of_int (z : Z) : result spec_float :=
  match binary_normalize prec emax z 0 false with
  | S754_infinity _ => Raise OverflowError
  | f => Ok f
  end.

Definition mul (x y : spec_float) : spec_float := SFmul prec emax x y.

(** [x / y] on floats: a zero divisor raises. *)
Definition div (x y : spec_float) : result spec_float :=
  match y with
  | S754_zero _ => Raise ZeroDivisionError
  | _ => Ok (SFdiv prec emax x y)
  end.

(** [int(x)]: truncation towards zero. *)
Definition to_int (x : spec_float) : result Z :=
  match x with
  | S754_zero _ => Ok 0%Z
  | S754_finite s m e =>
      let a := match e with
               | Z0 => Zpos m
               | Zpos p => (Zpos m * 2 ^ Zpos p)%Z
               | Zneg p => (Zpos m / 2 ^ Zpos p)%Z
               end in
      Ok (if s then (- a)%Z else a)
  | S754_infinity _ => Raise OverflowError
  | S754_nan => Raise ValueError
  end.

(** The literals [0.3] and [0.2]. *)
Definition f0_3 : spec_float := S754_finite false 5404319552844595 (-54).
Definition f0_2 : spec_float := S754_finite false 7205759403792794 (-55).

(** [int(limit * w)] *)
Definition int_scaled (limit : Z) (w : spec_float) : result Z :=
  match of_int limit with
  | Raise e => Raise e
  | Ok l => to_int (mul l w)
  end.

(** [int(limit * w / n)] *)
Definition int_scaled_div (limit : Z) (w : spec_float) (n : Z) : result Z :=
  match of_int limit with
  | Raise e => Raise e
  | Ok l =>
      match of_int n with
      | Raise e => Raise e
      | Ok d =>
          match div (mul l w) d with
          | Raise e => Raise e
          | Ok q => to_int q
          end
      end
  end.

End PyFloat.

(* ===================================================================== *)
(** ** Lists and dicts as Python uses them *)
(* ===================================================================== *)

(** [len(l)] as a Python int. *)
Definition py_len {A} (l : list A) : Z := Z.of_nat (List.length l).

(** [l[:k]]; a negative [k] counts from the end. *)
Definition slice_to {A} (l : list A) (k : Z) : list A :=
  if (k <? 0)%Z then firstn (Z.to_nat (py_len l + k)) l
  else firstn (Z.to_nat k) l.

(** [if key not in groups: groups[key] = []] then [groups[key].append(v)],
    on a dict that keeps insertion order. *)
Fixpoint group_add {V} (key : string) (v : V) (groups : list (string * list V))
  : list (string * list V) :=
  match groups with
  | [] => [(key, [v])]
  | (k, vs) :: rest =>
      if String.eqb k key then (k, vs ++ [v]) :: rest
      else (k, vs) :: group_add key v rest
  end.

Definition group_by {V} (key_of : V -> string) (l : list V)
  : list (string * list V) :=
  fold_left (fun groups w => group_add (key_of w) w groups) l [].

Fixpoint dict_get {V} (key : string) (d : list (string * V)) : option V :=
  match d with
  | [] => None
  | (k, v) :: rest => if String.eqb k key then Some v else dict_get key rest
  end.

(** A [for] loop whose body updates one local and may draw or raise. *)
Fixpoint for_each {A S} (xs : list A) (body : A -> S -> Rand.M S) (s : S)
  : Rand.M S :=
  match xs with
  | [] => Rand.ret s
  | x :: xs' => s' <- body x s ;; for_each xs' body s'
  end.

(* ===================================================================== *)
(** ** [VocabularyService._intelligent_selection] *)
(* ===================================================================== *)

(** The de-duplication loop: [seen_ids] is the set, [unique_selected] the
    list in first-seen order. *)
Fixpoint dedupe (selected unique_selected : list VocabularyItem)
         (seen_ids : list string) : list VocabularyItem * list string :=
  match selected with
  | [] => (unique_selected, seen_ids)
  | word :: rest =>
      if PyStr.mem (id word) seen_ids
      then dedupe rest unique_selected seen_ids
      else dedupe rest (unique_selected ++ [word]) (id word :: seen_ids)
  end.

(** [selected.extend(random.sample(group_words,
      min(num_to_select, len(group_words))))] with
    [num_to_select = max(1, quota)]. *)
Definition extend_sample (selected group_words : list VocabularyItem)
           (quota : result Z) : Rand.M (list VocabularyItem) :=
  q <- Rand.lift quota ;;
  let num_to_select := Z.max 1 q in
  drawn <- Rand.sample group_words (Z.min num_to_select (py_len group_words)) ;;
  Rand.ret (selected ++ drawn).

Definition _intelligent_selection (vocabulary : list VocabularyItem) (limit : Z)
  : Rand.M (list VocabularyItem) :=
  if (py_len vocabulary <=? limit)%Z then Rand.ret vocabulary
  else
    let selected := [] in
    (* 1. complexity *)
    let complexity_groups :=
      group_by (fun word => level_value (complexity word)) vocabulary in
    selected <-
      for_each ["basic"; "intermediate"; "advanced"]
        (fun comp selected =>
           match dict_get comp complexity_groups with
           | Some group_words =>
               extend_sample selected group_words
                 (PyFloat.int_scaled limit PyFloat.f0_3)
           | None => Rand.ret selected
           end) selected ;;
    (* 2. themes *)
    let thematic_groups :=
      group_by (fun word => _extract_theme (english_word word)) vocabulary in
    selected <-
      for_each (firstn 5 thematic_groups)
        (fun item selected =>
           let group_words := snd item in
           match group_words with
           | [] => Rand.ret selected
           | _ :: _ =>
               extend_sample selected group_words
                 (PyFloat.int_scaled_div limit PyFloat.f0_3
                    (py_len thematic_groups))
           end) selected ;;
    (* 3. practical words *)
    let practical_vocab :=
      filter (fun w => _is_practical_word (english_word w)) vocabulary in
    selected <-
      match practical_vocab with
      | [] => Rand.ret selected
      | _ :: _ =>
          extend_sample selected practical_vocab
            (PyFloat.int_scaled limit PyFloat.f0_2)
      end ;;
    (* 4. interesting words *)
    let interesting_vocab :=
      filter (fun w => _is_interesting_word (english_word w)) vocabulary in
    selected <-
      match interesting_vocab with
      | [] => Rand.ret selected
      | _ :: _ =>
          extend_sample selected interesting_vocab
            (PyFloat.int_scaled limit PyFloat.f0_2)
      end ;;
    (* de-duplicate, back-fill, truncate *)
    let '(unique_selected, seen_ids) := dedupe selected [] [] in
    unique_selected <-
      (if (py_len unique_selected <? limit)%Z then
         let remaining :=
           filter (fun w => negb (PyStr.mem (id w) seen_ids)) vocabulary in
         let needed := (limit - py_len unique_selected)%Z in
         match remaining with
         | [] => Rand.ret unique_selected
         | _ :: _ =>
             drawn <- Rand.sample remaining (Z.min needed (py_len remaining)) ;;
             Rand.ret (unique_selected ++ drawn)
         end
       else Rand.ret unique_selected) ;;
    Rand.ret (slice_to unique_selected limit).

(* ===================================================================== *)
(** ** Exercises *)
(* ===================================================================== *)

(** One entry of the ["sentences"] list of a fill-in-the-blank exercise. *)
Record FillBlankSentence : Type := mkFillBlankSentence {
  fb_sentence : string;
  fb_correct_word : string;
  fb_options : list string
}.

(** The exercise dicts, one constructor per ["type"]. *)
Inductive Exercise : Type :=
| Matching (title instructions : string) (pairs : list (string * string))
           (shuffle : bool)
| FillBlank (title instructions : string) (sentences : list FillBlankSentence)
| SentenceCreation (title instructions : string) (words : list string)
| Synonyms (title instructions : string) (words : list string)
| Debate (title instructions : string) (required_words : list string)
         (word_count : string)
| ReverseTranslation (title instructions : string)
                     (sentences : list (string * string)).

(** The ["type"] entry of an exercise dict. *)
Definition exercise_type (e : Exercise) : string :=
  match e with
  | Matching _ _ _ _ => "matching"
  | FillBlank _ _ _ => "fill_blank"
  | SentenceCreation _ _ _ => "sentence_creation"
  | Synonyms _ _ _ => "synonyms"
  | Debate _ _ _ _ => "debate"
  | ReverseTranslation _ _ _ => "reverse_translation"
  end.

(** A list comprehension whose element expression may draw or raise. *)
Fixpoint map_m {A B} (f : A -> Rand.M B) (l : list A) : Rand.M (list B) :=
  match l with
  | [] => Rand.ret []
  | x :: t => y <- f x ;; ys <- map_m f t ;; Rand.ret (y :: ys)
  end.

(** [word.example_sentence.replace(word.english_word, "_____")] *)
Definition blank_sentence (word : VocabularyItem) : string :=
  PyStr.replace (english_word word) "_____" (example_sentence word).

(** The dict built for one [word] of the fill-in-the-blank exercise. *)
Definition fill_blank_item (vocabulary : list VocabularyItem)
           (word : VocabularyItem) : Rand.M FillBlankSentence :=
  let sentence := blank_sentence word in
  distractor <-
    Rand.choice
      (map english_word
           (filter (fun w => negb (VocabularyItem_eqb w word)) vocabulary)) ;;
  Rand.ret
    {| fb_sentence := sentence;
       fb_correct_word := english_word word;
       fb_options := [english_word word; distractor; "different word"] |}.

Definition _create_basic_exercises (vocabulary : list VocabularyItem)
  : Rand.M (list Exercise) :=
  let exercises := [] in
  let exercises :=
    if 4 <=? List.length vocabulary then
      exercises ++
      [Matching "Empareja las palabras"
         "Empareja cada palabra en inglés con su traducción en español"
         (map (fun word => (english_word word, spanish_translation word))
              (firstn 4 vocabulary))
         true]
    else exercises in
  if 3 <=? List.length vocabulary then
    sentences <- map_m (fill_blank_item vocabulary) (firstn 3 vocabulary) ;;
    Rand.ret
      (exercises ++
       [FillBlank "Completa las oraciones"
          "Completa cada oración con la palabra correcta"
          sentences])
  else Rand.ret exercises.

Definition _create_intermediate_exercises (vocabulary : list VocabularyItem)
  : Rand.M (list Exercise) :=
  exercises <- _create_basic_exercises vocabulary ;;
  let exercises :=
    if 5 <=? List.length vocabulary then
      exercises ++
      [SentenceCreation "Crea oraciones"
         "Crea una oración original usando cada palabra"
         (map english_word (firstn 5 vocabulary))]
    else exercises in
  let exercises :=
    if 4 <=? List.length vocabulary then
      exercises ++
      [Synonyms "Encuentra sinónimos"
         "Para cada palabra, encuentra un sinónimo apropiado"
         (map english_word (firstn 4 vocabulary))]
    else exercises in
  Rand.ret exercises.

(** [vocabulary[0].category]; the caller has at least three entries. *)
Definition first_category (vocabulary : list VocabularyItem) : Rand.M string :=
  match vocabulary with
  | [] => Rand.raise IndexError
  | first :: _ => Rand.ret (category first)
  end.

Definition _create_advanced_exercises (vocabulary : list VocabularyItem)
  : Rand.M (list Exercise) :=
  exercises <- _create_intermediate_exercises vocabulary ;;
  exercises <-
    (if 3 <=? List.length vocabulary then
       topic <- first_category vocabulary ;;
       Rand.ret
         (exercises ++
          [Debate "Expresa tu opinión"
             ("Escribe un párrafo breve sobre '" ++ topic ++
              "' usando al menos 3 palabras del vocabulario")%string
             (map english_word (firstn 3 vocabulary))
             "50-100 palabras"])
     else Rand.ret exercises) ;;
  let exercises :=
    if 4 <=? List.length vocabulary then
      exercises ++
      [ReverseTranslation "Traducción al inglés"
         "Traduce estas oraciones al inglés usando las palabras aprendidas"
         (map (fun word =>
                 (("Ejemplo en español usando " ++ spanish_translation word)%string,
                  english_word word))
              (firstn 4 vocabulary))]
    else exercises in
  Rand.ret exercises.

(* ===================================================================== *)
(** ** [create_vocabulary_lesson] *)
(* ===================================================================== *)

(** One entry of ["thematic_groups"]. *)
Record ThematicGroup : Type := mkThematicGroup {
  tg_theme : string;
  tg_words : list string;
  tg_count : nat
}.

Record Lesson : Type := mkLesson {
  lesson_title : string;
  lesson_description : string;
  lesson_vocabulary : list VocabularyItem;
  lesson_thematic_groups : list ThematicGroup;
  lesson_exercises : list Exercise;
  lesson_estimated_time : string;
  lesson_learning_objectives : list string
}.

(** The returned dict: either the one-key [{"error": ...}] or a lesson. *)
Inductive LessonResult : Type :=
| ErrorDict (error : string)
| LessonDict (lesson : Lesson).

(** ["error" in result] *)
Definition has_error_key (r : LessonResult) : bool :=
  match r with
  | ErrorDict _ => true
  | LessonDict _ => false
  end.

Definition create_vocabulary_lesson (vocabulary : list VocabularyItem)
           (user_level : EnglishLevel) : Rand.M LessonResult :=
  match vocabulary with
  | [] => Rand.ret (ErrorDict "No hay vocabulario disponible")
  | first :: _ =>
      let thematic_groups :=
        group_by (fun word => _extract_theme (english_word word)) vocabulary in
      exercises <-
        match user_level with
        | BASIC => _create_basic_exercises vocabulary
        | INTERMEDIATE => _create_intermediate_exercises vocabulary
        | ADVANCED => _create_advanced_exercises vocabulary
        end ;;
      Rand.ret (LessonDict
        {| lesson_title := ("Vocabulario: " ++ category first)%string;
           lesson_description :=
             ("Lección de " ++ PyStr.of_nat (List.length vocabulary) ++
              " palabras para nivel " ++ level_value user_level)%string;
           lesson_vocabulary := vocabulary;
           lesson_thematic_groups :=
             map (fun item =>
                    {| tg_theme := fst item;
                       tg_words := map english_word (firstn 3 (snd item));
                       tg_count := List.length (snd item) |})
                 (firstn 3 thematic_groups);
           lesson_exercises := exercises;
           lesson_estimated_time :=
             (PyStr.of_nat (List.length vocabulary * 2) ++ " minutos")%string;
           lesson_learning_objectives :=
             [ "Memorizar palabras clave";
               "Usar palabras en contexto";
               "Practicar pronunciación";
               "Aplicar en conversaciones" ] |})
  end.

(* ===================================================================== *)
(** ** Generated and fallback vocabulary *)
(* ===================================================================== *)

(** What [json.loads] hands back. *)
#[warnings="-register-all"]
Inductive json : Type :=
| JNull
| JBool (b : bool)
| JNumber (literal : string)
| JString (s : string)
| JArray (items : list json)
| JObject (members : list (string * json)).

(** [d.get(key)] on a parsed object: of two members with one name the later
    one is the dict's value. *)
Definition members_get (key : string) (members : list (string * json))
  : option json :=
  dict_get key (rev members).

(** [obj.get(key, default)]: only a dict has [get]. *)
Definition json_get (obj : json) (key : string) (default : json) : result json :=
  match obj with
  | JObject members =>
      match members_get key members with
      | Some v => Ok v
      | None => Ok default
      end
  | _ => Raise AttributeError
  end.

Fixpoint chars (s : string) : list json :=
  match s with
  | EmptyString => []
  | String c t => JString (String c EmptyString) :: chars t
  end.

(** The keys of a parsed object, each once, in order of first occurrence. *)
Definition members_keys (members : list (string * json)) : list string :=
  rev (nodup string_dec (rev (map fst members))).

(** What a [for] loop over a parsed value visits: the items of a list, the
    characters of a string, the keys of a dict; nothing else is iterable. *)
Definition json_iter (v : json) : result (list json) :=
  match v with
  | JArray items => Ok items
  | JString s => Ok (chars s)
  | JObject members => Ok (map JString (members_keys members))
  | _ => Raise TypeError
  end.

(** Validation of a [str] field (pydantic 2, whose [from_attributes] setting
    the models use: only a string is accepted). *)
Definition as_str (v : json) : result string :=
  match v with
  | JString s => Ok s
  | _ => Raise ValidationError
  end.

(** Validation of an [Optional[str]] field; [get] without default gives
    [None] for a missing key. *)
Definition as_optional_str (v : json) : result (option string) :=
  match v with
  | JNull => Ok None
  | JString s => Ok (Some s)
  | _ => Raise ValidationError
  end.

(** [EnglishLevel(value)] *)
Definition EnglishLevel_of (v : json) : result EnglishLevel :=
  match v with
  | JString s =>
      if String.eqb s "basic" then Ok BASIC
      else if String.eqb s "intermediate" then Ok INTERMEDIATE
      else if String.eqb s "advanced" then Ok ADVANCED
      else Raise ValueError
  | _ => Raise ValueError
  end.

Definition result_bind {A B} (r : result A) (k : A -> result B) : result B :=
  match r with
  | Ok a => k a
  | Raise e => Raise e
  end.

Declare Scope result_scope.
Delimit Scope result_scope with result.
Notation "x <- r ;; k" := (result_bind r (fun x => k))
  (at level 61, r at next level, right associativity) : result_scope.

Fixpoint result_map_indexed {A B} (f : nat -> A -> result B) (i : nat)
         (l : list A) : result (list B) :=
  match l with
  | [] => Ok []
  | x :: t =>
      (y <- f i x ;; ys <- result_map_indexed f (S i) t ;; Ok (y :: ys))%result
  end.

(** The built-in table of [_get_fallback_vocabulary]; every entry carries the
    requested [category]. *)
Definition fallback_vocab (category : string)
  : list (string * list VocabularyItem) :=
  [ ("daily_life",
     [ mkVocabularyItem "fallback_1" category "hello" "hola"
         "Hello, how are you?" BASIC (Some "/həˈloʊ/");
       mkVocabularyItem "fallback_2" category "thank you" "gracias"
         "Thank you for your help." BASIC (Some "/ˈθæŋk juː/") ]);
    ("work",
     [ mkVocabularyItem "fallback_3" category "meeting" "reunión"
         "We have a meeting at 3 PM." INTERMEDIATE (Some "/ˈmiːtɪŋ/") ]);
    ("education",
     [ mkVocabularyItem "fallback_4" category "student" "estudiante"
         "The student is studying English." BASIC (Some "/ˈstuːdənt/") ]) ].

(** The categories the service itself falls back to when the store lists
    none ([get_spaced_repetition_words]). *)
Definition common_categories : list string :=
  [ "daily_life"; "work"; "education" ].

Definition _get_fallback_vocabulary (category : string)
           (user_level : option EnglishLevel) (limit : Z)
  : list VocabularyItem :=
  let table := fallback_vocab category in
  let vocab_list :=
    match dict_get category table with
    | Some l => l
    | None =>
        match dict_get "daily_life" table with
        | Some l => l
        | None => []
        end
    end in
  let vocab_list :=
    match user_level with
    | Some level =>
        filter (fun v => EnglishLevel_eqb (complexity v) level) vocab_list
    | None => vocab_list
    end in
  slice_to vocab_list limit.

Section Collaborators.

(** [json.loads]: the parser of the Python library. *)
Variable json_loads : string -> result json.

(** [datetime.now().timestamp()], rendered, at the [i]-th generated item. *)
Variable timestamp : nat -> string.

(** The [VocabularyItem(...)] call for the [i]-th element of the response. *)
Definition generated_item (category : string) (i : nat) (item_data : json)
  : result VocabularyItem :=
  (let item_id :=
     ("gen_" ++ category ++ "_" ++ PyStr.of_nat i ++ "_" ++ timestamp i)%string in
   english <- json_get item_data "english_word" (JString "") ;;
   spanish <- json_get item_data "spanish_translation" (JString "") ;;
   sentence <- json_get item_data "example_sentence" (JString "") ;;
   level_data <- json_get item_data "complexity" (JString "basic") ;;
   level <- EnglishLevel_of level_data ;;
   pron <- json_get item_data "pronunciation" JNull ;;
   english <- as_str english ;;
   spanish <- as_str spanish ;;
   sentence <- as_str sentence ;;
   pron <- as_optional_str pron ;;
   Ok (mkVocabularyItem item_id category english spanish sentence level pron)
  )%result.

(** The body of the [try] block; [response] is the outcome of awaiting
    [groq_client.generate_response(prompt)]. *)
Definition generate_items (response : result string) (category : string)
  : result (list VocabularyItem) :=
  (text <- response ;;
   data <- json_loads text ;;
   listed <- json_get data "vocabulary" (JArray []) ;;
   items <- json_iter listed ;;
   result_map_indexed (generated_item category) 0 items)%result.

(** [try: ... except Exception: return self._get_fallback_vocabulary(...)] *)
Definition _generate_vocabulary (response : result string) (category : string)
           (user_level : option EnglishLevel) (limit : Z)
  : result (list VocabularyItem) :=
  match generate_items response category with
  | Ok vocabulary_items => Ok vocabulary_items
  | Raise _ => Ok (_get_fallback_vocabulary category user_level limit)
  end.

(* =================================================================== *)
(** ** [get_category_vocabulary] *)
(* =================================================================== *)

(** [level_order = {"basic": 0, "intermediate": 1, "advanced": 2}] *)
Definition level_order : list (string * Z) :=
  [ ("basic", 0%Z); ("intermediate", 1%Z); ("advanced", 2%Z) ].

(** [level_order.get(value, 1)] *)
Definition level_order_get (value : string) : Z :=
  match dict_get value level_order with
  | Some n => n
  | None => 1%Z
  end.

(** Insertion into a list sorted by [key], before the first entry whose key
    is not smaller. *)
Fixpoint insert_by {A} (key : A -> Z) (x : A) (l : list A) : list A :=
  match l with
  | [] => [x]
  | y :: t =>
      if (key x <=? key y)%Z then x :: y :: t
      else y :: insert_by key x t
  end.

(** [l.sort(key=key)]: a stable sort. *)
Definition sort_by {A} (key : A -> Z) (l : list A) : list A :=
  fold_right (insert_by key) [] l.

(** The sort key of the back-fill:
    [abs(level_order.get(x.complexity.value, 1) - user_level_num)]. *)
Definition level_distance (user_level : EnglishLevel) (x : VocabularyItem) : Z :=
  let user_level_num := level_order_get (level_value user_level) in
  Z.abs (level_order_get (level_value (complexity x)) - user_level_num).

(** The level filter with its back-fill, up to the call of the selection. *)
Definition level_filter (all_vocab : list VocabularyItem)
           (user_level : option EnglishLevel) (limit : Z)
  : list VocabularyItem :=
  match user_level with
  | Some level =>
      let filtered_vocab :=
        filter (fun v => EnglishLevel_eqb (complexity v) level) all_vocab in
      if (py_len filtered_vocab <? limit)%Z then
        let other_vocab :=
          filter (fun v => negb (EnglishLevel_eqb (complexity v) level))
                 all_vocab in
        let other_vocab := sort_by (level_distance level) other_vocab in
        filtered_vocab ++ slice_to other_vocab (limit - py_len filtered_vocab)
      else filtered_vocab
  | None => all_vocab
  end.

(** [all_vocab] is what the store returned for the category; [response] is
    the generator's answer, consulted only when the store has nothing. *)
Definition get_category_vocabulary (all_vocab : list VocabularyItem)
           (response : result string) (category : string)
           (user_level : option EnglishLevel) (limit : Z)
  : Rand.M (list VocabularyItem) :=
  match all_vocab with
  | [] => Rand.lift (_generate_vocabulary response category user_level limit)
  | _ :: _ =>
      let filtered_vocab := level_filter all_vocab user_level limit in
      let selected_vocab := _intelligent_selection filtered_vocab limit in
      selected_vocab
  end.

End Collaborators.

(* ===================================================================== *)
(** ** Knowledge test and spaced repetition *)
(* ===================================================================== *)

(** [l[i] = v] for an index in range. *)
Fixpoint set_nth {A} (i : nat) (v : A) (l : list A) : list A :=
  match l, i with
  | [], _ => []
  | _ :: t, O => v :: t
  | x :: t, S j => x :: set_nth j v t
  end.

(** [x[i], x[j] = x[j], x[i]]; an index out of range raises. *)
Definition swap {A} (i j : nat) (x : list A) : result (list A) :=
  match nth_error x i, nth_error x j with
  | Some a, Some b => Ok (set_nth j a (set_nth i b x))
  | _, _ => Raise IndexError
  end.

(** The loop of [random.shuffle]: [i] runs from [len(x) - 1] down to [1],
    exchanging [x[i]] with a drawn [x[j]], [j <= i]. *)
Fixpoint shuffle_loop {A} (i : nat) (x : list A) : Rand.M (list A) :=
  match i with
  | O => Rand.ret x
  | S i' =>
      j <- Rand.randbelow (i + 1) ;;
      x <- Rand.lift (swap i j x) ;;
      shuffle_loop i' x
  end.

(** [random.shuffle(x)]; the shuffled list is the value. *)
Definition shuffle {A} (x : list A) : Rand.M (list A) :=
  shuffle_loop (List.length x - 1) x.

(** The [generic_options] of [_generate_translation_options] and of
    [_generate_usage_options]. *)
Definition generic_translations : list string :=
  [ "casa"; "perro"; "libro"; "computador" ].

Definition generic_words : list string :=
  [ "house"; "dog"; "book"; "computer" ].

Definition _generate_translation_options (correct_word : VocabularyItem)
           (all_words : list VocabularyItem) : Rand.M (list string) :=
  let options := [spanish_translation correct_word] in
  let other_words :=
    filter (fun w => negb (VocabularyItem_eqb w correct_word)) all_words in
  options <-
    (if 3 <=? List.length other_words then
       drawn <- Rand.sample other_words 3 ;;
       Rand.ret (options ++ map spanish_translation drawn)
     else
       let generic_options := generic_translations in
       drawn <- Rand.sample generic_options 3 ;;
       Rand.ret (options ++ drawn)) ;;
  shuffle options.

Definition _generate_usage_options (correct_word : VocabularyItem)
           (all_words : list VocabularyItem) : Rand.M (list string) :=
  let options := [english_word correct_word] in
  let other_words :=
    filter (fun w => negb (VocabularyItem_eqb w correct_word)) all_words in
  options <-
    (if 3 <=? List.length other_words then
       drawn <- Rand.sample other_words 3 ;;
       Rand.ret (options ++ map english_word drawn)
     else
       let generic_options := generic_words in
       drawn <- Rand.sample generic_options 3 ;;
       Rand.ret (options ++ drawn)) ;;
  shuffle options.

(** One entry of the ["questions"] list of a test. *)
Record Question : Type := mkQuestion {
  q_type : string;
  q_question : string;
  q_correct_answer : string;
  q_options : list string
}.

Record KnowledgeTest : Type := mkKnowledgeTest {
  total_questions : nat;
  questions : list Question;
  start_time : string
}.

Definition question_types : list string :=
  [ "translation"; "usage"; "synonym" ].

(** The body of the loop of [test_vocabulary_knowledge] for one [word]. *)
Definition question_for (words : list VocabularyItem) (word : VocabularyItem)
  : Rand.M Question :=
  question_type <- Rand.choice question_types ;;
  if String.eqb question_type "translation" then
    options <- _generate_translation_options word words ;;
    Rand.ret
      {| q_type := "translation";
         q_question :=
           ("¿Cuál es la traducción de '" ++ english_word word ++ "'?")%string;
         q_correct_answer := spanish_translation word;
         q_options := options |}
  else if String.eqb question_type "usage" then
    options <- _generate_usage_options word words ;;
    Rand.ret
      {| q_type := "usage";
         q_question :=
           ("Completa la oración: " ++ blank_sentence word)%string;
         q_correct_answer := english_word word;
         q_options := options |}
  else
    Rand.ret
      {| q_type := "synonym";
         q_question :=
           ("¿Cuál es un sinónimo de '" ++ english_word word ++ "'?")%string;
         q_correct_answer := "unknown";
         q_options := [ "option1"; "option2"; "option3"; "option4" ] |}.

(** [now_iso] is [datetime.now().isoformat()] at the start of the call. *)
Definition test_vocabulary_knowledge (now_iso : string)
           (words : list VocabularyItem) : Rand.M KnowledgeTest :=
  let total := List.length words in
  asked <-
    for_each words
      (fun word asked => q <- question_for words word ;; Rand.ret (asked ++ [q]))
      [] ;;
  Rand.ret {| total_questions := total;
              questions := asked;
              start_time := now_iso |}.

Section SpacedRepetition.

(** The JSON parser and the clock, as for [get_category_vocabulary]. *)
Variable json_loads : string -> result json.
Variable timestamp : nat -> string.

(** What the store answers for a category (no level, 100 rows at most) and
    what the generator answers when asked about a category. *)
Variable store : string -> list VocabularyItem.
Variable respond : string -> result string.

(** [categories] is what [sheets_client.get_categories()] returned. *)
Definition get_spaced_repetition_words (categories : list string) (count : Z)
  : Rand.M (list VocabularyItem) :=
  let categories :=
    match categories with
    | [] => [ "daily_life"; "work"; "education" ]
    | _ :: _ => categories
    end in
  selected_category <- Rand.choice categories ;;
  get_category_vocabulary json_loads timestamp (store selected_category)
                          (respond selected_category) selected_category
                          None count.

End SpacedRepetition.
(* ===================================================================== *)
(** * The spreadsheet store ([app/database/sheets_client.py])

    The vocabulary functions of [GoogleSheetsClient], with the client's cache
    as explicit state: a call takes the client and returns its answer with
    the client it leaves behind. What a call observes of the outside -- the
    clock, and the rows of the sheet or the failure to read them -- is an
    input.

    - A cell of [get_all_records()] is text, or a number where gspread found
      numeric text.
    - [_cache] holds values of different kinds under keys that cannot
      coincide: the vocabulary lists under [vocab_<category>_<level>], the
      list of categories under [categories]. It is kept as one typed entry
      table per kind; the profiles of [get_or_create_user] are not part of
      the model. [_cache_expiry], whose values are all times, is one table.
    - A [datetime] is the number of microseconds since the first instant the
      type can hold; adding a [timedelta] beyond the last one raises.
    - [lower] and [strip] are those of ASCII text. Python's also lower the
      capitals and strip the white space beyond ASCII, so the statements
      that say what a comparison or a stripping gives are made for ASCII
      categories. *)
(* ===================================================================== *)

(** [s.strip()] on ASCII text: the white space of Python among the ASCII
    characters. *)
Definition isspace (c : ascii) : bool :=
  let n := nat_of_ascii c in
  ((9 <=? n) && (n <=? 13)) || ((28 <=? n) && (n <=? 32)).

Fixpoint lstrip (s : string) : string :=
  match s with
  | EmptyString => EmptyString
  | String c t => if isspace c then lstrip t else s
  end.

Fixpoint rstrip (s : string) : string :=
  match s with
  | EmptyString => EmptyString
  | String c t =>
      match rstrip t with
      | EmptyString => if isspace c then EmptyString else String c EmptyString
      | kept => String c kept
      end
  end.

Definition strip (s : string) : string := rstrip (lstrip s).

(** [d[key] = v] *)
Fixpoint dict_set {V} (key : string) (v : V) (d : list (string * V))
  : list (string * V) :=
  match d with
  | [] => [(key, v)]
  | (k, old) :: rest =>
      if String.eqb k key then (k, v) :: rest
      else (k, old) :: dict_set key v rest
  end.

(** [sorted(l)] on strings: Python orders them by code point. *)
Fixpoint insert_sorted (x : string) (l : list string) : list string :=
  match l with
  | [] => [x]
  | y :: t => if String.leb x y then x :: y :: t else y :: insert_sorted x t
  end.

Definition sorted (l : list string) : list string :=
  fold_right insert_sorted [] l.

Module Sheets.

Inductive cell : Type :=
| Text (s : string)
| Integer (n : Z)
| Real (x : spec_float).

(** A row of the sheet: the dict from column header to cell. *)
Definition record : Type := list (string * cell).

(** [record.get(key)]; of two columns with one header the later one is the
    dict's value. *)
Definition record_find (r : record) (key : string) : option cell :=
  dict_get key (rev r).

(** [record.get(key, default)] *)
Definition record_get (r : record) (key : string) (default : cell) : cell :=
  match record_find r key with
  | Some c => c
  | None => default
  end.

(** [value.lower()] and [value.strip()], on ASCII text: a number has
    neither. *)
Definition cell_lower (c : cell) : result string :=
  match c with
  | Text s => Ok (PyStr.lower s)
  | _ => Raise AttributeError
  end.

Definition cell_strip (c : cell) : result string :=
  match c with
  | Text s => Ok (strip s)
  | _ => Raise AttributeError
  end.

(** Validation of a [str] and of an [Optional[str]] field (pydantic 2 turns
    no number into a string). *)
Definition str_field (c : cell) : result string :=
  match c with
  | Text s => Ok s
  | _ => Raise ValidationError
  end.

Definition optional_str_field (c : option cell) : result (option string) :=
  match c with
  | None => Ok None
  | Some (Text s) => Ok (Some s)
  | Some _ => Raise ValidationError
  end.

(** [EnglishLevel(value)] *)
Definition level_of_cell (c : cell) : result EnglishLevel :=
  match c with
  | Text s =>
      if String.eqb s "basic" then Ok BASIC
      else if String.eqb s "intermediate" then Ok INTERMEDIATE
      else if String.eqb s "advanced" then Ok ADVANCED
      else Raise ValueError
  | _ => Raise ValueError
  end.

(** The [VocabularyItem(...)] call of the loop: the arguments are evaluated
    first, then the model validates them. *)
Definition vocabulary_item (record : record) : result VocabularyItem :=
  (level <- level_of_cell (record_get record "complexity" (Text "basic")) ;;
   item_id <- str_field (record_get record "id" (Text "")) ;;
   item_category <- str_field (record_get record "category" (Text "")) ;;
   word <- str_field (record_get record "english_word" (Text "")) ;;
   translation <- str_field (record_get record "spanish_translation" (Text "")) ;;
   sentence <- str_field (record_get record "example_sentence" (Text "")) ;;
   spoken <- optional_str_field (record_find record "pronunciation") ;;
   Ok (mkVocabularyItem item_id item_category word translation sentence
                        level spoken))%result.

(** The body of the loop over the rows up to [vocabulary.append]: [None]
    when the row is passed over. *)
Definition examine (category : string) (level : option EnglishLevel)
           (record : record) : result (option VocabularyItem) :=
  (row_category <- cell_lower (record_get record "category" (Text "")) ;;
   if String.eqb row_category (PyStr.lower category) then
     other_level <-
       match level with
       | Some l =>
           row_level <- cell_lower (record_get record "complexity" (Text "")) ;;
           Ok (negb (String.eqb row_level (level_value l)))
       | None => Ok false
       end ;;
     if other_level then Ok None
     else vocab_item <- vocabulary_item record ;; Ok (Some vocab_item)
   else Ok None)%result.

(** The loop, which stops as soon as [len(vocabulary) >= limit] after an
    append. *)
Fixpoint collect (category : string) (level : option EnglishLevel) (limit : Z)
         (records : list record) (vocabulary : list VocabularyItem)
  : result (list VocabularyItem) :=
  match records with
  | [] => Ok vocabulary
  | record :: rest =>
      (found <- examine category level record ;;
       match found with
       | None => collect category level limit rest vocabulary
       | Some vocab_item =>
           let vocabulary := vocabulary ++ [vocab_item] in
           if (limit <=? py_len vocabulary)%Z then Ok vocabulary
           else collect category level limit rest vocabulary
       end)%result
  end.

(** [level_order.get(x.complexity.value, 0)], the sort key of the store. *)
Definition complexity_key (x : VocabularyItem) : Z :=
  match dict_get (level_value (complexity x)) level_order with
  | Some n => n
  | None => 0%Z
  end.

(** [timedelta(minutes=5)] and [datetime.max], in microseconds. *)
Definition CACHE_DURATION : Z := 300000000.
Definition datetime_max : Z := 315537897599999999.

(** [t + d] on a [datetime]. *)
Definition datetime_add (t d : Z) : result Z :=
  if (t + d <=? datetime_max)%Z then Ok (t + d)%Z else Raise OverflowError.

Record GoogleSheetsClient : Type := mkClient {
  vocabulary_cache : list (string * list VocabularyItem);
  categories_cache : option (list string);
  _cache_expiry : list (string * Z)
}.

(** The client as [__init__] leaves it, and as [clear_cache] does. *)
Definition new_client : GoogleSheetsClient := mkClient [] None [].

Definition clear_cache (self : GoogleSheetsClient) : GoogleSheetsClient :=
  mkClient [] None [].

(** What one call observes: the clock when [_is_cache_valid] reads it, the
    rows of the sheet (or the exception that opening or reading it raises),
    and the clock when the answer is stored. *)
Record access : Type := mkAccess {
  checked : Z;
  rows : result (list record);
  stored : Z
}.

Definition _is_cache_valid (self : GoogleSheetsClient) (now : Z)
           (cache_key : string) : bool :=
  match dict_get cache_key (_cache_expiry self) with
  | None => false
  | Some expiry => (now <? expiry)%Z
  end.

(** [f"vocab_{category}_{level.value if level else 'all'}"] *)
Definition vocabulary_key (category : string) (level : option EnglishLevel)
  : string :=
  ("vocab_" ++ category ++ "_" ++
   match level with
   | Some l => level_value l
   | None => "all"
   end)%string.

Definition get_vocabulary_by_category (self : GoogleSheetsClient) (w : access)
           (category : string) (level : option EnglishLevel) (limit : Z)
  : list VocabularyItem * GoogleSheetsClient :=
  let cache_key := vocabulary_key category level in
  let hit :=
    match dict_get cache_key (vocabulary_cache self) with
    | Some held =>
        if _is_cache_valid self (checked w) cache_key then Some held else None
    | None => None
    end in
  match hit with
  | Some held => (held, self)
  | None =>
      match (records <- rows w ;; collect category level limit records [])%result with
      | Ok vocabulary =>
          let vocabulary :=
            match level with
            | Some _ => vocabulary
            | None => sort_by complexity_key vocabulary
            end in
          let self :=
            mkClient (dict_set cache_key vocabulary (vocabulary_cache self))
                     (categories_cache self) (_cache_expiry self) in
          match datetime_add (stored w) CACHE_DURATION with
          | Ok expiry =>
              (vocabulary,
               mkClient (vocabulary_cache self) (categories_cache self)
                        (dict_set cache_key expiry (_cache_expiry self)))
          | Raise _ => ([], self)
          end
      | Raise _ => ([], self)
      end
  end.

(** The loop of [get_categories]; the set is kept as a list without
    repetition, which [sorted] then puts in the one ascending order. *)
Fixpoint category_names (records : list record) (categories : list string)
  : result (list string) :=
  match records with
  | [] => Ok categories
  | record :: rest =>
      (name <- cell_strip (record_get record "category" (Text "")) ;;
       category_names rest
         (match name with
          | EmptyString => categories
          | String _ _ =>
              if PyStr.mem name categories then categories
              else categories ++ [name]
          end))%result
  end.

Definition default_categories : list string :=
  [ "daily_life"; "work"; "education"; "food"; "transport" ].

Definition get_categories (self : GoogleSheetsClient) (w : access)
  : list string * GoogleSheetsClient :=
  let cache_key := "categories" in
  let hit :=
    match categories_cache self with
    | Some held =>
        if _is_cache_valid self (checked w) cache_key then Some held else None
    | None => None
    end in
  match hit with
  | Some held => (held, self)
  | None =>
      match (records <- rows w ;; category_names records [])%result with
      | Ok categories =>
          let sorted_categories := sorted categories in
          let self :=
            mkClient (vocabulary_cache self) (Some sorted_categories)
                     (_cache_expiry self) in
          match datetime_add (stored w) CACHE_DURATION with
          | Ok expiry =>
              (sorted_categories,
               mkClient (vocabulary_cache self) (categories_cache self)
                        (dict_set cache_key expiry (_cache_expiry self)))
          | Raise _ => (default_categories, self)
          end
      | Raise _ => (default_categories, self)
      end
  end.

End Sheets.

(* ===================================================================== *)
(** ** The service on top of the store *)
(* ===================================================================== *)

Module VocabularyService.

Section Calls.

Variable json_loads : string -> result json.
Variable timestamp : nat -> string.

(** [get_category_vocabulary] from its first line: the store is asked for
    the category without a level and with a limit of 100. *)
Definition get_category_vocabulary (self : Sheets.GoogleSheetsClient)
           (w : Sheets.access) (response : result string) (category : string)
           (user_level : option EnglishLevel) (limit : Z)
  : Rand.M (list VocabularyItem) * Sheets.GoogleSheetsClient :=
  let '(all_vocab, self) :=
    Sheets.get_vocabulary_by_category self w category None 100 in
  (get_category_vocabulary json_loads timestamp all_vocab response category
                           user_level limit,
   self).

(** [get_spaced_repetition_words] from its first line: [w_categories] is
    what the call of [get_categories] observes, [w_vocabulary] what the call
    for the chosen category does. The client the second call leaves behind
    is not returned. *)
Definition get_spaced_repetition_words (self : Sheets.GoogleSheetsClient)
           (w_categories w_vocabulary : Sheets.access)
           (respond : string -> result string) (count : Z)
  : Rand.M (list VocabularyItem) :=
  let '(categories, self) := Sheets.get_categories self w_categories in
  get_spaced_repetition_words json_loads timestamp
    (fun selected_category =>
       fst (Sheets.get_vocabulary_by_category self w_vocabulary
                                              selected_category None 100))
    respond categories count.

End Calls.

End VocabularyService.

(* ===================================================================== *)
(** ** Vocabulary of the statements *)
(* ===================================================================== *)

Module PyFloatSpec.
Import PyFloat.
Local Open Scope Z_scope.

(** Outcome of an operation that stayed in range. *)
Definition in_range (D L U : Z) (f : spec_float) : Prop :=
  match f with
  | S754_zero _ => True
  | S754_finite _ m e => Zpos m < 2 ^ D /\ L <= e <= U
  | _ => False
  end.

(** Upper bound on the exponent after the two rounding shifts. *)
Definition exp_bound (D U : Z) : Z :=
  Z.max U (Z.max (D + U - 52) (2 * D + U - 105)).

(** A weight literal: 53 significant bits, exponent [-54] or [-55]. *)
Definition is_weight (w : spec_float) : Prop := w = f0_3 \/ w = f0_2.

End PyFloatSpec.

Module RandSpec.
Import Rand.

(** [m] returns normally on every generator, with a value satisfying [P]. *)
Definition returns {A} (m : M A) (P : A -> Prop) : Prop :=
  forall g, exists a g', m g = Ok (a, g') /\ P a.

(** [k] draws without replacement: [k] entries that, together with the
    entries left over, are exactly the population. *)
Definition drawn_from {A} (population : list A) (k : nat) (res : list A) : Prop :=
  List.length res = k /\ exists rest, Permutation (res ++ rest) population.

End RandSpec.

(** [sys.maxsize]: no Python list is longer. *)
Definition sys_maxsize : Z := 2 ^ 63 - 1.


(** Every entry comes from the pool. *)
Definition from_pool (vocabulary l : list VocabularyItem) : Prop :=
  incl l vocabulary.

(** What the selection delivers when the pool exceeds the target. *)
Definition selection_ok (vocabulary : list VocabularyItem) (limit : Z)
           (res : list VocabularyItem) : Prop :=
  List.length res = Z.to_nat limit /\
  NoDup (map id res) /\
  incl res vocabulary.

(** The eleven theme names a term can be classified under. *)
Definition theme_names : list string := map fst themes ++ ["general"].


Section GroupSpec.
Context {V : Type}.

(** Every key satisfies [K], every grouped value satisfies [P], and no key
    occurs twice. *)
Definition groups_ok (K : string -> Prop) (P : V -> Prop)
           (groups : list (string * list V)) : Prop :=
  NoDup (map fst groups) /\
  Forall (fun kv => K (fst kv) /\ Forall P (snd kv)) groups.

End GroupSpec.

(** [[t]] when the threshold test [b] holds, nothing otherwise. *)
Definition when_met (b : bool) (t : string) : list string :=
  if b then [t] else [].

(** Lists on which the distractor draw of the fill-in-the-blank exercise has
    something to draw from: fewer than three entries (no such exercise), or
    two entries that differ. *)
Definition distractor_available (vocabulary : list VocabularyItem) : Prop :=
  List.length vocabulary < 3 \/
  exists a b, In a vocabulary /\ In b vocabulary /\ a <> b.

(** What one entry of the fill-in-the-blank exercise looks like. *)
Definition fill_blank_of (vocabulary : list VocabularyItem)
           (word : VocabularyItem) (s : FillBlankSentence) : Prop :=
  fb_sentence s = blank_sentence word /\
  fb_correct_word s = english_word word /\
  exists distractor,
    fb_options s = [english_word word; distractor; "different word"] /\
    exists w, In w vocabulary /\ w <> word /\ english_word w = distractor.

(** The group of key [k] over [l]: the entries of that key, in order. *)
Definition group_of {V} (key_of : V -> string) (l : list V) (k : string)
  : string * list V :=
  (k, filter (fun w => String.eqb (key_of w) k) l).

(** The distinct elements of [ks], in order of first occurrence. *)
Definition first_seen (ks : list string) : list string :=
  rev (nodup string_dec (rev ks)).

(** The ["thematic_groups"] entry for [theme]: up to three example words and
    the number of entries of that theme. *)
Definition theme_summary (vocabulary : list VocabularyItem) (theme : string)
  : ThematicGroup :=
  let members :=
    filter (fun w => String.eqb (_extract_theme (english_word w)) theme)
           vocabulary in
  {| tg_theme := theme;
     tg_words := map english_word (firstn 3 members);
     tg_count := List.length members |}.

(* ===================================================================== *)
(** ** Example data *)
(* ===================================================================== *)

Module Examples.

Definition entry (i w : string) (c : EnglishLevel) : VocabularyItem :=
  mkVocabularyItem i "daily_life" w "palabra"
                   ("We say " ++ w ++ " every day.")%string c None.

Definition small_pool : list VocabularyItem :=
  [ entry "1" "hello" BASIC; entry "2" "teacher" BASIC;
    entry "3" "xylophone" ADVANCED ].

Definition six_pool : list VocabularyItem :=
  [ entry "1" "hello" BASIC; entry "2" "teacher" BASIC;
    entry "3" "xylophone" ADVANCED; entry "4" "meeting" INTERMEDIATE;
    entry "5" "passport" INTERMEDIATE; entry "6" "cat" BASIC ].

(** The first built-in fallback entry. *)
Definition hello_entry : VocabularyItem :=
  mkVocabularyItem "fallback_1" "daily_life" "hello" "hola"
                   "Hello, how are you?" BASIC (Some "/həˈloʊ/").

(** The same entry three, respectively six, times. *)
Definition triple : list VocabularyItem := repeat hello_entry 3.
Definition sextuple : list VocabularyItem := repeat hello_entry 6.

(** Ten entries: four basic, three intermediate, three advanced. *)
Definition ten_pool : list VocabularyItem :=
  [ entry "a1" "alpha" ADVANCED; entry "b1" "bravo" BASIC;
    entry "i1" "india" INTERMEDIATE; entry "b2" "bingo" BASIC;
    entry "a2" "amber" ADVANCED; entry "i2" "igloo" INTERMEDIATE;
    entry "b3" "bacon" BASIC; entry "a3" "apple" ADVANCED;
    entry "b4" "beach" BASIC; entry "i3" "ivory" INTERMEDIATE ].

(** A parser that rejects everything and a constant clock. *)
Definition reject_all (text : string) : result json := Raise JSONDecodeError.
Definition frozen_clock (i : nat) : string := "0.0".

End Examples.

(* ===================================================================== *)
(** ** Vocabulary of the further statements *)
(* ===================================================================== *)

(** What the selection delivers on any pool: entries of the pool, and never
    more than a non-negative [limit]. *)
Definition selection_bounded (vocabulary : list VocabularyItem) (limit : Z)
           (res : list VocabularyItem) : Prop :=
  incl res vocabulary /\
  ((0 <= limit)%Z -> (py_len res <= limit)%Z).

(** The common shape of the two option generators: [field] is the attribute
    read from the entries, [generic_options] the stand-in list. *)
Definition generate_options (field : VocabularyItem -> string)
           (generic_options : list string)
           (correct_word : VocabularyItem) (all_words : list VocabularyItem)
  : Rand.M (list string) :=
  let options := [field correct_word] in
  let other_words :=
    filter (fun w => negb (VocabularyItem_eqb w correct_word)) all_words in
  options <-
    (if 3 <=? List.length other_words then
       drawn <- Rand.sample other_words 3 ;;
       Rand.ret (options ++ map field drawn)
     else
       drawn <- Rand.sample generic_options 3 ;;
       Rand.ret (options ++ drawn)) ;;
  shuffle options.

(** The three distractors of an option list: terms of three other entries
    (at distinct positions) when there are three, three distinct stand-ins
    otherwise. *)
Definition distractors_of (field : VocabularyItem -> string)
           (generic_options : list string)
           (correct_word : VocabularyItem) (all_words : list VocabularyItem)
           (distractors : list string) : Prop :=
  let other_words :=
    filter (fun w => negb (VocabularyItem_eqb w correct_word)) all_words in
  if 3 <=? List.length other_words then
    exists drawn, RandSpec.drawn_from other_words 3 drawn /\
                  distractors = map field drawn
  else RandSpec.drawn_from generic_options 3 distractors.

(** An option list: the correct answer and three distractors, in some
    order. *)
Definition options_of (field : VocabularyItem -> string)
           (generic_options : list string)
           (correct_word : VocabularyItem) (all_words : list VocabularyItem)
           (options : list string) : Prop :=
  exists distractors,
    distractors_of field generic_options correct_word all_words distractors /\
    Permutation options (field correct_word :: distractors).

(** The question asked about [word] in a test over [words]. *)
Definition question_about (words : list VocabularyItem)
           (word : VocabularyItem) (q : Question) : Prop :=
  (q_type q = "translation" /\
   q_correct_answer q = spanish_translation word /\
   options_of spanish_translation generic_translations word words
              (q_options q)) \/
  (q_type q = "usage" /\
   q_question q = ("Completa la oración: " ++ blank_sentence word)%string /\
   q_correct_answer q = english_word word /\
   options_of english_word generic_words word words (q_options q)) \/
  (q_type q = "synonym" /\
   q_correct_answer q = "unknown" /\
   q_options q = [ "option1"; "option2"; "option3"; "option4" ]).

(** A string without the character [c]. *)
Fixpoint lacks (c : ascii) (s : string) : Prop :=
  match s with
  | EmptyString => True
  | String a t => a <> c /\ lacks c t
  end.

(** The id given to the [i]-th generated item. *)
Definition generated_id (timestamp : nat -> string) (category : string)
           (i : nat) : string :=
  ("gen_" ++ category ++ "_" ++ PyStr.of_nat i ++ "_" ++ timestamp i)%string.

(** The entries of a grouping dict, counted over all groups. *)
Definition grouped_total {V} (groups : list (string * list V)) : nat :=
  list_sum (map (fun item => List.length (snd item)) groups).

(** The position of an entry's level on the scale basic 0, intermediate 1,
    advanced 2. *)
Definition level_rank (w : VocabularyItem) : Z :=
  level_order_get (level_value (complexity w)).

(** A list that begins with an entry of the lowest level found in the
    pool. *)
Definition lowest_first (vocabulary l : list VocabularyItem) : Prop :=
  exists w rest,
    l = w :: rest /\ In w vocabulary /\
    forall v, In v vocabulary -> (level_rank w <= level_rank v)%Z.

(** What one round of the complexity pass, for the level [c], makes of
    [selected]: it appends entries of level [c] -- at least one when the pool
    has any, none otherwise. *)
Definition complexity_round (vocabulary : list VocabularyItem)
           (c : EnglishLevel) (selected s' : list VocabularyItem) : Prop :=
  from_pool vocabulary s' /\
  exists drawn,
    s' = selected ++ drawn /\
    ((exists v, In v vocabulary /\ complexity v = c) ->
     exists w rest, drawn = w :: rest /\ complexity w = c /\ In w vocabulary) /\
    ((forall v, In v vocabulary -> complexity v <> c) -> drawn = []).

(* ===================================================================== *)
(** ** Further example data *)
(* ===================================================================== *)

Module Fixtures.

(** A parser that answers every text with an object holding two items. *)
Definition two_items : json :=
  JObject
    [ ("vocabulary",
       JArray
         [ JObject [ ("english_word", JString "dog");
                     ("spanish_translation", JString "perro") ];
           JObject [ ("english_word", JString "cat");
                     ("complexity", JString "advanced") ] ]) ].

Definition parse_two_items (text : string) : result json := Ok two_items.

(** The items built from [two_items] for the category animals under the
    frozen clock. *)
Definition generated_two : list VocabularyItem :=
  [ mkVocabularyItem "gen_animals_0_0.0" "animals" "dog" "perro" "" BASIC None;
    mkVocabularyItem "gen_animals_1_0.0" "animals" "cat" "" "" ADVANCED None ].

(** A parser that answers every text with an object without any member. *)
Definition parse_empty_object (text : string) : result json := Ok (JObject []).

(** A parser that answers with a list one of whose elements is a number. *)
Definition parse_bad_item (text : string) : result json :=
  Ok (JObject
        [ ("vocabulary",
           JArray [ JObject [ ("english_word", JString "dog") ];
                    JNumber "7" ]) ]).

End Fixtures.

(* ===================================================================== *)
(** ** Vocabulary of the statements about the store *)
(* ===================================================================== *)

Module SheetsSpec.
Import Sheets.

(** The client holds no answer it may still use for the request: the call
    reads the sheet. *)
Definition misses_vocabulary (self : GoogleSheetsClient) (w : access)
           (category : string) (level : option EnglishLevel) : Prop :=
  dict_get (vocabulary_key category level) (vocabulary_cache self) = None \/
  _is_cache_valid self (checked w) (vocabulary_key category level) = false.

Definition misses_categories (self : GoogleSheetsClient) (w : access) : Prop :=
  categories_cache self = None \/
  _is_cache_valid self (checked w) "categories" = false.

(** The answer is stored with an expiry time a [datetime] can hold. *)
Definition storable (w : access) : Prop :=
  (stored w + CACHE_DURATION <= datetime_max)%Z.

(** A row from which a [VocabularyItem] can be built. *)
Definition valid_row (r : record) : Prop :=
  exists item, vocabulary_item r = Ok item.

Definition is_number (c : cell) : Prop :=
  match c with
  | Text _ => False
  | _ => True
  end.

(** The row is about the requested category, whatever the case of the
    letters, and of the requested level when there is one. *)
Definition row_matches (category : string) (level : option EnglishLevel)
           (r : record) : bool :=
  match record_get r "category" (Text "") with
  | Text name =>
      String.eqb (PyStr.lower name) (PyStr.lower category) &&
      match level with
      | None => true
      | Some l =>
          match record_get r "complexity" (Text "") with
          | Text c => String.eqb (PyStr.lower c) (level_value l)
          | _ => false
          end
      end
  | _ => false
  end.

(** A row at which the loop raises: its category is a number; or it is
    about the requested category, a level is requested and its complexity is
    a number; or it matches the request and no item can be built from it. *)
Definition spoils (category : string) (level : option EnglishLevel)
           (r : record) : Prop :=
  is_number (record_get r "category" (Text "")) \/
  (row_matches category None r = true /\ level <> None /\
   is_number (record_get r "complexity" (Text ""))) \/
  (row_matches category level r = true /\
   exists e, vocabulary_item r = Raise e).

(** The number of entries at which the loop stops: the length is tested
    after an append only, so one entry is taken even for [limit <= 0]. *)
Definition reading_cap (limit : Z) : nat := Z.to_nat (Z.max limit 1).

(** The rows a reading of [records] for the request turns into entries. *)
Definition rows_read (category : string) (level : option EnglishLevel)
           (limit : Z) (records : list record) : list record :=
  firstn (reading_cap limit) (filter (row_matches category level) records).

(** [items] are the entries built from [taken], row by row. *)
Definition built_from (taken : list record) (items : list VocabularyItem)
  : Prop :=
  Forall2 (fun r item => vocabulary_item r = Ok item) taken items.

(** A reading of the sheet that raises before the loop is over: the sheet
    cannot be read, or a spoiling row comes before the loop has stopped. *)
Definition spoiled_reading (category : string) (level : option EnglishLevel)
           (limit : Z) (reading : result (list record)) : Prop :=
  match reading with
  | Raise _ => True
  | Ok records =>
      exists before r after,
        records = before ++ r :: after /\
        Forall valid_row before /\
        List.length (filter (row_matches category level) before)
          < reading_cap limit /\
        spoils category level r
  end.

(** A reading from which [get_categories] gets no list: the sheet cannot be
    read, or the category of some row is a number. *)
Definition unreadable_categories (reading : result (list record)) : Prop :=
  match reading with
  | Raise _ => True
  | Ok records =>
      Exists (fun r => is_number (record_get r "category" (Text ""))) records
  end.

(** The entry answers the request. *)
Definition fits (requested : string) (level : option EnglishLevel)
           (item : VocabularyItem) : Prop :=
  PyStr.lower (category item) = PyStr.lower requested /\
  match level with
  | Some l => complexity item = l
  | None => True
  end.

(** Text of ASCII characters only. On such text [PyStr.lower] and [strip]
    are the [lower] and [strip] of Python, which beyond ASCII also lower
    accented capitals and strip further white space. *)
Fixpoint is_ascii (s : string) : bool :=
  match s with
  | EmptyString => true
  | String c t => (nat_of_ascii c <? 128) && is_ascii t
  end.

Definition ascii_cell (c : cell) : Prop :=
  match c with
  | Text s => is_ascii s = true
  | _ => True
  end.

(** A row whose category and complexity, where they are text, are ASCII
    text. *)
Definition ascii_row (r : record) : Prop :=
  ascii_cell (record_get r "category" (Text "")) /\
  ascii_cell (record_get r "complexity" (Text "")).

(** What the call observes is a sheet of such rows, or no sheet at all. *)
Definition ascii_sheet (w : access) : Prop :=
  match rows w with
  | Ok records => Forall ascii_row records
  | Raise _ => True
  end.

(** The clients that calls can produce from a new one, when they ask for
    ASCII categories and at most [cap] entries and read sheets of ASCII
    rows. *)
Inductive reachable (cap : Z) : GoogleSheetsClient -> Prop :=
| reach_new : reachable cap new_client
| reach_vocabulary self w category level limit :
    reachable cap self -> (limit <= cap)%Z ->
    is_ascii category = true -> ascii_sheet w ->
    reachable cap (snd (get_vocabulary_by_category self w category level limit))
| reach_categories self w :
    reachable cap self -> ascii_sheet w ->
    reachable cap (snd (get_categories self w))
| reach_clear self :
    reachable cap self -> reachable cap (clear_cache self).

(** What every cached vocabulary list satisfies in a reachable client. *)
Definition cache_sound (cap : Z) (self : GoogleSheetsClient) : Prop :=
  forall category level held,
    dict_get (vocabulary_key category level) (vocabulary_cache self) = Some held ->
    Forall (fits category level) held /\
    (py_len held <= Z.max cap 1)%Z.

(** The names the rows give their category, stripped, the empty one left
    out. *)
Definition named_in (records : list record) (name : string) : Prop :=
  name <> EmptyString /\
  exists r s, In r records /\
              record_get r "category" (Text "") = Text s /\ strip s = name.

(** Strictly ascending in the order of the code points. *)
Definition ascending (l : list string) : Prop :=
  Sorted (fun a b => String.ltb a b = true) l.

End SheetsSpec.

(* ===================================================================== *)
(** ** Example sheets *)
(* ===================================================================== *)

Module SheetFixtures.
Import Sheets.

Definition row (item_id name word translation sentence level : string)
  : record :=
  [ ("id", Text item_id); ("category", Text name);
    ("english_word", Text word); ("spanish_translation", Text translation);
    ("example_sentence", Text sentence); ("complexity", Text level);
    ("pronunciation", Text "") ].

Definition item (item_id name word translation sentence : string)
           (level : EnglishLevel) : VocabularyItem :=
  mkVocabularyItem item_id name word translation sentence level (Some "").

(** Four rows, three of them about work under different spellings. *)
Definition sheet : list record :=
  [ row "w1" "Work" "boss" "jefe" "My boss is kind." "advanced";
    row "f1" "food" "bread" "pan" "I eat bread." "basic";
    row "w2" "work" "office" "oficina" "The office is big." "basic";
    row "w3" " WORK" "meeting" "reunion" "The meeting is long." "basic" ].


(** The ids of the second row are numbers. *)
Definition numbered_sheet : list record :=
  [ row "w2" "work" "office" "oficina" "The office is big." "basic";
    [ ("id", Integer 2); ("category", Text "work");
      ("english_word", Text "boss"); ("spanish_translation", Text "jefe");
      ("example_sentence", Text "My boss is kind.");
      ("complexity", Text "basic"); ("pronunciation", Text "") ] ].

Definition reading (now : Z) (records : list record) : access :=
  mkAccess now (Ok records) now.

Definition failing (now : Z) : access :=
  mkAccess now (Raise (ExternalError "APIError")) now.

End SheetFixtures.

(* ===================================================================== *)
(** ** Vocabulary of the statements about the word classifiers *)
(* ===================================================================== *)

(** [inner] occurs in [outer] as a run of consecutive characters. *)
Definition occurs_in (inner outer : string) : Prop :=
  exists pre post, outer = (pre ++ inner ++ post)%string.

(* ===================================================================== *)
(** * Part II: properties *)
(* ===================================================================== *)

(** ** The float expressions of the selection never raise on list-sized ints *)

Module PyFloatFacts.
Import PyFloat PyFloatSpec.

Local Open Scope Z_scope.

Lemma digits_le (p : positive) :
  forall D, Zpos p < 2 ^ D -> Zpos (digits2_pos p) <= D.
Proof.
  induction p as [p IH | p IH |]; intros D HD; cbn [digits2_pos].
  - assert (0 < D) by (destruct D; cbn in HD; lia).
    replace D with (Z.succ (D - 1)) in HD by lia.
    rewrite Z.pow_succ_r in HD by lia.
    specialize (IH (D - 1)). lia.
  - assert (0 < D) by (destruct D; cbn in HD; lia).
    replace D with (Z.succ (D - 1)) in HD by lia.
    rewrite Z.pow_succ_r in HD by lia.
    specialize (IH (D - 1)). lia.
  - destruct D; cbn in HD; lia.
Qed.

Lemma Zdigits2_le (m D : Z) :
  0 <= m < 2 ^ D -> 0 <= D -> 0 <= Zdigits2 m <= D.
Proof.
  intros [H0 H1] HD. destruct m as [| p | p]; cbn [Zdigits2]; try lia.
  pose proof (digits_le p D H1). lia.
Qed.

(** One halving step never increases the mantissa. *)
Lemma shr_1_le (M : Z) (r : shr_record) :
  0 <= shr_m r <= M -> 0 <= shr_m (shr_1 r) <= M.
Proof.
  destruct r as [m b s]; cbn [shr_m].
  destruct m as [| [p | p |] | [p | p |]]; cbn [shr_1 shr_m]; lia.
Qed.

Lemma iter_shr_1_le (M : Z) (p : positive) :
  forall r, 0 <= shr_m r <= M -> 0 <= shr_m (iter_pos shr_1 p r) <= M.
Proof.
  induction p as [p IH | p IH |]; intros r Hr; cbn [iter_pos].
  - apply IH, IH, shr_1_le, Hr.
  - apply IH, IH, Hr.
  - apply shr_1_le, Hr.
Qed.

Lemma shr_fexp_bounds (m e : Z) (l : location) (D : Z) :
  0 <= m < 2 ^ D -> 0 <= D ->
  let '(r, e') := shr_fexp prec emax m e l in
  0 <= shr_m r <= m /\ e <= e' <= Z.max e (Z.max (D + e - 53) (-1074)).
Proof.
  intros Hm HD. unfold shr_fexp, shr.
  pose proof (Zdigits2_le m D Hm HD) as Hd.
  assert (Hr : 0 <= shr_m (shr_record_of_loc m l) <= m)
    by (destruct l as [| []]; cbn; lia).
  unfold fexp, emin, prec, emax in *.
  destruct (Z.max (Zdigits2 m + e - 53) (3 - 1024 - 53) - e) as [| p | p] eqn:E.
  - split; [exact Hr | lia].
  - split; [apply iter_shr_1_le, Hr | lia].
  - split; [exact Hr | lia].
Qed.

Lemma round_nearest_even_bounds (m : Z) (l : location) :
  m <= round_nearest_even m l <= m + 1.
Proof.
  destruct l as [| []]; cbn [round_nearest_even]; try lia.
  destruct (Z.even m); lia.
Qed.

Lemma binary_round_aux_in_range (sx : bool) (mx ex : Z) (lx : location) (D U : Z) :
  0 <= mx < 2 ^ D -> 0 <= D -> ex <= U -> -1074 <= U ->
  exp_bound D U <= 971 ->
  in_range (D + 1) ex (exp_bound D U) (binary_round_aux prec emax sx mx ex lx).
Proof.
  unfold exp_bound.
  intros Hm HD HU HL Hfit. unfold binary_round_aux.
  pose proof (shr_fexp_bounds mx ex lx D Hm HD) as H1.
  destruct (shr_fexp prec emax mx ex lx) as [r1 e1].
  destruct H1 as [Hr1 He1].
  pose proof (round_nearest_even_bounds (shr_m r1) (loc_of_shr_record r1)) as Hrn.
  set (m1 := round_nearest_even (shr_m r1) (loc_of_shr_record r1)) in *.
  assert (Hpow : 2 ^ (D + 1) = 2 * 2 ^ D)
    by (replace (D + 1) with (Z.succ D) by lia; apply Z.pow_succ_r; lia).
  assert (Hm1 : 0 <= m1 < 2 ^ (D + 1)) by lia.
  pose proof (shr_fexp_bounds m1 e1 loc_Exact (D + 1) Hm1 ltac:(lia)) as H2.
  destruct (shr_fexp prec emax m1 e1 loc_Exact) as [r2 e2].
  destruct H2 as [Hr2 He2].
  destruct (shr_m r2) as [| p | p] eqn:Er2; cbn [in_range]; [exact I | | lia].
  unfold prec, emax.
  destruct (Z.leb_spec e2 (1024 - 53)); cbn [in_range]; lia.
Qed.

Lemma in_range_weaken (D L U D' L' U' : Z) (f : spec_float) :
  in_range D L U f -> D <= D' -> 0 <= D -> L' <= L -> U <= U' ->
  in_range D' L' U' f.
Proof.
  destruct f as [s | s | | s m e]; cbn [in_range]; try tauto.
  intros [Hm He] HD H0 HL HU. split; [| lia].
  eapply Z.lt_le_trans; [exact Hm |]. apply Z.pow_le_mono_r; lia.
Qed.

Lemma iter_xO_value (p d : positive) :
  Zpos (Pos.iter xO p d) = Zpos p * 2 ^ Zpos d.
Proof.
  induction d as [| d IH] using Pos.peano_ind.
  - cbn. lia.
  - rewrite Pos.iter_succ, Pos2Z.inj_succ, Z.pow_succ_r by lia.
    rewrite Pos2Z.inj_xO, IH. lia.
Qed.

(** [float(z)] of a 63-bit magnitude is finite. *)
Lemma binary_round_int (s : bool) (p : positive) :
  Zpos p < 2 ^ 63 ->
  in_range 116 (-52) 125 (binary_round prec emax s p 0).
Proof.
  intros Hp. unfold binary_round, shl_align.
  pose proof (digits_le p 63 Hp) as Hd.
  assert (Hd1 : 1 <= Zpos (digits2_pos p)) by lia.
  unfold fexp, emin, prec, emax.
  destruct (Z.max (Zpos (digits2_pos p) + 0 - 53) (3 - 1024 - 53) - 0)
    as [| k | k] eqn:E.
  - eapply in_range_weaken;
      [apply (binary_round_aux_in_range s (Zpos p) 0 loc_Exact 63 0);
       unfold exp_bound; lia | unfold exp_bound; lia ..].
  - eapply in_range_weaken;
      [apply (binary_round_aux_in_range s (Zpos p) 0 loc_Exact 63 0);
       unfold exp_bound; lia | unfold exp_bound; lia ..].
  - assert (Hk : Zpos k <= 52) by lia.
    assert (Hv : Zpos (Pos.iter xO p k) < 2 ^ 115).
    { rewrite iter_xO_value.
      assert (2 ^ Zpos k <= 2 ^ 52) by (apply Z.pow_le_mono_r; lia).
      replace (2 ^ 115) with (2 ^ 63 * 2 ^ 52) by reflexivity.
      assert (0 < 2 ^ Zpos k) by (apply Z.pow_pos_nonneg; lia).
      nia. }
    eapply in_range_weaken;
      [apply (binary_round_aux_in_range s (Zpos (Pos.iter xO p k)) _
                loc_Exact 115 0); unfold exp_bound; lia
      | unfold exp_bound; lia ..].
Qed.

Lemma of_int_in_range (z : Z) :
  - 2 ^ 63 < z < 2 ^ 63 ->
  exists f, of_int z = Ok f /\ in_range 116 (-52) 125 f.
Proof.
  intros Hz. unfold of_int, binary_normalize.
  destruct z as [| p | p].
  - eexists; split; [reflexivity | exact I].
  - pose proof (binary_round_int false p ltac:(lia)) as H.
    destruct (binary_round prec emax false p 0) eqn:E; cbn [in_range] in H;
      try contradiction; eexists; split; try reflexivity; cbn [in_range]; auto.
  - pose proof (binary_round_int true p ltac:(lia)) as H.
    destruct (binary_round prec emax true p 0) eqn:E; cbn [in_range] in H;
      try contradiction; eexists; split; try reflexivity; cbn [in_range]; auto.
Qed.

Lemma mul_weight_in_range (x w : spec_float) :
  in_range 116 (-52) 125 x -> is_weight w ->
  in_range 170 (-107) 304 (mul x w).
Proof.
  intros Hx Hw.
  assert (exists mw ew, w = S754_finite false mw ew /\
                        Zpos mw < 2 ^ 53 /\ -55 <= ew <= -54) as (mw & ew & -> & Hmw & Hew).
  { destruct Hw as [-> | ->]; unfold f0_3, f0_2; do 2 eexists;
      (split; [reflexivity | split; [reflexivity | lia]]). }
  destruct x as [s | s | | s m e]; cbn [in_range] in Hx; try contradiction.
  - exact I.
  - destruct Hx as [Hm He]. unfold mul, SFmul.
    eapply in_range_weaken;
      [apply (binary_round_aux_in_range _ _ _ loc_Exact 169 71)
      | unfold exp_bound; lia ..].
    + rewrite Pos2Z.inj_mul.
      replace (2 ^ 169) with (2 ^ 116 * 2 ^ 53) by reflexivity.
      split; [lia |]. apply Z.mul_lt_mono_nonneg; lia.
    + lia.
    + lia.
    + lia.
    + unfold exp_bound; lia.
Qed.

Lemma to_int_in_range (D L U : Z) (f : spec_float) :
  in_range D L U f -> exists q, to_int f = Ok q.
Proof.
  destruct f; cbn [in_range]; intros H; try contradiction;
    cbn [to_int]; eexists; reflexivity.
Qed.

(** [int(limit * w)] returns for every list-sized [limit]. *)
Lemma int_scaled_returns (limit : Z) (w : spec_float) :
  - 2 ^ 63 < limit < 2 ^ 63 -> is_weight w ->
  exists q, int_scaled limit w = Ok q.
Proof.
  intros Hl Hw. unfold int_scaled.
  destruct (of_int_in_range limit Hl) as (f & -> & Hf).
  eapply to_int_in_range, mul_weight_in_range; eauto.
Qed.

Lemma div_core_bounds (mx my : positive) (ex ey : Z) :
  Zpos mx < 2 ^ 170 -> ex <= 304 ->
  Zpos my < 2 ^ 53 -> -52 <= ey ->
  let '(q, e', _) := SFdiv_core_binary prec emax (Zpos mx) ex (Zpos my) ey in
  0 <= q < 2 ^ 275 /\ e' <= 356.
Proof.
  intros Hmx Hex Hmy Hey. unfold SFdiv_core_binary. cbn [Zdigits2].
  pose proof (digits_le my 53 Hmy) as Hd2.
  assert (Hd1 : 1 <= Zpos (digits2_pos mx)) by lia.
  set (d1 := Zpos (digits2_pos mx)) in *.
  set (d2 := Zpos (digits2_pos my)) in *.
  set (e' := Z.min (fexp prec emax (d1 + ex - (d2 + ey))) (ex - ey)).
  assert (He' : e' <= ex - ey /\ ex - ey - e' <= 105)
    by (unfold e', fexp, emin, prec, emax; lia).
  set (m' := match ex - ey - e' with
             | 0 => Zpos mx
             | Zpos _ => Z.shiftl (Zpos mx) (ex - ey - e')
             | Zneg _ => 0
             end).
  assert (Hm' : 0 <= m' < 2 ^ 275).
  { unfold m'. destruct (ex - ey - e') as [| k | k] eqn:Es.
    - split; [lia |]. eapply Z.lt_trans; [exact Hmx | reflexivity].
    - rewrite Z.shiftl_mul_pow2 by lia.
      assert (2 ^ Zpos k <= 2 ^ 105) by (apply Z.pow_le_mono_r; lia).
      assert (0 < 2 ^ Zpos k) by (apply Z.pow_pos_nonneg; lia).
      replace (2 ^ 275) with (2 ^ 170 * 2 ^ 105) by reflexivity.
      nia.
    - split; [lia | reflexivity]. }
  pose proof (Z_div_mod m' (Zpos my) ltac:(lia)) as Hdm.
  destruct (Z.div_eucl m' (Zpos my)) as [q r].
  destruct Hdm as [Heq Hr].
  split; [nia | lia].
Qed.

Lemma div_in_range (x y : spec_float) (my : positive) (ey : Z) :
  in_range 170 (-107) 304 x ->
  y = S754_finite false my ey -> Zpos my < 2 ^ 53 -> -52 <= ey ->
  exists f, div x y = Ok f /\ exists q, to_int f = Ok q.
Proof.
  intros Hx -> Hmy Hey. unfold div. eexists; split; [reflexivity |].
  destruct x as [s | s | | s m e]; cbn [in_range] in Hx; try contradiction.
  - eexists; reflexivity.
  - destruct Hx as [Hm He]. unfold SFdiv.
    pose proof (div_core_bounds m my e ey Hm ltac:(lia) Hmy Hey) as Hc.
    destruct (SFdiv_core_binary prec emax (Zpos m) e (Zpos my) ey)
      as [[q e'] l].
    destruct Hc as [Hq He'].
    eapply to_int_in_range.
    apply (binary_round_aux_in_range _ q e' l 275 356);
      unfold exp_bound; lia.
Qed.

(** [float(n)] for the number of theme groups: exact and non-zero. *)
Lemma of_int_small (n : Z) :
  1 <= n <= 11 ->
  exists m e, of_int n = Ok (S754_finite false m e) /\
              Zpos m < 2 ^ 53 /\ -52 <= e.
Proof.
  intros Hn.
  assert (Hk : exists k, (k < 11)%nat /\ n = Z.of_nat (S k))
    by (exists (Z.to_nat (n - 1)); lia).
  destruct Hk as (k & Hk & ->).
  do 11 (destruct k as [| k];
         [do 2 eexists; split; [vm_compute; reflexivity |];
          split; [reflexivity | vm_compute; discriminate] |]).
  lia.
Qed.

(** [int(limit * w / n)] returns for every list-sized [limit] and every
    possible number [n] of theme groups. *)
Lemma int_scaled_div_returns (limit : Z) (w : spec_float) (n : Z) :
  - 2 ^ 63 < limit < 2 ^ 63 -> is_weight w -> 1 <= n <= 11 ->
  exists q, int_scaled_div limit w n = Ok q.
Proof.
  intros Hl Hw Hn. unfold int_scaled_div.
  destruct (of_int_in_range limit Hl) as (f & -> & Hf).
  destruct (of_int_small n Hn) as (m & e & -> & Hm & He).
  destruct (div_in_range (mul f w) _ m e
              (mul_weight_in_range f w Hf Hw) eq_refl Hm He) as (g & -> & Hg).
  exact Hg.
Qed.

End PyFloatFacts.

(** ** Reasoning about computations that draw and may raise *)

Module RandFacts.
Import Rand RandSpec.

Lemma returns_ret {A} (a : A) (P : A -> Prop) : P a -> returns (ret a) P.
Proof. intros H g. exists a, g. split; [reflexivity | exact H]. Qed.

Lemma returns_bind {A B} (m : M A) (k : A -> M B) (P : A -> Prop) (Q : B -> Prop) :
  returns m P -> (forall a, P a -> returns (k a) Q) -> returns (bind m k) Q.
Proof.
  intros Hm Hk g. destruct (Hm g) as (a & g1 & E & Ha).
  destruct (Hk a Ha g1) as (b & g2 & E2 & Hb).
  exists b, g2. unfold bind. rewrite E. split; assumption.
Qed.

Lemma returns_weaken {A} (m : M A) (P Q : A -> Prop) :
  returns m P -> (forall a, P a -> Q a) -> returns m Q.
Proof.
  intros Hm HPQ g. destruct (Hm g) as (a & g' & E & Ha).
  exists a, g'. split; [exact E | apply HPQ, Ha].
Qed.

Lemma returns_lift {A} (r : result A) (a : A) :
  r = Ok a -> returns (lift r) (fun x => x = a).
Proof. intros -> g. exists a, g. split; reflexivity. Qed.

Lemma returns_for_each {A S} (xs : list A) (body : A -> S -> M S) (I : S -> Prop) :
  (forall x s, In x xs -> I s -> returns (body x s) I) ->
  forall s, I s -> returns (for_each xs body s) I.
Proof.
  induction xs as [| x xs IH]; intros Hbody s Hs; cbn [for_each].
  - apply returns_ret, Hs.
  - eapply returns_bind.
    + apply Hbody; [left; reflexivity | exact Hs].
    + intros s' Hs'. apply IH; [| exact Hs'].
      intros y t Hy. apply Hbody. right; exact Hy.
Qed.

Lemma remove_nth_perm {A} (l : list A) :
  forall j x, nth_error l j = Some x -> Permutation (x :: remove_nth j l) l.
Proof.
  induction l as [| y l IH]; intros [| j] x E; cbn in E; try discriminate.
  - injection E as ->. reflexivity.
  - cbn [remove_nth]. rewrite perm_swap. constructor. apply IH, E.
Qed.

Lemma randbelow_lt (n : nat) (g : rng) :
  0 < n -> exists j g', randbelow n g = Ok (j, g') /\ j < n.
Proof.
  intros Hn. destruct g as [| x g]; cbn [randbelow].
  - exists 0, []. split; [reflexivity | exact Hn].
  - exists (x mod n), g. split; [reflexivity |].
    apply Nat.mod_upper_bound. lia.
Qed.

Lemma sample_loop_returns {A} (k : nat) :
  forall pool : list A, k <= List.length pool ->
  returns (sample_loop k pool) (drawn_from pool k).
Proof.
  induction k as [| k IH]; intros pool Hk; cbn [sample_loop].
  - apply returns_ret. split; [reflexivity |]. exists pool. reflexivity.
  - intros g.
    destruct (randbelow_lt (List.length pool) g ltac:(lia)) as (j & g1 & E & Hj).
    unfold bind at 1. rewrite E.
    destruct (nth_error pool j) as [x |] eqn:En;
      [| apply nth_error_None in En; lia].
    pose proof (remove_nth_perm pool j x En) as Hp.
    assert (Hlen : k <= List.length (remove_nth j pool)).
    { apply Permutation_length in Hp. cbn in Hp. lia. }
    destruct (IH (remove_nth j pool) Hlen g1) as (rest & g2 & E2 & Hl & tl & Htl).
    exists (x :: rest), g2. unfold bind. rewrite E2. split; [reflexivity |].
    split; [cbn; lia |]. exists tl. cbn [app].
    rewrite <- Hp. constructor. exact Htl.
Qed.

Lemma sample_returns {A} (population : list A) (k : Z) :
  (0 <= k <= Z.of_nat (List.length population))%Z ->
  returns (sample population k) (drawn_from population (Z.to_nat k)).
Proof.
  intros Hk. unfold sample.
  destruct (Z.ltb_spec k 0); [lia |].
  destruct (Z.ltb_spec (Z.of_nat (List.length population)) k); [lia |].
  cbn [orb]. apply sample_loop_returns. lia.
Qed.

Lemma drawn_from_incl {A} (population res : list A) (k : nat) :
  drawn_from population k res -> incl res population.
Proof.
  intros [_ [rest Hp]] x Hx.
  eapply Permutation_in; [exact Hp |]. apply in_or_app. left; exact Hx.
Qed.

Lemma drawn_from_NoDup {A B} (f : A -> B) (population res : list A) (k : nat) :
  drawn_from population k res -> NoDup (map f population) -> NoDup (map f res).
Proof.
  intros [_ [rest Hp]] Hnd.
  apply (Permutation_map f) in Hp. rewrite map_app in Hp.
  apply Permutation_sym in Hp.
  eapply Permutation_NoDup in Hnd; [| exact Hp].
  apply NoDup_app_remove_r in Hnd. exact Hnd.
Qed.

(** Conversely every such arrangement is delivered by some generator: the
    model leaves no outcome of [random.sample] out. *)
Lemma sample_loop_reaches {A} (res : list A) :
  forall pool rest, Permutation (res ++ rest) pool ->
  exists g, sample_loop (List.length res) pool g = Ok (res, []).
Proof.
  induction res as [| x res IH]; intros pool rest Hp.
  - exists []. reflexivity.
  - assert (Hin : In x pool)
      by (eapply Permutation_in; [exact Hp | left; reflexivity]).
    destruct (In_nth_error pool x Hin) as [j Ej].
    assert (Hj : j < List.length pool)
      by (apply nth_error_Some; rewrite Ej; discriminate).
    pose proof (remove_nth_perm pool j x Ej) as Hrm.
    assert (Hp' : Permutation (res ++ rest) (remove_nth j pool)).
    { apply Permutation_cons_inv with (a := x).
      cbn [app] in Hp. rewrite Hp, Hrm. reflexivity. }
    destruct (IH _ _ Hp') as [g Eg].
    exists (j :: g). cbn [List.length sample_loop]. unfold bind at 1.
    cbn [randbelow]. rewrite Nat.mod_small by exact Hj.
    rewrite Ej. unfold bind, ret. rewrite Eg. reflexivity.
Qed.

End RandFacts.

(** ** Grouping and de-duplication *)

Section GroupFacts.
Context {V : Type}.

Lemma group_add_keys (key : string) (v : V) (groups : list (string * list V)) :
  forall k, In k (map fst (group_add key v groups)) ->
            k = key \/ In k (map fst groups).
Proof.
  induction groups as [| [k0 vs] rest IH]; intros k Hk; cbn in *.
  - destruct Hk as [<- | []]. left; reflexivity.
  - destruct (String.eqb_spec k0 key) as [-> | Hne]; cbn in Hk.
    + right; exact Hk.
    + destruct Hk as [<- | Hk]; [right; left; reflexivity |].
      destruct (IH k Hk) as [-> | H]; [left; reflexivity | right; right; exact H].
Qed.

Lemma group_add_ok (K : string -> Prop) (P : V -> Prop)
      (key : string) (v : V) (groups : list (string * list V)) :
  K key -> P v -> groups_ok K P groups -> groups_ok K P (group_add key v groups).
Proof.
  intros HK HP. induction groups as [| [k0 vs] rest IH]; intros [Hnd Hall].
  - split; cbn.
    + constructor; [intros [] | constructor].
    + repeat constructor; assumption.
  - cbn [group_add]. inversion Hnd as [| ? ? Hnotin Hnd']; subst.
    inversion Hall as [| ? ? [Hk0 Hvs] Hall']; subst. cbn in Hk0, Hvs, Hnotin.
    destruct (String.eqb_spec k0 key) as [-> | Hne].
    + split; [exact Hnd |]. constructor; [| exact Hall'].
      split; [exact HK |]. apply Forall_app. split; [exact Hvs |].
      constructor; [exact HP | constructor].
    + destruct (IH (conj Hnd' Hall')) as [Hnd2 Hall2].
      split; cbn.
      * constructor; [| exact Hnd2].
        intros Hin. apply group_add_keys in Hin.
        destruct Hin as [-> | Hin]; [apply Hne; reflexivity | exact (Hnotin Hin)].
      * constructor; [split; assumption | exact Hall2].
Qed.

Lemma group_add_not_nil (key : string) (v : V) (groups : list (string * list V)) :
  group_add key v groups <> [].
Proof.
  destruct groups as [| [k0 vs] rest]; cbn; [discriminate |].
  destruct (String.eqb k0 key); discriminate.
Qed.

Lemma fold_group_add_ok (K : string -> Prop) (P : V -> Prop)
      (key_of : V -> string) (l : list V) :
  Forall (fun w => K (key_of w) /\ P w) l ->
  forall groups, groups_ok K P groups ->
  groups_ok K P (fold_left (fun gs w => group_add (key_of w) w gs) l groups).
Proof.
  induction 1 as [| w l [HK HP] _ IH]; intros groups Hg; cbn [fold_left].
  - exact Hg.
  - apply IH, group_add_ok; assumption.
Qed.

Lemma fold_group_add_not_nil (key_of : V -> string) (l : list V) :
  forall groups, groups <> [] ->
  fold_left (fun gs w => group_add (key_of w) w gs) l groups <> [].
Proof.
  induction l as [| w l IH]; intros groups Hg; cbn [fold_left].
  - exact Hg.
  - apply IH, group_add_not_nil.
Qed.

Lemma group_by_ok (K : string -> Prop) (P : V -> Prop)
      (key_of : V -> string) (l : list V) :
  (forall w, In w l -> K (key_of w) /\ P w) ->
  groups_ok K P (group_by key_of l).
Proof.
  intros H. apply fold_group_add_ok.
  - apply Forall_forall, H.
  - split; cbn; constructor.
Qed.

Lemma group_by_not_nil (key_of : V -> string) (l : list V) :
  l <> [] -> group_by key_of l <> [].
Proof.
  destruct l as [| w l]; [congruence | intros _].
  unfold group_by. cbn [fold_left].
  apply fold_group_add_not_nil, group_add_not_nil.
Qed.

Lemma groups_ok_in (K : string -> Prop) (P : V -> Prop)
      (groups : list (string * list V)) (kv : string * list V) :
  groups_ok K P groups -> In kv groups -> Forall P (snd kv).
Proof.
  intros [_ Hall] Hin. rewrite Forall_forall in Hall. apply (Hall kv Hin).
Qed.

Lemma dict_get_in {W : Type} (key : string) (d : list (string * W)) (v : W) :
  dict_get key d = Some v -> In (key, v) d.
Proof.
  induction d as [| [k w] rest IH]; cbn; [discriminate |].
  destruct (String.eqb_spec k key) as [-> | Hne].
  - intros [= ->]. left; reflexivity.
  - intros H. right. apply IH, H.
Qed.

End GroupFacts.

Lemma first_theme_in (table : list (string * list string)) (w : string) :
  In (first_theme table w) (map fst table ++ ["general"]).
Proof.
  induction table as [| [theme kws] rest IH]; cbn.
  - left; reflexivity.
  - destruct (existsb _ kws); [left; reflexivity | right; exact IH].
Qed.

Lemma extract_theme_in (word : string) : In (_extract_theme word) theme_names.
Proof. apply first_theme_in. Qed.

(** At least one and at most eleven theme groups. *)
Lemma thematic_groups_count (vocabulary : list VocabularyItem) :
  vocabulary <> [] ->
  (1 <= py_len (group_by (fun w => _extract_theme (english_word w)) vocabulary) <= 11)%Z.
Proof.
  intros Hne. unfold py_len.
  set (groups := group_by _ vocabulary).
  assert (Hok : groups_ok (fun k => In k theme_names) (fun _ => True) groups).
  { apply group_by_ok. intros w _. split; [apply extract_theme_in | exact I]. }
  assert (Hnn : groups <> []) by (apply group_by_not_nil, Hne).
  destruct Hok as [Hnd Hall].
  assert (Hle : List.length (map fst groups) <= List.length theme_names).
  { apply NoDup_incl_length; [exact Hnd |].
    intros k Hk. apply in_map_iff in Hk. destruct Hk as (kv & <- & Hkv).
    rewrite Forall_forall in Hall. apply (Hall kv Hkv). }
  rewrite length_map in Hle. change (List.length theme_names) with 11 in Hle.
  destruct groups; [congruence | cbn [List.length] in *; lia].
Qed.

Lemma mem_In (x : string) (xs : list string) :
  PyStr.mem x xs = true <-> In x xs.
Proof.
  unfold PyStr.mem. rewrite existsb_exists. split.
  - intros (y & Hy & E). apply String.eqb_eq in E. subst. exact Hy.
  - intros H. exists x. split; [exact H | apply String.eqb_refl].
Qed.

(** The de-duplication loop keeps [seen_ids] equal to the ids collected, and
    those pairwise distinct. *)
Lemma dedupe_spec (selected : list VocabularyItem) :
  forall unique_selected seen_ids,
    (forall x, In x seen_ids <-> In x (map id unique_selected)) ->
    NoDup (map id unique_selected) ->
    let '(u, seen) := dedupe selected unique_selected seen_ids in
    (forall x, In x seen <-> In x (map id u)) /\
    NoDup (map id u) /\
    incl u (unique_selected ++ selected).
Proof.
  induction selected as [| word rest IH]; intros u0 seen0 Hseen Hnd; cbn [dedupe].
  - split; [exact Hseen |]. split; [exact Hnd |]. rewrite app_nil_r. apply incl_refl.
  - destruct (PyStr.mem (id word) seen0) eqn:Em.
    + specialize (IH u0 seen0 Hseen Hnd).
      destruct (dedupe rest u0 seen0) as [u seen].
      destruct IH as (H1 & H2 & H3). repeat split; try assumption; try apply H1.
      intros x Hx. apply H3 in Hx. apply in_app_or in Hx. apply in_or_app.
      destruct Hx as [Hx | Hx]; [left; exact Hx | right; right; exact Hx].
    + assert (Hnot : ~ In (id word) (map id u0)).
      { intros Hin. apply Hseen, mem_In in Hin. congruence. }
      specialize (IH (u0 ++ [word]) (id word :: seen0)).
      destruct (dedupe rest (u0 ++ [word]) (id word :: seen0)) as [u seen].
      destruct IH as (H1 & H2 & H3).
      * intros x. rewrite map_app, in_app_iff. cbn. rewrite Hseen. tauto.
      * rewrite map_app. apply NoDup_app; [exact Hnd | |].
        -- cbn. constructor; [intros [] | constructor].
        -- intros a Ha [<- | []]. exact (Hnot Ha).
      * repeat split; try assumption; try apply H1.
        intros x Hx. apply H3 in Hx. rewrite <- app_assoc in Hx. exact Hx.
Qed.

(** Filtering a pool keeps its ids pairwise distinct. *)
Lemma filter_ids_distinct (keep : VocabularyItem -> bool)
      (pool : list VocabularyItem) :
  NoDup (map id pool) -> NoDup (map id (filter keep pool)).
Proof.
  induction pool as [| w pool IH]; cbn; intros Hnd; [constructor |].
  inversion Hnd as [| ? ? Hfresh Hrest]; subst.
  destruct (keep w); cbn; [| apply IH, Hrest].
  constructor; [| apply IH, Hrest].
  intros Hin. apply Hfresh. apply in_map_iff in Hin.
  destruct Hin as (x & E & Hx). apply filter_In in Hx.
  apply in_map_iff. exists x. tauto.
Qed.

Lemma NoDup_map_firstn {A B} (f : A -> B) (n : nat) (l : list A) :
  NoDup (map f l) -> NoDup (map f (firstn n l)).
Proof.
  intros H. rewrite <- (firstn_skipn n l), map_app in H.
  eapply NoDup_app_remove_r, H.
Qed.

Lemma firstn_In {A} (n : nat) (l : list A) (x : A) :
  In x (firstn n l) -> In x l.
Proof.
  intros H. rewrite <- (firstn_skipn n l). apply in_or_app. left; exact H.
Qed.

(** ** The selection contract *)

Section SelectionContract.
Import Rand RandSpec RandFacts.

Variable vocabulary : list VocabularyItem.
Variable limit : Z.
Hypothesis limit_pos : (0 < limit)%Z.
Hypothesis limit_small : (limit < py_len vocabulary)%Z.
Hypothesis list_sized : (py_len vocabulary <= sys_maxsize)%Z.

Lemma limit_in_float_range : (- 2 ^ 63 < limit < 2 ^ 63)%Z.
Proof. unfold sys_maxsize in list_sized. lia. Qed.

Lemma extend_sample_returns (selected group_words : list VocabularyItem)
      (quota : result Z) :
  from_pool vocabulary selected -> from_pool vocabulary group_words ->
  (exists q, quota = Ok q) ->
  returns (extend_sample selected group_words quota) (from_pool vocabulary).
Proof.
  intros Hs Hg [q ->]. unfold extend_sample.
  eapply returns_bind; [apply (returns_lift _ q eq_refl) |].
  intros q' ->.
  eapply returns_bind.
  - apply sample_returns. unfold py_len. lia.
  - intros drawn Hd. apply returns_ret.
    apply incl_app; [exact Hs |].
    eapply incl_tran; [eapply drawn_from_incl, Hd | exact Hg].
Qed.

Lemma filter_from_pool (p : VocabularyItem -> bool) :
  from_pool vocabulary (filter p vocabulary).
Proof. intros w Hw. apply filter_In in Hw. tauto. Qed.

Hypothesis ids_distinct : NoDup (map id vocabulary).

Lemma backfill_room (u : list VocabularyItem) (seen : list string) :
  (forall x, In x seen <-> In x (map id u)) ->
  List.length vocabulary <=
  List.length u +
  List.length (filter (fun w => negb (PyStr.mem (id w) seen)) vocabulary).
Proof.
  intros Hseen.
  pose proof (filter_length (fun w => PyStr.mem (id w) seen) vocabulary) as Hsplit.
  assert (Hin : List.length (filter (fun w => PyStr.mem (id w) seen) vocabulary)
                <= List.length u).
  { rewrite <- (length_map id), <- (length_map id u).
    apply NoDup_incl_length; [apply filter_ids_distinct, ids_distinct |].
    intros x Hx. apply in_map_iff in Hx. destruct Hx as (w & <- & Hw).
    apply filter_In in Hw. destruct Hw as [_ Hm].
    apply Hseen, mem_In, Hm. }
  lia.
Qed.

Lemma selection_tail_returns (selected : list VocabularyItem) :
  from_pool vocabulary selected ->
  returns
    (let '(unique_selected, seen_ids) := dedupe selected [] [] in
     unique_selected <-
       (if (py_len unique_selected <? limit)%Z then
          let remaining :=
            filter (fun w => negb (PyStr.mem (id w) seen_ids)) vocabulary in
          let needed := (limit - py_len unique_selected)%Z in
          match remaining with
          | [] => Rand.ret unique_selected
          | _ :: _ =>
              drawn <- Rand.sample remaining (Z.min needed (py_len remaining)) ;;
              Rand.ret (unique_selected ++ drawn)
          end
        else Rand.ret unique_selected) ;;
     Rand.ret (slice_to unique_selected limit))
    (selection_ok vocabulary limit).
Proof.
  intros Hsel.
  pose proof (dedupe_spec selected [] [] ltac:(cbn; tauto) ltac:(constructor)) as Hd.
  destruct (dedupe selected [] []) as [u seen].
  destruct Hd as (Hseen & Hnd & Hincl). cbn [app] in Hincl.
  assert (Hu : from_pool vocabulary u) by (eapply incl_tran; eassumption).
  pose proof (backfill_room u seen Hseen) as Hroom.
  set (remaining := filter (fun w => negb (PyStr.mem (id w) seen)) vocabulary) in *.
  unfold py_len in *.
  destruct (Z.ltb_spec (Z.of_nat (List.length u)) limit) as [Hlt | Hge].
  - (* back-fill *)
    assert (Hrem : (limit - Z.of_nat (List.length u)
                    < Z.of_nat (List.length remaining))%Z) by lia.
    destruct remaining as [| r0 rtl] eqn:Erem; [cbn in Hrem; lia |].
    rewrite <- Erem in *.
    apply returns_bind with
      (P := fun us => exists drawn,
                us = u ++ drawn /\
                drawn_from remaining
                  (Z.to_nat (limit - Z.of_nat (List.length u))) drawn).
    + eapply returns_bind; [apply sample_returns; lia |].
      intros drawn Hdrawn. apply returns_ret. exists drawn.
      split; [reflexivity |].
      rewrite Z.min_l in Hdrawn by lia. exact Hdrawn.
    + intros us (drawn & -> & Hdrawn). apply returns_ret.
      assert (Hlen : List.length (u ++ drawn) = Z.to_nat limit).
      { destruct Hdrawn as [Hl _]. rewrite length_app, Hl. lia. }
      unfold slice_to. destruct (Z.ltb_spec limit 0); [lia |].
      rewrite firstn_all2 by lia.
      split; [exact Hlen |]. split.
      * rewrite map_app. apply NoDup_app; [exact Hnd | |].
        -- eapply drawn_from_NoDup; [exact Hdrawn |].
           apply filter_ids_distinct, ids_distinct.
        -- intros x Hx Hx'. apply in_map_iff in Hx'.
           destruct Hx' as (w & <- & Hw).
           apply (drawn_from_incl _ _ _ Hdrawn) in Hw.
           apply filter_In in Hw. destruct Hw as [_ Hm].
           apply Hseen, mem_In in Hx. rewrite Hx in Hm. discriminate.
      * apply incl_app; [exact Hu |].
        eapply incl_tran; [eapply drawn_from_incl, Hdrawn |].
        apply filter_from_pool.
  - (* enough already: truncate *)
    apply returns_bind with (P := fun us => us = u);
      [apply returns_ret; reflexivity |].
    intros us ->. apply returns_ret.
    unfold slice_to. destruct (Z.ltb_spec limit 0); [lia |].
    split; [apply firstn_length_le; lia |]. split.
    + apply NoDup_map_firstn, Hnd.
    + intros w Hw. apply Hu. eapply firstn_In, Hw.
Qed.

(** With more entries than requested, the four passes, the de-duplication,
    the back-fill and the truncation deliver exactly [limit] entries. *)
Lemma weighted_selection_returns :
  returns (_intelligent_selection vocabulary limit)
          (selection_ok vocabulary limit).
Proof.
  unfold _intelligent_selection.
  destruct (Z.leb_spec (py_len vocabulary) limit) as [Hle | _]; [lia |].
  assert (Hne : vocabulary <> []).
  { intros E. rewrite E in limit_small. cbn in limit_small. lia. }
  pose proof limit_in_float_range as Hrange.
  apply returns_bind with (P := from_pool vocabulary).
  { apply returns_for_each; [| intros w []].
    intros comp selected _ Hsel.
    destruct (dict_get comp _) as [group_words |] eqn:Eg;
      [| apply returns_ret, Hsel].
    apply extend_sample_returns; [exact Hsel | |].
    - apply dict_get_in in Eg.
      assert (Hok : groups_ok (fun _ => True) (fun w => In w vocabulary)
                      (group_by (fun word => level_value (complexity word)) vocabulary))
        by (apply group_by_ok; intros w Hw; split; [exact I | exact Hw]).
      pose proof (groups_ok_in _ _ _ _ Hok Eg) as Hall. cbn in Hall.
      rewrite Forall_forall in Hall. exact Hall.
    - apply PyFloatFacts.int_scaled_returns; [exact Hrange | left; reflexivity]. }
  intros selected1 Hsel1.
  apply returns_bind with (P := from_pool vocabulary).
  { apply returns_for_each; [| exact Hsel1].
    intros item selected Hitem Hsel.
    destruct (snd item) as [| g0 gtl] eqn:Eitem; [apply returns_ret, Hsel |].
    rewrite <- Eitem.
    apply extend_sample_returns; [exact Hsel | |].
    - apply firstn_In in Hitem.
      assert (Hok : groups_ok (fun _ => True) (fun w => In w vocabulary)
                      (group_by (fun word => _extract_theme (english_word word))
                                vocabulary))
        by (apply group_by_ok; intros w Hw; split; [exact I | exact Hw]).
      pose proof (groups_ok_in _ _ _ _ Hok Hitem) as Hall.
      rewrite Forall_forall in Hall. exact Hall.
    - apply PyFloatFacts.int_scaled_div_returns;
        [exact Hrange | left; reflexivity | apply thematic_groups_count, Hne]. }
  intros selected2 Hsel2.
  apply returns_bind with (P := from_pool vocabulary).
  { destruct (filter _ vocabulary) as [| p0 ptl] eqn:Ep; [apply returns_ret, Hsel2 |].
    rewrite <- Ep.
    apply extend_sample_returns; [exact Hsel2 | apply filter_from_pool |].
    apply PyFloatFacts.int_scaled_returns; [exact Hrange | right; reflexivity]. }
  intros selected3 Hsel3.
  apply returns_bind with (P := from_pool vocabulary).
  { destruct (filter _ vocabulary) as [| p0 ptl] eqn:Ep; [apply returns_ret, Hsel3 |].
    rewrite <- Ep.
    apply extend_sample_returns; [exact Hsel3 | apply filter_from_pool |].
    apply PyFloatFacts.int_scaled_returns; [exact Hrange | right; reflexivity]. }
  intros selected4 Hsel4.
  apply selection_tail_returns, Hsel4.
Qed.

End SelectionContract.

Lemma selection_of_empty_pool (limit : Z) (g : Rand.rng) :
  _intelligent_selection [] limit g = Ok ([], g).
Proof.
  unfold _intelligent_selection.
  destruct (py_len (@nil VocabularyItem) <=? limit)%Z; [reflexivity |].
  cbn. unfold Rand.bind, Rand.ret, slice_to. cbn.
  destruct (0 <? limit)%Z; destruct (limit <? 0)%Z;
    rewrite firstn_nil; reflexivity.
Qed.

(** C1 -- selection output contract.  For every non-empty pool (a Python
    list, hence of at most [sys.maxsize] entries) whose ids are pairwise
    distinct and every [limit > 0], on every run of the random generator
    [_intelligent_selection] returns normally a list of exactly
    [min(limit, len(pool))] entries, with pairwise distinct ids, each of
    them an entry of the pool.  Whenever [len(pool) <= limit] the result is
    the pool itself and no draw is made; an empty pool yields the empty list. *)
Theorem intelligent_selection_contract :
  (forall (vocabulary : list VocabularyItem) (limit : Z) (g : Rand.rng),
      vocabulary <> [] ->
      (0 < limit)%Z ->
      NoDup (map id vocabulary) ->
      (py_len vocabulary <= sys_maxsize)%Z ->
      exists res g',
        _intelligent_selection vocabulary limit g = Ok (res, g') /\
        List.length res = Nat.min (Z.to_nat limit) (List.length vocabulary) /\
        NoDup (map id res) /\
        (forall w, In w res -> In w vocabulary)) /\
  (forall (vocabulary : list VocabularyItem) (limit : Z) (g : Rand.rng),
      (py_len vocabulary <= limit)%Z ->
      _intelligent_selection vocabulary limit g = Ok (vocabulary, g)) /\
  (forall (limit : Z) (g : Rand.rng),
      _intelligent_selection [] limit g = Ok ([], g)).
Proof.
  assert (Hsmall : forall vocabulary limit g,
             (py_len vocabulary <= limit)%Z ->
             _intelligent_selection vocabulary limit g = Ok (vocabulary, g)).
  { intros vocabulary limit g Hle. unfold _intelligent_selection.
    destruct (Z.leb_spec (py_len vocabulary) limit); [reflexivity | lia]. }
  split; [| split; [exact Hsmall | exact selection_of_empty_pool]].
  intros vocabulary limit g Hne Hpos Hnd Hsize.
  destruct (Z.le_gt_cases (py_len vocabulary) limit) as [Hle | Hgt].
  - exists vocabulary, g. split; [apply Hsmall, Hle |].
    unfold py_len in Hle.
    split; [lia |]. split; [exact Hnd | auto].
  - destruct (weighted_selection_returns vocabulary limit Hpos Hgt Hsize Hnd g)
      as (res & g' & E & Hlen & Hres & Hin).
    exists res, g'. split; [exact E |].
    unfold py_len in Hgt.
    split; [lia |]. split; [exact Hres | exact Hin].
Qed.

(** Three entries, two requested, on a concrete generator. *)
Lemma intelligent_selection_contract_witness :
  exists res g',
    _intelligent_selection Examples.small_pool 2 [5; 1; 4] = Ok (res, g') /\
    List.length res = Nat.min (Z.to_nat 2) (List.length Examples.small_pool) /\
    NoDup (map id res) /\
    (forall w, In w res -> In w Examples.small_pool).
Proof.
  apply (proj1 intelligent_selection_contract).
  - discriminate.
  - lia.
  - cbn. repeat constructor; cbn; intuition discriminate.
  - vm_compute. discriminate.
Defined.

(** ** Exercise builders *)

Lemma EnglishLevel_eqb_eq (a b : EnglishLevel) :
  EnglishLevel_eqb a b = true <-> a = b.
Proof. destruct a, b; cbn; split; congruence. Qed.

Lemma option_string_eqb_eq (a b : option string) :
  option_string_eqb a b = true <-> a = b.
Proof.
  destruct a as [x |], b as [y |]; cbn; try (split; congruence).
  rewrite String.eqb_eq. split; congruence.
Qed.

(** Field-wise comparison decides equality of items. *)
Lemma VocabularyItem_eqb_eq (a b : VocabularyItem) :
  VocabularyItem_eqb a b = true <-> a = b.
Proof.
  unfold VocabularyItem_eqb. destruct a, b; cbn.
  rewrite !andb_true_iff, !String.eqb_eq, EnglishLevel_eqb_eq,
    option_string_eqb_eq.
  split.
  - intros [[[[[[-> ->] ->] ->] ->] ->] ->]. reflexivity.
  - intros [= -> -> -> -> -> -> ->]. repeat split.
Qed.

Lemma VocabularyItem_eqb_refl (a : VocabularyItem) : VocabularyItem_eqb a a = true.
Proof. apply VocabularyItem_eqb_eq. reflexivity. Qed.

Section ExerciseFacts.
Import Rand RandSpec RandFacts.

Lemma choice_returns {A} (seq : list A) :
  seq <> [] -> returns (choice seq) (fun x => In x seq).
Proof.
  intros Hne g. destruct seq as [| d tl]; [congruence |].
  unfold choice.
  destruct (randbelow_lt (List.length (d :: tl)) g ltac:(cbn; lia))
    as (j & g' & E & Hj).
  exists (nth j (d :: tl) d), g'. unfold bind, ret. rewrite E.
  split; [reflexivity | apply nth_In, Hj].
Qed.

Lemma map_m_returns {A B} (f : A -> M B) (P : A -> B -> Prop) (l : list A) :
  (forall x, In x l -> returns (f x) (P x)) ->
  returns (map_m f l) (Forall2 P l).
Proof.
  induction l as [| x t IH]; intros Hf; cbn [map_m].
  - apply returns_ret. constructor.
  - eapply returns_bind; [apply Hf; left; reflexivity |].
    intros y Hy. eapply returns_bind.
    + apply IH. intros z Hz. apply Hf. right; exact Hz.
    + intros ys Hys. apply returns_ret. constructor; assumption.
Qed.

(** The other entries a distractor can come from. *)
Lemma others_not_nil (vocabulary : list VocabularyItem) (word : VocabularyItem) :
  (exists a b, In a vocabulary /\ In b vocabulary /\ a <> b) ->
  map english_word
      (filter (fun w => negb (VocabularyItem_eqb w word)) vocabulary) <> [].
Proof.
  intros (a & b & Ha & Hb & Hab).
  assert (exists w, In w vocabulary /\ w <> word) as (w & Hw & Hne).
  { destruct (VocabularyItem_eqb a word) eqn:E.
    - apply VocabularyItem_eqb_eq in E. subst. exists b. split; auto.
    - exists a. split; [exact Ha |]. intros ->.
      rewrite VocabularyItem_eqb_refl in E. discriminate. }
  assert (Hin : In w (filter (fun w => negb (VocabularyItem_eqb w word)) vocabulary)).
  { apply filter_In. split; [exact Hw |].
    destruct (VocabularyItem_eqb w word) eqn:E; [| reflexivity].
    apply VocabularyItem_eqb_eq in E. contradiction. }
  intros Hnil. apply (in_map english_word) in Hin. rewrite Hnil in Hin.
  exact Hin.
Qed.

Lemma others_nil (vocabulary : list VocabularyItem) (word : VocabularyItem) :
  (forall a, In a vocabulary -> a = word) ->
  map english_word
      (filter (fun w => negb (VocabularyItem_eqb w word)) vocabulary) = [].
Proof.
  intros Hall. induction vocabulary as [| v t IH]; [reflexivity |].
  cbn [filter]. rewrite (Hall v (or_introl eq_refl)), VocabularyItem_eqb_refl.
  cbn [negb]. apply IH. intros a Ha. apply Hall. right; exact Ha.
Qed.

Lemma fill_blank_item_returns (vocabulary : list VocabularyItem)
      (word : VocabularyItem) :
  (exists a b, In a vocabulary /\ In b vocabulary /\ a <> b) ->
  returns (fill_blank_item vocabulary word) (fill_blank_of vocabulary word).
Proof.
  intros Hdiff. unfold fill_blank_item.
  eapply returns_bind; [apply choice_returns, others_not_nil, Hdiff |].
  intros d Hd. apply returns_ret. cbn.
  repeat split. exists d. split; [reflexivity |].
  apply in_map_iff in Hd. destruct Hd as (w & E & Hw).
  apply filter_In in Hw. destruct Hw as [Hw Hne].
  exists w. repeat split; try assumption.
  intros ->. rewrite VocabularyItem_eqb_refl in Hne. discriminate.
Qed.

Lemma basic_exercises_returns (vocabulary : list VocabularyItem) :
  distractor_available vocabulary ->
  returns (_create_basic_exercises vocabulary)
          (fun es =>
             map exercise_type es =
             when_met (4 <=? List.length vocabulary) "matching" ++
             when_met (3 <=? List.length vocabulary) "fill_blank").
Proof.
  intros Hav. unfold _create_basic_exercises.
  destruct (Nat.leb_spec 3 (List.length vocabulary)) as [H3 | H3].
  - destruct Hav as [Hlt | Hdiff]; [lia |].
    eapply returns_bind.
    + apply (map_m_returns _ (fill_blank_of vocabulary)).
      intros w _. apply fill_blank_item_returns, Hdiff.
    + intros sentences _. apply returns_ret.
      destruct (4 <=? List.length vocabulary); reflexivity.
  - apply returns_ret.
    destruct (Nat.leb_spec 4 (List.length vocabulary)); [lia | reflexivity].
Qed.

(** The intermediate list is the basic one followed by its additions. *)
Lemma intermediate_extends_basic (vocabulary : list VocabularyItem)
      (g g' : rng) (eb : list Exercise) :
  _create_basic_exercises vocabulary g = Ok (eb, g') ->
  exists extra,
    _create_intermediate_exercises vocabulary g = Ok (eb ++ extra, g') /\
    map exercise_type extra =
    when_met (5 <=? List.length vocabulary) "sentence_creation" ++
    when_met (4 <=? List.length vocabulary) "synonyms".
Proof.
  intros E. unfold _create_intermediate_exercises, bind, ret. rewrite E.
  destruct (5 <=? List.length vocabulary), (4 <=? List.length vocabulary);
    cbn [when_met app].
  - eexists [_; _]. rewrite <- app_assoc. split; reflexivity.
  - eexists [_]. split; reflexivity.
  - eexists [_]. split; reflexivity.
  - exists []. rewrite app_nil_r. split; reflexivity.
Qed.

(** The advanced list is the intermediate one followed by its additions. *)
Lemma advanced_extends_intermediate (vocabulary : list VocabularyItem)
      (g g' : rng) (ei : list Exercise) :
  _create_intermediate_exercises vocabulary g = Ok (ei, g') ->
  exists extra,
    _create_advanced_exercises vocabulary g = Ok (ei ++ extra, g') /\
    map exercise_type extra =
    when_met (3 <=? List.length vocabulary) "debate" ++
    when_met (4 <=? List.length vocabulary) "reverse_translation".
Proof.
  intros E. unfold _create_advanced_exercises, bind, ret. rewrite E.
  destruct vocabulary as [| v0 [| v1 [| v2 [| v3 tl]]]];
    cbn [List.length Nat.leb first_category when_met app]; unfold ret.
  - exists []. rewrite app_nil_r. split; reflexivity.
  - exists []. rewrite app_nil_r. split; reflexivity.
  - exists []. rewrite app_nil_r. split; reflexivity.
  - eexists [_]. split; reflexivity.
  - eexists [_; _]. rewrite <- app_assoc. split; reflexivity.
Qed.

(** A failure of the basic builder is the failure of the richer ones. *)
Lemma raise_propagates (vocabulary : list VocabularyItem) (g : rng) (e : exn) :
  _create_basic_exercises vocabulary g = Raise e ->
  _create_intermediate_exercises vocabulary g = Raise e /\
  _create_advanced_exercises vocabulary g = Raise e.
Proof.
  intros E.
  assert (Ei : _create_intermediate_exercises vocabulary g = Raise e)
    by (unfold _create_intermediate_exercises, bind; rewrite E; reflexivity).
  split; [exact Ei |].
  unfold _create_advanced_exercises, bind. rewrite Ei. reflexivity.
Qed.

(** With every entry equal to every other, the first distractor draw has
    nothing to draw from. *)
Lemma basic_exercises_raise (vocabulary : list VocabularyItem) (g : rng) :
  3 <= List.length vocabulary ->
  (forall a b, In a vocabulary -> In b vocabulary -> a = b) ->
  _create_basic_exercises vocabulary g = Raise IndexError.
Proof.
  intros H3 Hall. unfold _create_basic_exercises.
  destruct (Nat.leb_spec 3 (List.length vocabulary)); [| lia].
  destruct vocabulary as [| v0 tl]; [cbn in H3; lia |].
  cbn [firstn map_m]. unfold bind at 1. unfold bind at 1.
  unfold fill_blank_item, bind at 1.
  rewrite others_nil; [reflexivity |].
  intros a Ha. apply Hall; [exact Ha | left; reflexivity].
Qed.

End ExerciseFacts.

(** The tiers where the fill-in-the-blank draw succeeds.  For every
    vocabulary list on which the distractor draw has a candidate (fewer than three entries, or two entries
    that differ) and on every run of the generator: the three builders return
    normally; the intermediate list is the basic list followed by its
    additions and the advanced list is the intermediate list followed by its
    additions; each type is present exactly when its threshold is met
    (matching 4, fill_blank 3, sentence_creation 5, synonyms 4, debate 3,
    reverse_translation 4) and is left out without any error otherwise.  With
    exactly two entries the basic list is empty; with exactly six entries the
    advanced list has exactly the six types, in this order. *)
Theorem exercise_tiers :
  forall (vocabulary : list VocabularyItem) (g : Rand.rng),
    distractor_available vocabulary ->
    let n := List.length vocabulary in
    exists (eb xi xa : list Exercise) (g' : Rand.rng),
      _create_basic_exercises vocabulary g = Ok (eb, g') /\
      _create_intermediate_exercises vocabulary g = Ok (eb ++ xi, g') /\
      _create_advanced_exercises vocabulary g = Ok ((eb ++ xi) ++ xa, g') /\
      map exercise_type eb =
        when_met (4 <=? n) "matching" ++ when_met (3 <=? n) "fill_blank" /\
      map exercise_type xi =
        when_met (5 <=? n) "sentence_creation" ++ when_met (4 <=? n) "synonyms" /\
      map exercise_type xa =
        when_met (3 <=? n) "debate" ++ when_met (4 <=? n) "reverse_translation" /\
      (n = 2 -> eb = []) /\
      (n = 6 ->
       map exercise_type ((eb ++ xi) ++ xa) =
       [ "matching"; "fill_blank"; "sentence_creation"; "synonyms";
         "debate"; "reverse_translation" ]).
Proof.
  intros vocabulary g Hav n.
  destruct (basic_exercises_returns vocabulary Hav g) as (eb & g' & Eb & Tb).
  destruct (intermediate_extends_basic vocabulary g g' eb Eb) as (xi & Ei & Ti).
  destruct (advanced_extends_intermediate vocabulary g g' _ Ei) as (xa & Ea & Ta).
  exists eb, xi, xa, g'. fold n in Tb, Ti, Ta.
  repeat (split; [assumption |]). split.
  - intros E2. rewrite E2 in Tb. cbn in Tb. destruct eb; [reflexivity | discriminate].
  - intros E6. rewrite !map_app, Tb, Ti, Ta, E6. reflexivity.
Qed.

Lemma exercise_tiers_witness :
  exists (eb xi xa : list Exercise) (g' : Rand.rng),
    _create_basic_exercises Examples.six_pool [2; 0; 1] = Ok (eb, g') /\
    _create_intermediate_exercises Examples.six_pool [2; 0; 1] = Ok (eb ++ xi, g') /\
    _create_advanced_exercises Examples.six_pool [2; 0; 1] = Ok ((eb ++ xi) ++ xa, g') /\
    map exercise_type eb = [ "matching"; "fill_blank" ] /\
    map exercise_type xi = [ "sentence_creation"; "synonyms" ] /\
    map exercise_type xa = [ "debate"; "reverse_translation" ] /\
    (6 = 2 -> eb = []) /\
    (6 = 6 ->
     map exercise_type ((eb ++ xi) ++ xa) =
     [ "matching"; "fill_blank"; "sentence_creation"; "synonyms";
       "debate"; "reverse_translation" ]).
Proof.
  apply (exercise_tiers Examples.six_pool [2; 0; 1]).
  right. exists (Examples.entry "1" "hello" BASIC), (Examples.entry "2" "teacher" BASIC).
  split; [cbn; tauto |]. split; [cbn; tauto | discriminate].
Defined.

(** C2 -- exercise tiers, the failing input.  Six copies of one entry are a
    vocabulary of exactly six entries, for which the advanced builder is to
    return the six exercise types without any error; it raises [IndexError]
    instead.  The fill-in-the-blank part of [_create_basic_exercises], which
    the two higher builders run first, draws its distractor with
    [random.choice] from the terms of the entries that differ from the word
    at hand, and that list is empty here; [_generate_usage_options] and
    [_generate_translation_options] guard the same draw with a stand-in
    list. *)
Lemma exercise_tiers_counterexample :
  List.length Examples.sextuple = 6 /\
  _create_advanced_exercises Examples.sextuple [] = Raise IndexError.
Proof. split; reflexivity. Qed.

(** C9 -- fill-blank distractor safety.  On a list of at least three entries
    two of which differ, the basic builder returns normally on every run of
    the generator, and its fill-in-the-blank exercise carries, for each of the
    first three entries, a distractor that is the term of another entry of the
    list; on a list of at least three entries that are all equal it raises
    [IndexError] (the draw from an empty list) and returns no exercises. *)
Theorem fill_blank_distractor_safety :
  (forall (vocabulary : list VocabularyItem) (g : Rand.rng),
      3 <= List.length vocabulary ->
      (exists a b, In a vocabulary /\ In b vocabulary /\ a <> b) ->
      exists es g' title instructions sentences,
        _create_basic_exercises vocabulary g = Ok (es, g') /\
        In (FillBlank title instructions sentences) es /\
        Forall2 (fill_blank_of vocabulary) (firstn 3 vocabulary) sentences) /\
  (forall (vocabulary : list VocabularyItem) (g : Rand.rng),
      3 <= List.length vocabulary ->
      (forall a b, In a vocabulary -> In b vocabulary -> a = b) ->
      _create_basic_exercises vocabulary g = Raise IndexError).
Proof.
  split; [| intros vocabulary g; apply basic_exercises_raise].
  intros vocabulary g H3 Hdiff.
  destruct (map_m_returns (fill_blank_item vocabulary)
              (fill_blank_of vocabulary) (firstn 3 vocabulary)
              (fun w _ => fill_blank_item_returns vocabulary w Hdiff) g)
    as (sentences & g' & E & Hs).
  unfold _create_basic_exercises.
  destruct (Nat.leb_spec 3 (List.length vocabulary)); [| lia].
  unfold Rand.bind, Rand.ret. rewrite E.
  do 5 eexists. split; [reflexivity |]. split; [| exact Hs].
  apply in_or_app. right. left. reflexivity.
Qed.

Lemma fill_blank_distractor_safety_witness :
  (exists es g' title instructions sentences,
      _create_basic_exercises Examples.small_pool [4; 4; 4] = Ok (es, g') /\
      In (FillBlank title instructions sentences) es /\
      Forall2 (fill_blank_of Examples.small_pool)
              (firstn 3 Examples.small_pool) sentences) /\
  _create_basic_exercises Examples.triple [4; 4; 4] = Raise IndexError.
Proof.
  split.
  - apply (proj1 fill_blank_distractor_safety Examples.small_pool [4; 4; 4]).
    + cbn. lia.
    + exists (Examples.entry "1" "hello" BASIC), (Examples.entry "2" "teacher" BASIC).
      split; [cbn; tauto |]. split; [cbn; tauto | discriminate].
  - apply (proj2 fill_blank_distractor_safety Examples.triple [4; 4; 4]).
    + cbn. lia.
    + cbn. intros a b Ha Hb.
      repeat (destruct Ha as [<- | Ha]); try contradiction;
        repeat (destruct Hb as [<- | Hb]); try contradiction; reflexivity.
Defined.

(** ** Lesson assembly *)

Section GroupByCharacterisation.
Context {V : Type}.
Variable key_of : V -> string.

Lemma filter_none (p : V -> bool) (l : list V) :
  (forall x, In x l -> p x = false) -> filter p l = [].
Proof.
  induction l as [| x l IH]; intros H; [reflexivity |].
  cbn [filter]. rewrite (H x (or_introl eq_refl)).
  apply IH. intros y Hy. apply H. right; exact Hy.
Qed.

Lemma group_by_snoc (l : list V) (w : V) :
  group_by key_of (l ++ [w]) = group_add (key_of w) w (group_by key_of l).
Proof. unfold group_by. rewrite fold_left_app. reflexivity. Qed.

Lemma first_seen_snoc (ks : list string) (k : string) :
  first_seen (ks ++ [k]) =
  if in_dec string_dec k ks then first_seen ks else first_seen ks ++ [k].
Proof.
  unfold first_seen. rewrite rev_app_distr. cbn [rev app nodup].
  destruct (in_dec string_dec k (rev ks)) as [Hin | Hnin];
    destruct (in_dec string_dec k ks) as [Hin' | Hnin']; try reflexivity.
  - exfalso. apply Hnin'. apply in_rev. exact Hin.
  - exfalso. apply Hnin. apply in_rev in Hin'. exact Hin'.
Qed.

Lemma first_seen_NoDup (ks : list string) : NoDup (first_seen ks).
Proof. apply NoDup_rev, NoDup_nodup. Qed.

Lemma first_seen_In (ks : list string) (k : string) :
  In k (first_seen ks) <-> In k ks.
Proof.
  unfold first_seen. rewrite <- in_rev, nodup_In, <- in_rev. reflexivity.
Qed.

Lemma group_of_snoc_other (l : list V) (w : V) (k : string) :
  k <> key_of w -> group_of key_of (l ++ [w]) k = group_of key_of l k.
Proof.
  intros Hne. unfold group_of. rewrite filter_app. cbn [filter].
  destruct (String.eqb_spec (key_of w) k) as [E | _]; [congruence |].
  rewrite app_nil_r. reflexivity.
Qed.

Lemma group_add_present (l : list V) (w : V) (ks : list string) :
  NoDup ks -> In (key_of w) ks ->
  group_add (key_of w) w (map (group_of key_of l) ks) = map (group_of key_of (l ++ [w])) ks.
Proof.
  induction ks as [| k ks IH]; intros Hnd Hin; [contradiction |].
  inversion Hnd as [| ? ? Hnotin Hnd']; subst.
  cbn [map group_add]. unfold group_of at 1. cbn [fst snd].
  destruct (String.eqb_spec k (key_of w)) as [-> | Hne].
  - f_equal.
    + unfold group_of. rewrite filter_app. cbn [filter].
      rewrite String.eqb_refl. reflexivity.
    + apply map_ext_in. intros k' Hk'. symmetry. apply group_of_snoc_other.
      intros ->. exact (Hnotin Hk').
  - destruct Hin as [E | Hin]; [congruence |].
    rewrite IH by assumption. f_equal.
    symmetry. apply group_of_snoc_other, Hne.
Qed.

Lemma group_add_absent (l : list V) (w : V) (ks : list string) :
  ~ In (key_of w) ks ->
  group_add (key_of w) w (map (group_of key_of l) ks) =
  map (group_of key_of l) ks ++ [(key_of w, [w])].
Proof.
  induction ks as [| k ks IH]; intros Hnin; [reflexivity |].
  cbn [map group_add]. unfold group_of at 1. cbn [fst snd].
  destruct (String.eqb_spec k (key_of w)) as [E | Hne].
  - exfalso. apply Hnin. left. exact E.
  - rewrite IH by (intros H; apply Hnin; right; exact H). reflexivity.
Qed.

(** A grouping dict lists the distinct keys in order of first occurrence,
    each with the entries of that key in their original order. *)
Lemma group_by_characterised (l : list V) :
  group_by key_of l = map (group_of key_of l) (first_seen (map key_of l)).
Proof.
  induction l as [| w l IH] using rev_ind; [reflexivity |].
  rewrite group_by_snoc, IH, map_app. cbn [map]. rewrite first_seen_snoc.
  destruct (in_dec string_dec (key_of w) (map key_of l)) as [Hin | Hnin].
  - apply group_add_present; [apply first_seen_NoDup |].
    apply first_seen_In, Hin.
  - rewrite group_add_absent by (rewrite first_seen_In; exact Hnin).
    rewrite map_app. cbn [map]. f_equal.
    + apply map_ext_in. intros k Hk. symmetry. apply group_of_snoc_other.
      intros ->. apply Hnin. apply first_seen_In, Hk.
    + unfold group_of. rewrite filter_app. cbn [filter].
      rewrite String.eqb_refl.
      replace (filter (fun w0 => String.eqb (key_of w0) (key_of w)) l)
        with (@nil V); [reflexivity |].
      symmetry. apply filter_none.
      intros x Hx. destruct (String.eqb_spec (key_of x) (key_of w)) as [E | _];
        [| reflexivity].
      exfalso. apply Hnin. rewrite <- E. apply in_map, Hx.
Qed.

End GroupByCharacterisation.

Lemma exercises_for_level_return (vocabulary : list VocabularyItem)
      (user_level : EnglishLevel) (g : Rand.rng) :
  distractor_available vocabulary ->
  exists exercises g',
    match user_level with
    | BASIC => _create_basic_exercises vocabulary
    | INTERMEDIATE => _create_intermediate_exercises vocabulary
    | ADVANCED => _create_advanced_exercises vocabulary
    end g = Ok (exercises, g').
Proof.
  intros Hav.
  destruct (basic_exercises_returns vocabulary Hav g) as (eb & g' & Eb & _).
  destruct (intermediate_extends_basic vocabulary g g' eb Eb) as (xi & Ei & _).
  destruct (advanced_extends_intermediate vocabulary g g' _ Ei) as (xa & Ea & _).
  destruct user_level; eauto.
Qed.

Lemma thematic_groups_summary (vocabulary : list VocabularyItem) :
  map (fun item : string * list VocabularyItem =>
         {| tg_theme := fst item;
            tg_words := map english_word (firstn 3 (snd item));
            tg_count := List.length (snd item) |})
      (firstn 3 (group_by (fun word => _extract_theme (english_word word))
                          vocabulary)) =
  map (theme_summary vocabulary)
      (firstn 3 (first_seen
                   (map (fun word => _extract_theme (english_word word))
                        vocabulary))).
Proof.
  rewrite group_by_characterised, firstn_map, map_map. reflexivity.
Qed.

(** The lesson where the fill-in-the-blank draw succeeds.
    [create_vocabulary_lesson] returns the
    error-tagged dict, without raising, on the empty vocabulary, and whenever
    it returns, the result carries the ["error"] key if and only if the
    vocabulary is empty.  For every non-empty vocabulary of length [N] on
    which the distractor draw has a candidate (fewer than three entries, or
    two entries that differ) it returns a lesson whose [estimated_time] is
    the decimal rendering of [N * 2] followed by the fixed unit [" minutos"],
    and whose [thematic_groups] are the first three distinct themes in order
    of first occurrence (fewer if there are fewer), each with the terms of
    its first three entries at most and with the number of all entries of
    that theme. *)
Theorem lesson_assembly_contract :
  (forall (user_level : EnglishLevel) (g : Rand.rng),
      exists msg, create_vocabulary_lesson [] user_level g = Ok (ErrorDict msg, g)) /\
  (forall (vocabulary : list VocabularyItem) (user_level : EnglishLevel)
          (g g' : Rand.rng) (r : LessonResult),
      create_vocabulary_lesson vocabulary user_level g = Ok (r, g') ->
      (has_error_key r = true <-> vocabulary = [])) /\
  (forall (vocabulary : list VocabularyItem) (user_level : EnglishLevel)
          (g : Rand.rng),
      vocabulary <> [] ->
      distractor_available vocabulary ->
      exists lesson g',
        create_vocabulary_lesson vocabulary user_level g =
          Ok (LessonDict lesson, g') /\
        lesson_estimated_time lesson =
          (PyStr.of_nat (List.length vocabulary * 2) ++ " minutos")%string /\
        lesson_thematic_groups lesson =
          map (theme_summary vocabulary)
              (firstn 3 (first_seen
                           (map (fun w => _extract_theme (english_word w))
                                vocabulary))) /\
        List.length (lesson_thematic_groups lesson) <= 3 /\
        NoDup (map tg_theme (lesson_thematic_groups lesson)) /\
        Forall (fun tg => List.length (tg_words tg) <= 3)
               (lesson_thematic_groups lesson)).
Proof.
  split; [| split].
  - intros user_level g. eexists. reflexivity.
  - intros vocabulary user_level g g' r E.
    destruct vocabulary as [| first tl].
    + cbn in E. injection E as <- _. cbn. tauto.
    + cbn [create_vocabulary_lesson] in E. unfold Rand.bind in E.
      set (built := match user_level with
                    | BASIC => _create_basic_exercises (first :: tl)
                    | INTERMEDIATE => _create_intermediate_exercises (first :: tl)
                    | ADVANCED => _create_advanced_exercises (first :: tl)
                    end g) in E.
      destruct built as [[es g1] | e]; [| discriminate].
      injection E as <- _. cbn. split; discriminate.
  - intros vocabulary user_level g Hne Hav.
    destruct (exercises_for_level_return vocabulary user_level g Hav)
      as (exercises & g' & E).
    destruct vocabulary as [| first tl] eqn:Ev; [congruence |].
    rewrite <- Ev in *.
    eexists. exists g'.
    split.
    { rewrite Ev at 1. cbn [create_vocabulary_lesson]. rewrite <- Ev.
      unfold Rand.bind. rewrite E. reflexivity. }
    cbn [lesson_estimated_time lesson_thematic_groups].
    split; [reflexivity |].
    rewrite thematic_groups_summary.
    split; [reflexivity |].
    split; [rewrite length_map; apply firstn_le_length |].
    split.
    + rewrite map_map. cbn [theme_summary tg_theme]. rewrite map_id.
      rewrite <- (map_id (firstn 3 _)).
      apply NoDup_map_firstn. rewrite map_id. apply first_seen_NoDup.
    + apply Forall_forall. intros tg Htg. apply in_map_iff in Htg.
      destruct Htg as (k & <- & _). cbn [theme_summary tg_words].
      rewrite length_map. apply firstn_le_length.
Qed.

Lemma lesson_assembly_contract_witness :
  exists lesson g',
    create_vocabulary_lesson Examples.small_pool ADVANCED [1; 1; 1] =
      Ok (LessonDict lesson, g') /\
    lesson_estimated_time lesson = "6 minutos" /\
    lesson_thematic_groups lesson =
      map (theme_summary Examples.small_pool)
          (firstn 3 (first_seen
                       (map (fun w => _extract_theme (english_word w))
                            Examples.small_pool))) /\
    List.length (lesson_thematic_groups lesson) <= 3 /\
    NoDup (map tg_theme (lesson_thematic_groups lesson)) /\
    Forall (fun tg => List.length (tg_words tg) <= 3)
           (lesson_thematic_groups lesson).
Proof.
  apply (proj2 (proj2 lesson_assembly_contract) Examples.small_pool ADVANCED [1; 1; 1]).
  - discriminate.
  - right.
    exists (Examples.entry "1" "hello" BASIC), (Examples.entry "2" "teacher" BASIC).
    split; [cbn; tauto |]. split; [cbn; tauto | discriminate].
Defined.

(** C3 -- lesson assembly, the failing input.  Three copies of one entry are
    a non-empty vocabulary of three entries, for which the assembly is to
    return a lesson with an estimated time of six minutes; it raises
    [IndexError] instead, through the same draw of
    [_create_basic_exercises] from an empty list of distractors that the
    exercise builders fail on. *)
Lemma lesson_assembly_counterexample :
  Examples.triple <> [] /\
  create_vocabulary_lesson Examples.triple BASIC [] = Raise IndexError.
Proof. split; [discriminate | reflexivity]. Qed.

(** ** Theme classification *)

Lemma first_theme_first_match (table before after : list (string * list string))
      (theme : string) (keywords : list string) (word_lower : string) :
  table = before ++ (theme, keywords) :: after ->
  (forall t ks k, In (t, ks) before -> In k ks ->
                  PyStr.contains k word_lower = false) ->
  (exists k, In k keywords /\ PyStr.contains k word_lower = true) ->
  first_theme table word_lower = theme.
Proof.
  intros -> Hbefore Hhit.
  induction before as [| [t ks] before IH]; cbn [app first_theme].
  - replace (existsb _ keywords) with true; [reflexivity |].
    symmetry. apply existsb_exists. exact Hhit.
  - replace (existsb (fun keyword => PyStr.contains keyword word_lower) ks)
      with false.
    + apply IH. intros t' ks' k Hin. apply (Hbefore t' ks' k). right; exact Hin.
    + symmetry. apply not_true_is_false. intros H.
      apply existsb_exists in H. destruct H as (k & Hk & Hc).
      rewrite (Hbefore t ks k (or_introl eq_refl) Hk) in Hc. discriminate.
Qed.

(** C5 (amended) -- theme classification.  [_extract_theme] is a function of
    the term alone (equal terms, and even terms equal up to ASCII case, get
    the same theme), and under the fixed keyword table it maps ["passport"]
    to travel and ["xylophone"] to technology (the keyword ["phone"] is a
    substring of it). *)
Theorem extract_theme_classification :
  (forall w1 w2 : string, w1 = w2 -> _extract_theme w1 = _extract_theme w2) /\
  (forall w1 w2 : string,
      PyStr.lower w1 = PyStr.lower w2 -> _extract_theme w1 = _extract_theme w2) /\
  _extract_theme "passport" = "travel" /\
  _extract_theme "xylophone" = "technology".
Proof.
  split; [intros w1 w2 ->; reflexivity |].
  split; [intros w1 w2 E; unfold _extract_theme; rewrite E; reflexivity |].
  split; reflexivity.
Qed.

Lemma extract_theme_classification_witness :
  _extract_theme "passport" = _extract_theme "passport" /\
  _extract_theme "Passport" = _extract_theme "PASSPORT".
Proof.
  split.
  - apply (proj1 extract_theme_classification "passport" "passport"). reflexivity.
  - apply (proj1 (proj2 extract_theme_classification) "Passport" "PASSPORT").
    reflexivity.
Defined.

(** ["teacher"] contains the food keyword ["tea"] and ["xylophone"] the
    technology keyword ["phone"]: the first is classified as food, the second
    as technology. *)
Lemma extract_theme_counterexample :
  ~ (_extract_theme "teacher" = "school" /\
     _extract_theme "passport" = "travel" /\
     _extract_theme "xylophone" = "general").
Proof. intros (_ & _ & H). vm_compute in H. discriminate. Qed.

(** C10 -- tie-break order.  The themes are tried in the table order time,
    family, work, food, home, school, health, money, travel, technology, and
    the first theme one of whose keywords occurs in the lower-cased term is
    returned: a theme all of whose predecessors have no keyword in the term
    wins whatever the later themes contain.  In particular every term
    containing both ["day"] and ["work"] is classified as time. *)
Theorem extract_theme_tie_break :
  map fst themes =
    [ "time"; "family"; "work"; "food"; "home"; "school"; "health"; "money";
      "travel"; "technology" ] /\
  (forall (word theme : string) (keywords : list string)
          (before after : list (string * list string)),
      themes = before ++ (theme, keywords) :: after ->
      (forall t ks k, In (t, ks) before -> In k ks ->
                      PyStr.contains k (PyStr.lower word) = false) ->
      (exists k, In k keywords /\ PyStr.contains k (PyStr.lower word) = true) ->
      _extract_theme word = theme) /\
  (forall word : string,
      PyStr.contains "day" (PyStr.lower word) = true ->
      PyStr.contains "work" (PyStr.lower word) = true ->
      _extract_theme word = "time").
Proof.
  split; [reflexivity |]. split.
  - intros word theme keywords before after Ht Hb Hk.
    unfold _extract_theme. eapply first_theme_first_match; eassumption.
  - intros word Hday _. unfold _extract_theme.
    eapply (first_theme_first_match themes []); [reflexivity | |].
    + intros t ks k [].
    + exists "day". split; [cbn; tauto | exact Hday].
Qed.

Lemma extract_theme_tie_break_witness :
  _extract_theme "Workday" = "time" /\ _extract_theme "homework" = "work".
Proof.
  split.
  - apply (proj2 (proj2 extract_theme_tie_break) "Workday"); reflexivity.
  - apply (proj1 (proj2 extract_theme_tie_break) "homework" "work"
             [ "work"; "job"; "office"; "boss"; "employee"; "meeting"; "project" ]
             (firstn 2 themes) (skipn 3 themes)).
    + reflexivity.
    + intros t ks k Hin Hk. cbn in Hin.
      destruct Hin as [[= <- <-] | [[= <- <-] | []]]; cbn in Hk;
        repeat (destruct Hk as [<- | Hk]; [reflexivity |]); contradiction.
    + exists "work". split; [cbn; tauto | reflexivity].
Defined.

(** ** Novelty classifier *)

(** C7 (amended) -- novelty classifier.  [_is_interesting_word] returns true
    if and only if the term is longer than 8 characters, OR its lower-case
    form contains one of the fourteen affix substrings, OR its lower-case
    form is not in the stop-word list. *)
Theorem is_interesting_word_characterised :
  forall word : string,
    _is_interesting_word word = true <->
    (8 < String.length word \/
     (exists pattern, In pattern interesting_patterns /\
                      PyStr.contains pattern (PyStr.lower word) = true) \/
     ~ In (PyStr.lower word) common_words).
Proof.
  intros word. unfold _is_interesting_word.
  destruct (Nat.ltb_spec 8 (String.length word)) as [Hlong | Hshort].
  - split; [intros _; left; exact Hlong | reflexivity].
  - destruct (existsb _ interesting_patterns) eqn:Ep.
    + split; [intros _ | reflexivity].
      right; left. apply existsb_exists in Ep. exact Ep.
    + rewrite negb_true_iff. split.
      * intros Hm. right; right. intros Hin. apply mem_In in Hin. congruence.
      * intros [Hl | [Hp | Hn]].
        -- lia.
        -- apply existsb_exists in Hp. congruence.
        -- apply not_true_is_false. intros Hm. apply Hn, mem_In, Hm.
Qed.

Lemma is_interesting_word_characterised_witness :
  _is_interesting_word "cat" = true.
Proof.
  apply (proj2 (is_interesting_word_characterised "cat")).
  right; right. cbn. intuition discriminate.
Defined.

(** ["cat"]: three letters, no affix, not a stop word.  The classifier says
    interesting, although the term is neither long nor affixed. *)
Lemma is_interesting_word_counterexample :
  ~ (_is_interesting_word "cat" = true <->
     ((8 < String.length "cat" \/
       (exists pattern, In pattern interesting_patterns /\
                        PyStr.contains pattern (PyStr.lower "cat") = true)) /\
      ~ In (PyStr.lower "cat") common_words)).
Proof.
  intros [H _]. destruct (H eq_refl) as [[Hlen | (p & Hp & Hc)] _].
  - cbn in Hlen. lia.
  - cbn in Hp. repeat (destruct Hp as [<- | Hp]; [discriminate |]). contradiction.
Qed.

Lemma lower_length (s : string) : String.length (PyStr.lower s) = String.length s.
Proof. induction s as [| c t IH]; cbn; [reflexivity | rewrite IH; reflexivity]. Qed.

(** No stop word is long or carries an affix, so the classifier amounts to
    the stop-word test alone. *)
Lemma is_interesting_word_not_common (word : string) :
  _is_interesting_word word = negb (PyStr.mem (PyStr.lower word) common_words).
Proof.
  unfold _is_interesting_word.
  destruct (PyStr.mem (PyStr.lower word) common_words) eqn:Em; cbn [negb].
  - apply mem_In in Em. pose proof (lower_length word) as Hl.
    cbn in Em.
    repeat (destruct Em as [E | Em];
            [rewrite <- E in *; cbn in Hl;
             destruct (Nat.ltb_spec 8 (String.length word));
             [lia | reflexivity] |]).
    contradiction.
  - destruct (8 <? String.length word); [reflexivity |].
    destruct (existsb _ interesting_patterns); reflexivity.
Qed.

(** ** The blank of the fill-in-the-blank exercise *)

Lemma prefix_app (old post : string) : String.prefix old (old ++ post)%string = true.
Proof.
  induction old as [| c t IH]; [destruct post; reflexivity |].
  cbn. destruct (ascii_dec c c); [exact IH | contradiction].
Qed.







(** ** Stable sorting by level distance *)

Section SortFacts.
Context {A : Type}.
Variable key : A -> Z.

Local Open Scope Z_scope.

Lemma insert_by_perm (x : A) (l : list A) :
  Permutation (insert_by key x l) (x :: l).
Proof.
  induction l as [| y t IH]; cbn [insert_by]; [reflexivity |].
  destruct (key x <=? key y); [reflexivity |].
  rewrite IH. apply perm_swap.
Qed.

Lemma sort_by_perm (l : list A) : Permutation (sort_by key l) l.
Proof.
  induction l as [| x t IH]; cbn [sort_by fold_right]; [reflexivity |].
  rewrite insert_by_perm. constructor. exact IH.
Qed.

Lemma insert_by_sorted (x : A) (l : list A) :
  StronglySorted (fun a b => key a <= key b) l ->
  StronglySorted (fun a b => key a <= key b) (insert_by key x l).
Proof.
  induction 1 as [| y t Hs IH Hall]; cbn [insert_by].
  - repeat constructor.
  - destruct (Z.leb_spec (key x) (key y)) as [Hle | Hgt].
    + constructor; [constructor; assumption |].
      constructor; [exact Hle |].
      eapply Forall_impl; [| exact Hall]. cbn. intros; lia.
    + constructor; [exact IH |].
      eapply Permutation_Forall; [symmetry; apply insert_by_perm |].
      constructor; [lia | exact Hall].
Qed.

Lemma sort_by_sorted (l : list A) :
  StronglySorted (fun a b => key a <= key b) (sort_by key l).
Proof.
  induction l as [| x t IH]; cbn [sort_by fold_right]; [constructor |].
  apply insert_by_sorted, IH.
Qed.

Lemma insert_by_front (x : A) (l : list A) :
  Forall (fun y => key x <= key y) l -> insert_by key x l = x :: l.
Proof.
  destruct 1 as [| y t Hy _]; cbn [insert_by]; [reflexivity |].
  destruct (Z.leb_spec (key x) (key y)); [reflexivity | lia].
Qed.

Lemma insert_by_pass (x : A) (a b : list A) :
  Forall (fun y => key y < key x) a ->
  insert_by key x (a ++ b) = a ++ insert_by key x b.
Proof.
  induction 1 as [| y t Hy _ IH]; cbn [app insert_by]; [reflexivity |].
  destruct (Z.leb_spec (key x) (key y)); [lia |]. rewrite IH. reflexivity.
Qed.

(** With only two key values the stable sort is the lower class followed
    by the upper class, each in its original order. *)
Lemma sort_by_two_classes (lo hi : Z) (l : list A) :
  lo < hi ->
  Forall (fun x => key x = lo \/ key x = hi) l ->
  sort_by key l =
  filter (fun x => key x =? lo) l ++ filter (fun x => key x =? hi) l.
Proof.
  intros Hlt. induction 1 as [| x t Hx Hall IH]; [reflexivity |].
  cbn [sort_by fold_right filter]. fold (sort_by key t). rewrite IH.
  assert (Hlo : Forall (fun y => key y = lo) (filter (fun y => key y =? lo) t)).
  { apply Forall_forall. intros y Hy. apply filter_In in Hy. lia. }
  assert (Hhi : Forall (fun y => key y = hi) (filter (fun y => key y =? hi) t)).
  { apply Forall_forall. intros y Hy. apply filter_In in Hy. lia. }
  destruct Hx as [E | E]; rewrite E.
  - rewrite Z.eqb_refl. destruct (Z.eqb_spec lo hi); [lia |].
    cbn [app]. apply insert_by_front. apply Forall_app. split.
    + eapply Forall_impl; [| exact Hlo]. cbn. intros; lia.
    + eapply Forall_impl; [| exact Hhi]. cbn. intros; lia.
  - rewrite Z.eqb_refl. destruct (Z.eqb_spec hi lo); [lia |].
    rewrite insert_by_pass.
    + f_equal. apply insert_by_front.
      eapply Forall_impl; [| exact Hhi]. cbn. intros; lia.
    + eapply Forall_impl; [| exact Hlo]. cbn. intros; lia.
Qed.

End SortFacts.

(** ** Level filter and back-fill *)

Lemma other_level_distance (level : EnglishLevel) (all_vocab : list VocabularyItem) :
  Forall (fun x => level_distance level x = 1%Z \/ level_distance level x = 2%Z)
         (filter (fun v => negb (EnglishLevel_eqb (complexity v) level)) all_vocab).
Proof.
  apply Forall_forall. intros x Hx. apply filter_In in Hx. destruct Hx as [_ Hx].
  unfold level_distance.
  destruct level, (complexity x); cbn in Hx; try discriminate; cbn; auto.
Qed.

Lemma basic_nearest_is_intermediate (all_vocab : list VocabularyItem) :
  filter (fun x => (level_distance BASIC x =? 1)%Z)
         (filter (fun v => negb (EnglishLevel_eqb (complexity v) BASIC)) all_vocab) =
  filter (fun v => EnglishLevel_eqb (complexity v) INTERMEDIATE) all_vocab.
Proof.
  induction all_vocab as [| v t IH]; [reflexivity |].
  cbn [filter].
  destruct (complexity v) eqn:E; cbn [EnglishLevel_eqb negb filter].
  - exact IH.
  - unfold level_distance at 1. rewrite E.
    change (Z.abs _ =? 1)%Z with true. cbn beta iota. f_equal. exact IH.
  - unfold level_distance at 1. rewrite E.
    change (Z.abs _ =? 1)%Z with false. cbn beta iota. exact IH.
Qed.

Lemma slice_to_nonneg {A} (l : list A) (k : Z) :
  (0 <= k)%Z -> slice_to l k = firstn (Z.to_nat k) l.
Proof. intros H. unfold slice_to. destruct (Z.ltb_spec k 0); [lia | reflexivity]. Qed.

Lemma get_category_vocabulary_stored
      (json_loads : string -> result json) (timestamp : nat -> string)
      (all_vocab : list VocabularyItem) (response : result string)
      (category : string) (user_level : option EnglishLevel) (limit : Z) :
  all_vocab <> [] ->
  get_category_vocabulary json_loads timestamp all_vocab response category
                          user_level limit =
  _intelligent_selection (level_filter all_vocab user_level limit) limit.
Proof. destruct all_vocab; [congruence | reflexivity]. Qed.

(** C4 -- level-proximity back-fill.  When a level is given and fewer than
    [limit] entries of the store's non-empty answer have it,
    [get_category_vocabulary] returns, without a draw, the matching entries
    followed by the back-fill: the other entries stably sorted by ascending
    distance to the requested level on the scale basic 0, intermediate 1,
    advanced 2 (distance one before distance two, pool order inside a
    distance), cut after [limit - matching] entries or at the end of the
    pool.  In particular, with four basic, three intermediate and three
    advanced entries, level basic and [limit = 5], the result is the four
    basic entries followed by the first intermediate one. *)
Theorem level_proximity_backfill :
  (forall (json_loads : string -> result json) (timestamp : nat -> string)
          (all_vocab : list VocabularyItem) (response : result string)
          (category : string) (level : EnglishLevel) (limit : Z) (g : Rand.rng),
      let matching :=
        filter (fun v => EnglishLevel_eqb (complexity v) level) all_vocab in
      let others :=
        filter (fun v => negb (EnglishLevel_eqb (complexity v) level)) all_vocab in
      let distance := level_distance level in
      all_vocab <> [] ->
      (py_len matching < limit)%Z ->
      exists ordered backfill,
        Permutation ordered others /\
        StronglySorted (fun x y => (distance x <= distance y)%Z) ordered /\
        ordered = filter (fun x => (distance x =? 1)%Z) others ++
                  filter (fun x => (distance x =? 2)%Z) others /\
        backfill = firstn (Z.to_nat (limit - py_len matching)) ordered /\
        List.length backfill =
          Nat.min (Z.to_nat (limit - py_len matching)) (List.length others) /\
        get_category_vocabulary json_loads timestamp all_vocab response
                                category (Some level) limit g =
          Ok (matching ++ backfill, g)) /\
  (forall (json_loads : string -> result json) (timestamp : nat -> string)
          (all_vocab : list VocabularyItem) (response : result string)
          (category : string) (g : Rand.rng),
      let of_level l :=
        filter (fun v => EnglishLevel_eqb (complexity v) l) all_vocab in
      List.length (of_level BASIC) = 4 ->
      List.length (of_level INTERMEDIATE) = 3 ->
      List.length (of_level ADVANCED) = 3 ->
      exists first_intermediate rest,
        of_level INTERMEDIATE = first_intermediate :: rest /\
        get_category_vocabulary json_loads timestamp all_vocab response
                                category (Some BASIC) 5 g =
          Ok (of_level BASIC ++ [first_intermediate], g)).
Proof.
  assert (General :
    forall (json_loads : string -> result json) (timestamp : nat -> string)
           (all_vocab : list VocabularyItem) (response : result string)
           (category : string) (level : EnglishLevel) (limit : Z) (g : Rand.rng),
      let matching :=
        filter (fun v => EnglishLevel_eqb (complexity v) level) all_vocab in
      let others :=
        filter (fun v => negb (EnglishLevel_eqb (complexity v) level)) all_vocab in
      let distance := level_distance level in
      all_vocab <> [] ->
      (py_len matching < limit)%Z ->
      exists ordered backfill,
        Permutation ordered others /\
        StronglySorted (fun x y => (distance x <= distance y)%Z) ordered /\
        ordered = filter (fun x => (distance x =? 1)%Z) others ++
                  filter (fun x => (distance x =? 2)%Z) others /\
        backfill = firstn (Z.to_nat (limit - py_len matching)) ordered /\
        List.length backfill =
          Nat.min (Z.to_nat (limit - py_len matching)) (List.length others) /\
        get_category_vocabulary json_loads timestamp all_vocab response
                                category (Some level) limit g =
          Ok (matching ++ backfill, g)).
  { intros json_loads timestamp all_vocab response category level limit g
           matching others distance Hne Hfew.
    exists (sort_by distance others),
           (firstn (Z.to_nat (limit - py_len matching)) (sort_by distance others)).
    pose proof (sort_by_perm distance others) as Hperm.
    split; [exact Hperm |].
    split; [apply sort_by_sorted |].
    split; [apply sort_by_two_classes; [lia | apply other_level_distance] |].
    split; [reflexivity |].
    assert (Hlen : List.length
                     (firstn (Z.to_nat (limit - py_len matching))
                             (sort_by distance others)) =
                   Nat.min (Z.to_nat (limit - py_len matching))
                           (List.length others)).
    { rewrite length_firstn, (Permutation_length Hperm). reflexivity. }
    split; [exact Hlen |].
    rewrite get_category_vocabulary_stored by exact Hne.
    unfold level_filter. fold matching others distance.
    destruct (Z.ltb_spec (py_len matching) limit) as [_ | Hge]; [| lia].
    rewrite slice_to_nonneg by lia.
    unfold _intelligent_selection.
    destruct (Z.leb_spec (py_len (matching ++ firstn (Z.to_nat (limit - py_len matching))
                                               (sort_by distance others))) limit)
      as [_ | Hgt]; [reflexivity |].
    exfalso. unfold py_len in *. rewrite length_app, Hlen in Hgt. lia. }
  split; [exact General |].
  intros json_loads timestamp all_vocab response category g of_level Hb Hi Ha.
  assert (Hne : all_vocab <> []).
  { intros ->. cbn in Hb. discriminate. }
  destruct (General json_loads timestamp all_vocab response category BASIC 5%Z g Hne)
    as (ordered & backfill & _ & _ & Hord & Hback & _ & Hrun).
  { unfold py_len. fold (of_level BASIC). rewrite Hb. lia. }
  rewrite basic_nearest_is_intermediate in Hord. fold (of_level INTERMEDIATE) in Hord.
  destruct (of_level INTERMEDIATE) as [| i rest] eqn:Ei; [cbn in Hi; discriminate |].
  exists i, rest. split; [reflexivity |].
  rewrite Hrun. fold (of_level BASIC). rewrite Hback, Hord.
  unfold py_len. fold (of_level BASIC). rewrite Hb. reflexivity.
Qed.

Lemma level_proximity_backfill_witness :
  exists first_intermediate rest,
    filter (fun v => EnglishLevel_eqb (complexity v) INTERMEDIATE)
           Examples.ten_pool = first_intermediate :: rest /\
    get_category_vocabulary Examples.reject_all Examples.frozen_clock
                            Examples.ten_pool (Ok "{}") "daily_life"
                            (Some BASIC) 5 [7; 7] =
      Ok (filter (fun v => EnglishLevel_eqb (complexity v) BASIC)
                 Examples.ten_pool ++ [first_intermediate], [7; 7]).
Proof.
  apply (proj2 level_proximity_backfill Examples.reject_all Examples.frozen_clock
               Examples.ten_pool (Ok "{}") "daily_life" [7; 7]); reflexivity.
Defined.

(** ** The fallback table *)

Lemma slice_to_firstn {A} (l : list A) (k : Z) :
  exists n, slice_to l k = firstn n l.
Proof. unfold slice_to. destruct (k <? 0)%Z; eexists; reflexivity. Qed.

Lemma slice_to_length {A} (l : list A) (k : Z) :
  List.length (slice_to l k) <= List.length l /\
  ((0 <= k)%Z -> (py_len (slice_to l k) <= k)%Z).
Proof.
  unfold slice_to, py_len. split.
  - destruct (k <? 0)%Z; rewrite length_firstn; lia.
  - intros Hk. destruct (Z.ltb_spec k 0); [lia |].
    rewrite length_firstn. lia.
Qed.

(** The list the fallback starts from is one of the three rows of the table,
    the first one for every category that is not a key. *)
Lemma fallback_row (category : string) :
  exists row,
    In row (map snd (fallback_vocab category)) /\
    (~ In category common_categories ->
     Some row = dict_get "daily_life" (fallback_vocab category)) /\
    forall user_level limit,
      _get_fallback_vocabulary category user_level limit =
      slice_to (match user_level with
                | Some level =>
                    filter (fun v => EnglishLevel_eqb (complexity v) level) row
                | None => row
                end) limit.
Proof.
  unfold _get_fallback_vocabulary. cbn [fallback_vocab dict_get].
  destruct (String.eqb_spec "daily_life" category) as [E1 | N1];
    [eexists; split; [left; reflexivity |];
     split; [intros _; reflexivity | reflexivity] |].
  destruct (String.eqb_spec "work" category) as [E2 | N2];
    [eexists; split; [right; left; reflexivity |]; split;
     [intros H; exfalso; apply H; rewrite <- E2; cbn; tauto | reflexivity] |].
  destruct (String.eqb_spec "education" category) as [E3 | N3];
    [eexists; split; [right; right; left; reflexivity |]; split;
     [intros H; exfalso; apply H; rewrite <- E3; cbn; tauto | reflexivity] |].
  eexists; split; [left; reflexivity |].
  split; [intros _; reflexivity | reflexivity].
Qed.

(** The row the fallback starts from: the entry of the table for a category
    that is one of its keys, the daily_life entry for every other one; it is
    never empty and carries the requested category. *)
Lemma fallback_lookup (requested : string) :
  exists row,
    (In requested common_categories ->
     dict_get requested (fallback_vocab requested) = Some row) /\
    (~ In requested common_categories ->
     dict_get "daily_life" (fallback_vocab requested) = Some row) /\
    1 <= List.length row /\
    Forall (fun v => category v = requested) row /\
    forall user_level limit,
      _get_fallback_vocabulary requested user_level limit =
      slice_to (match user_level with
                | Some level =>
                    filter (fun v => EnglishLevel_eqb (complexity v) level) row
                | None => row
                end) limit.
Proof.
  unfold _get_fallback_vocabulary. cbn [fallback_vocab dict_get].
  destruct (String.eqb_spec "daily_life" requested) as [E1 | N1].
  { eexists. split; [intros _; reflexivity |].
    split; [intros _; reflexivity |].
    split; [cbn; lia |]. split; [repeat constructor | reflexivity]. }
  destruct (String.eqb_spec "work" requested) as [E2 | N2].
  { eexists. split; [intros _; reflexivity |].
    split; [intros H; exfalso; apply H; rewrite <- E2; cbn; tauto |].
    split; [cbn; lia |]. split; [repeat constructor | reflexivity]. }
  destruct (String.eqb_spec "education" requested) as [E3 | N3].
  { eexists. split; [intros _; reflexivity |].
    split; [intros H; exfalso; apply H; rewrite <- E3; cbn; tauto |].
    split; [cbn; lia |]. split; [repeat constructor | reflexivity]. }
  eexists. split.
  { intros [H | [H | [H | []]]]; congruence. }
  split; [intros _; reflexivity |].
  split; [cbn; lia |]. split; [repeat constructor | reflexivity].
Qed.

Lemma slice_to_not_empty {A} (l : list A) (k : Z) :
  1 <= List.length l -> (1 <= k)%Z -> slice_to l k <> [].
Proof.
  intros Hl Hk. unfold slice_to. destruct (Z.ltb_spec k 0); [lia |].
  destruct l as [| x t]; [cbn in Hl; lia |].
  destruct (Z.to_nat k) as [| n] eqn:E; [lia | discriminate].
Qed.

(** ** Generation failure and the fallback vocabulary *)

(** C8 -- generation-failure fallback.  [_generate_vocabulary] never raises.
    Whenever anything raises inside its [try] block -- awaiting the generator,
    parsing the response as JSON, or building an item from the parsed data --
    it returns the built-in fallback vocabulary for the requested category,
    level and limit; in particular it does so for every response that fails
    to parse.  The built-in table holds at least one entry for each of the
    common categories daily_life, work and education.  The fallback returned
    is the table's entry for the requested category (the daily_life entry
    for a category that is not a key), which is never empty and carries the
    requested category, filtered by the requested level when there is one
    and cut to [limit]: without a level and with [limit >= 1] it is not
    empty, and for daily_life, work and education it consists of the
    entries hello and thank you, meeting, and student. *)
Theorem generation_failure_fallback :
  forall (json_loads : string -> result json) (timestamp : nat -> string)
         (response : result string) (requested : string)
         (user_level : option EnglishLevel) (limit : Z),
    let generated :=
      _generate_vocabulary json_loads timestamp response requested user_level limit in
    let fallback := _get_fallback_vocabulary requested user_level limit in
    (exists vocabulary, generated = Ok vocabulary) /\
    (forall e, generate_items json_loads timestamp response requested = Raise e ->
               generated = Ok fallback) /\
    (forall e, response = Raise e -> generated = Ok fallback) /\
    (forall text e, response = Ok text -> json_loads text = Raise e ->
                    generated = Ok fallback) /\
    (forall c, In c common_categories ->
               exists entries,
                 dict_get c (fallback_vocab requested) = Some entries /\
                 1 <= List.length entries) /\
    (exists row,
        (In requested common_categories ->
         dict_get requested (fallback_vocab requested) = Some row) /\
        (~ In requested common_categories ->
         dict_get "daily_life" (fallback_vocab requested) = Some row) /\
        1 <= List.length row /\
        Forall (fun v => category v = requested) row /\
        fallback =
        slice_to (match user_level with
                  | Some level =>
                      filter (fun v => EnglishLevel_eqb (complexity v) level) row
                  | None => row
                  end) limit) /\
    (user_level = None -> (1 <= limit)%Z -> fallback <> []) /\
    _get_fallback_vocabulary "daily_life" None 15 =
      [ mkVocabularyItem "fallback_1" "daily_life" "hello" "hola"
          "Hello, how are you?" BASIC (Some "/həˈloʊ/");
        mkVocabularyItem "fallback_2" "daily_life" "thank you" "gracias"
          "Thank you for your help." BASIC (Some "/ˈθæŋk juː/") ] /\
    _get_fallback_vocabulary "work" None 15 =
      [ mkVocabularyItem "fallback_3" "work" "meeting" "reunión"
          "We have a meeting at 3 PM." INTERMEDIATE (Some "/ˈmiːtɪŋ/") ] /\
    _get_fallback_vocabulary "education" None 15 =
      [ mkVocabularyItem "fallback_4" "education" "student" "estudiante"
          "The student is studying English." BASIC (Some "/ˈstuːdənt/") ].
Proof.
  intros json_loads timestamp response requested user_level limit generated fallback.
  assert (Hraise : forall e,
             generate_items json_loads timestamp response requested = Raise e ->
             generated = Ok fallback).
  { intros e E. unfold generated, _generate_vocabulary. rewrite E. reflexivity. }
  destruct (fallback_lookup requested)
    as (row & Hkey & Hdefault & Hrow & Hcategory & Hfallback).
  split; [| split; [exact Hraise | split; [| split; [| split; [| split; [| split]]]]]].
  - unfold generated, _generate_vocabulary.
    destruct (generate_items json_loads timestamp response requested);
      eexists; reflexivity.
  - intros e ->. apply (Hraise e). reflexivity.
  - intros text e -> Hparse. apply (Hraise e).
    unfold generate_items, result_bind. rewrite Hparse. reflexivity.
  - intros c Hc. cbn in Hc.
    destruct Hc as [<- | [<- | [<- | []]]]; eexists; (split; [reflexivity |]);
      cbn; lia.
  - exists row. repeat (split; [assumption |]). apply Hfallback.
  - intros -> Hlimit. unfold fallback. rewrite Hfallback.
    apply slice_to_not_empty; assumption.
  - repeat split; reflexivity.
Qed.

Lemma generation_failure_fallback_witness :
  _generate_vocabulary Examples.reject_all Examples.frozen_clock
                       (Ok "Error al generar respuesta: timeout") "work" None 15 =
  Ok [ mkVocabularyItem "fallback_3" "work" "meeting" "reunión"
         "We have a meeting at 3 PM." INTERMEDIATE (Some "/ˈmiːtɪŋ/") ].
Proof.
  destruct (generation_failure_fallback Examples.reject_all
              Examples.frozen_clock (Ok "Error al generar respuesta: timeout")
              "work" None 15)
    as (_ & _ & _ & Hparse & _ & _ & _ & _ & Hwork & _).
  rewrite <- Hwork.
  apply (Hparse "Error al generar respuesta: timeout" JSONDecodeError);
    reflexivity.
Defined.

(** With a level the fallback is filtered: the only built-in entry for
    ["work"] is intermediate, so a basic request gets the empty list. *)
Example fallback_work_basic_is_empty :
  _get_fallback_vocabulary "work" (Some BASIC) 15 = [].
Proof. reflexivity. Qed.

Example fallback_unknown_category_is_daily_life :
  map english_word (_get_fallback_vocabulary "sports" None 15) =
  [ "hello"; "thank you" ].
Proof. reflexivity. Qed.

(** ** The selection on arbitrary pools *)

Lemma group_by_members (key_of : VocabularyItem -> string)
      (vocabulary : list VocabularyItem) (item : string * list VocabularyItem) :
  In item (group_by key_of vocabulary) -> from_pool vocabulary (snd item).
Proof.
  intros Hin.
  assert (Hok : groups_ok (fun _ => True) (fun w => In w vocabulary)
                  (group_by key_of vocabulary))
    by (apply group_by_ok; intros w Hw; split; [exact I | exact Hw]).
  pose proof (groups_ok_in _ _ _ _ Hok Hin) as Hall.
  rewrite Forall_forall in Hall. exact Hall.
Qed.

Lemma selection_tail_bounded (vocabulary : list VocabularyItem) (limit : Z)
      (selected : list VocabularyItem) :
  from_pool vocabulary selected ->
  RandSpec.returns
    (let '(unique_selected, seen_ids) := dedupe selected [] [] in
     unique_selected <-
       (if (py_len unique_selected <? limit)%Z then
          let remaining :=
            filter (fun w => negb (PyStr.mem (id w) seen_ids)) vocabulary in
          let needed := (limit - py_len unique_selected)%Z in
          match remaining with
          | [] => Rand.ret unique_selected
          | _ :: _ =>
              drawn <- Rand.sample remaining (Z.min needed (py_len remaining)) ;;
              Rand.ret (unique_selected ++ drawn)
          end
        else Rand.ret unique_selected) ;;
     Rand.ret (slice_to unique_selected limit))
    (selection_bounded vocabulary limit).
Proof.
  intros Hsel.
  pose proof (dedupe_spec selected [] [] ltac:(cbn; tauto) ltac:(constructor)) as Hd.
  destruct (dedupe selected [] []) as [u seen].
  destruct Hd as (_ & _ & Hincl). cbn [app] in Hincl.
  assert (Hu : from_pool vocabulary u) by (eapply incl_tran; eassumption).
  assert (Hslice : forall l, from_pool vocabulary l ->
                     selection_bounded vocabulary limit (slice_to l limit)).
  { intros l Hl. unfold slice_to. split.
    - destruct (limit <? 0)%Z; intros w Hw; apply Hl; eapply firstn_In, Hw.
    - intros H0. destruct (Z.ltb_spec limit 0); [lia |].
      unfold py_len. pose proof (firstn_le_length (Z.to_nat limit) l).
      rewrite length_firstn. lia. }
  apply RandFacts.returns_bind with (P := from_pool vocabulary).
  - destruct (Z.ltb_spec (py_len u) limit) as [Hlt | _];
      [| apply RandFacts.returns_ret, Hu].
    cbv zeta.
    destruct (filter _ vocabulary) as [| r0 rtl] eqn:Erem;
      [apply RandFacts.returns_ret, Hu |].
    rewrite <- Erem.
    eapply RandFacts.returns_bind;
      [apply RandFacts.sample_returns; unfold py_len in *; lia |].
    intros drawn Hdrawn. apply RandFacts.returns_ret.
    apply incl_app; [exact Hu |].
    eapply incl_tran; [eapply RandFacts.drawn_from_incl, Hdrawn |].
    apply filter_from_pool.
  - intros l Hl. apply RandFacts.returns_ret. apply Hslice, Hl.
Qed.

Lemma selection_returns_bounded (vocabulary : list VocabularyItem) (limit : Z) :
  (py_len vocabulary <= sys_maxsize)%Z ->
  (- 2 ^ 63 < limit)%Z ->
  RandSpec.returns (_intelligent_selection vocabulary limit)
                   (selection_bounded vocabulary limit).
Proof.
  intros Hsize Hlow. unfold _intelligent_selection.
  destruct (Z.leb_spec (py_len vocabulary) limit) as [Hle | Hgt].
  { apply RandFacts.returns_ret. split; [apply incl_refl | intros _; exact Hle]. }
  assert (Hrange : (- 2 ^ 63 < limit < 2 ^ 63)%Z)
    by (unfold sys_maxsize in Hsize; lia).
  apply RandFacts.returns_bind with (P := from_pool vocabulary).
  { apply RandFacts.returns_for_each; [| intros w []].
    intros comp selected _ Hsel.
    destruct (dict_get comp _) as [group_words |] eqn:Eg;
      [| apply RandFacts.returns_ret, Hsel].
    apply extend_sample_returns; [exact Hsel | |].
    - apply dict_get_in in Eg. apply (group_by_members _ _ _ Eg).
    - apply PyFloatFacts.int_scaled_returns; [exact Hrange | left; reflexivity]. }
  intros selected1 Hsel1.
  apply RandFacts.returns_bind with (P := from_pool vocabulary).
  { apply RandFacts.returns_for_each; [| exact Hsel1].
    intros item selected Hitem Hsel.
    destruct (snd item) as [| g0 gtl] eqn:Eitem;
      [apply RandFacts.returns_ret, Hsel |].
    rewrite <- Eitem. apply firstn_In in Hitem.
    apply extend_sample_returns; [exact Hsel | |].
    - apply (group_by_members _ _ _ Hitem).
    - apply PyFloatFacts.int_scaled_div_returns;
        [exact Hrange | left; reflexivity |].
      apply thematic_groups_count. intros E. rewrite E in Hitem. exact Hitem. }
  intros selected2 Hsel2.
  apply RandFacts.returns_bind with (P := from_pool vocabulary).
  { destruct (filter _ vocabulary) as [| p0 ptl] eqn:Ep;
      [apply RandFacts.returns_ret, Hsel2 |].
    rewrite <- Ep.
    apply extend_sample_returns; [exact Hsel2 | apply filter_from_pool |].
    apply PyFloatFacts.int_scaled_returns; [exact Hrange | right; reflexivity]. }
  intros selected3 Hsel3.
  apply RandFacts.returns_bind with (P := from_pool vocabulary).
  { destruct (filter _ vocabulary) as [| p0 ptl] eqn:Ep;
      [apply RandFacts.returns_ret, Hsel3 |].
    rewrite <- Ep.
    apply extend_sample_returns; [exact Hsel3 | apply filter_from_pool |].
    apply PyFloatFacts.int_scaled_returns; [exact Hrange | right; reflexivity]. }
  intros selected4 Hsel4.
  apply selection_tail_bounded, Hsel4.
Qed.


(** X1 -- the selection on any pool.  For every pool that is a Python list
    (at most [sys.maxsize] entries), with or without repeated ids, and every
    [limit] above [-2^63], [_intelligent_selection] returns normally on every
    run of the generator; each returned entry is an entry of the pool, and
    for a non-negative [limit] at most [limit] entries are returned. *)
Theorem intelligent_selection_never_raises :
  forall (vocabulary : list VocabularyItem) (limit : Z) (g : Rand.rng),
    (py_len vocabulary <= sys_maxsize)%Z ->
    (- 2 ^ 63 < limit)%Z ->
    exists res g',
      _intelligent_selection vocabulary limit g = Ok (res, g') /\
      (forall w, In w res -> In w vocabulary) /\
      ((0 <= limit)%Z -> (py_len res <= limit)%Z).
Proof.
  intros vocabulary limit g Hsize Hlow.
  destruct (selection_returns_bounded vocabulary limit Hsize Hlow g)
    as (res & g' & E & Hin & Hlen).
  exists res, g'. auto.
Qed.

Lemma intelligent_selection_never_raises_witness :
  exists res g',
    _intelligent_selection Examples.triple 2 [3; 3] = Ok (res, g') /\
    (forall w, In w res -> In w Examples.triple) /\
    ((0 <= 2)%Z -> (py_len res <= 2)%Z).
Proof.
  apply (intelligent_selection_never_raises Examples.triple 2 [3; 3]).
  - vm_compute. discriminate.
  - reflexivity.
Defined.

(** ** Retrieval on arbitrary store answers *)

Lemma filter_split_perm {A} (f : A -> bool) (l : list A) :
  Permutation (filter f l ++ filter (fun x => negb (f x)) l) l.
Proof.
  induction l as [| x l IH]; cbn [filter]; [reflexivity |].
  destruct (f x); cbn [negb app].
  - constructor. exact IH.
  - rewrite <- Permutation_middle. constructor. exact IH.
Qed.

(** The level filter with its back-fill rearranges a part of the store's
    answer: what it yields, followed by what it leaves out, is the answer up
    to order. *)
Lemma level_filter_part (all_vocab : list VocabularyItem)
      (user_level : option EnglishLevel) (limit : Z) :
  exists left_out,
    Permutation (level_filter all_vocab user_level limit ++ left_out) all_vocab.
Proof.
  unfold level_filter. destruct user_level as [level |];
    [| exists []; rewrite app_nil_r; reflexivity].
  set (matching := filter (fun v => EnglishLevel_eqb (complexity v) level) all_vocab).
  set (others := filter (fun v => negb (EnglishLevel_eqb (complexity v) level)) all_vocab).
  pose proof (filter_split_perm (fun v => EnglishLevel_eqb (complexity v) level)
                                all_vocab) as Hsplit.
  fold matching others in Hsplit.
  destruct (py_len matching <? limit)%Z.
  - unfold slice_to.
    set (k := if (limit - py_len matching <? 0)%Z
              then Z.to_nat (py_len (sort_by (level_distance level) others) +
                             (limit - py_len matching))
              else Z.to_nat (limit - py_len matching)).
    exists (skipn k (sort_by (level_distance level) others)).
    assert (E : (if (limit - py_len matching <? 0)%Z
                 then firstn (Z.to_nat (py_len (sort_by (level_distance level) others)
                                        + (limit - py_len matching)))
                             (sort_by (level_distance level) others)
                 else firstn (Z.to_nat (limit - py_len matching))
                             (sort_by (level_distance level) others)) =
                firstn k (sort_by (level_distance level) others))
      by (unfold k; destruct (limit - py_len matching <? 0)%Z; reflexivity).
    rewrite E, <- app_assoc, firstn_skipn, <- Hsplit.
    apply Permutation_app_head, sort_by_perm.
  - exists others. exact Hsplit.
Qed.

Lemma level_filter_from_store (all_vocab : list VocabularyItem)
      (user_level : option EnglishLevel) (limit : Z) :
  incl (level_filter all_vocab user_level limit) all_vocab /\
  List.length (level_filter all_vocab user_level limit) <= List.length all_vocab /\
  (NoDup (map id all_vocab) ->
   NoDup (map id (level_filter all_vocab user_level limit))).
Proof.
  destruct (level_filter_part all_vocab user_level limit) as [rest Hp].
  split; [| split].
  - intros w Hw. eapply Permutation_in; [exact Hp |].
    apply in_or_app. left; exact Hw.
  - apply Permutation_length in Hp. rewrite length_app in Hp. lia.
  - intros Hnd. apply (Permutation_map id) in Hp. rewrite map_app in Hp.
    apply Permutation_sym in Hp.
    eapply Permutation_NoDup in Hnd; [| exact Hp].
    eapply NoDup_app_remove_r, Hnd.
Qed.

Lemma generate_vocabulary_returns
      (json_loads : string -> result json) (timestamp : nat -> string)
      (response : result string) (category : string)
      (user_level : option EnglishLevel) (limit : Z) :
  exists vocabulary,
    _generate_vocabulary json_loads timestamp response category user_level limit
    = Ok vocabulary.
Proof.
  unfold _generate_vocabulary.
  destruct (generate_items json_loads timestamp response category);
    eexists; reflexivity.
Qed.

Lemma get_category_vocabulary_bounded
      (json_loads : string -> result json) (timestamp : nat -> string)
      (all_vocab : list VocabularyItem) (response : result string)
      (category : string) (user_level : option EnglishLevel) (limit : Z) :
  all_vocab <> [] ->
  (py_len all_vocab <= sys_maxsize)%Z ->
  (- 2 ^ 63 < limit)%Z ->
  RandSpec.returns
    (get_category_vocabulary json_loads timestamp all_vocab response category
                             user_level limit)
    (selection_bounded (level_filter all_vocab user_level limit) limit).
Proof.
  intros Hne Hsize Hlow.
  rewrite get_category_vocabulary_stored by exact Hne.
  apply selection_returns_bounded; [| exact Hlow].
  destruct (level_filter_from_store all_vocab user_level limit) as (_ & Hlen & _).
  unfold py_len in *. lia.
Qed.

(** X2 -- retrieval never raises.  Whatever the store answered (a Python
    list), whatever the generator answered and whatever the parser makes of
    it, for every level or none and every [limit] above [-2^63],
    [get_category_vocabulary] returns normally on every run of the generator.
    With a non-empty store answer every returned entry comes from that answer
    and, for a non-negative [limit], at most [limit] entries are returned;
    with an empty answer the result is exactly what [_generate_vocabulary]
    yields, whatever its length, and no draw is made. *)
Theorem get_category_vocabulary_never_raises :
  forall (json_loads : string -> result json) (timestamp : nat -> string)
         (all_vocab : list VocabularyItem) (response : result string)
         (category : string) (user_level : option EnglishLevel) (limit : Z)
         (g : Rand.rng),
    (py_len all_vocab <= sys_maxsize)%Z ->
    (- 2 ^ 63 < limit)%Z ->
    exists res g',
      get_category_vocabulary json_loads timestamp all_vocab response category
                              user_level limit g = Ok (res, g') /\
      (all_vocab <> [] ->
       (forall w, In w res -> In w all_vocab) /\
       ((0 <= limit)%Z -> (py_len res <= limit)%Z)) /\
      (all_vocab = [] ->
       g' = g /\
       _generate_vocabulary json_loads timestamp response category user_level
                            limit = Ok res).
Proof.
  intros json_loads timestamp all_vocab response category user_level limit g
         Hsize Hlow.
  destruct all_vocab as [| v0 tl] eqn:Ev.
  - destruct (generate_vocabulary_returns json_loads timestamp response category
                                          user_level limit) as [res E].
    exists res, g. cbn [get_category_vocabulary]. unfold Rand.lift. rewrite E.
    split; [reflexivity |]. split; [congruence | auto].
  - rewrite <- Ev in *.
    assert (Hne : all_vocab <> []) by (rewrite Ev; discriminate).
    destruct (get_category_vocabulary_bounded json_loads timestamp all_vocab
                response category user_level limit Hne Hsize Hlow g)
      as (res & g' & E & Hin & Hlen).
    exists res, g'. split; [exact E |]. split; [| congruence].
    intros _. split; [| exact Hlen].
    intros w Hw. apply (proj1 (level_filter_from_store all_vocab user_level limit)).
    apply Hin, Hw.
Qed.

Lemma get_category_vocabulary_never_raises_witness :
  exists res g',
    get_category_vocabulary Examples.reject_all Examples.frozen_clock
                            Examples.ten_pool (Ok "{}") "daily_life"
                            None 3 [1; 2; 3] = Ok (res, g') /\
    (Examples.ten_pool <> [] ->
     (forall w, In w res -> In w Examples.ten_pool) /\
     ((0 <= 3)%Z -> (py_len res <= 3)%Z)) /\
    (Examples.ten_pool = [] ->
     g' = [1; 2; 3] /\
     _generate_vocabulary Examples.reject_all Examples.frozen_clock (Ok "{}")
                          "daily_life" None 3 = Ok res).
Proof.
  apply (get_category_vocabulary_never_raises Examples.reject_all
           Examples.frozen_clock Examples.ten_pool (Ok "{}") "daily_life"
           None 3 [1; 2; 3]).
  - vm_compute. discriminate.
  - reflexivity.
Defined.

(** X3 -- level purity.  When a level is requested and at least [limit > 0]
    entries of the store's answer have it, every entry that
    [get_category_vocabulary] returns has the requested level: the back-fill
    from other levels is used only when the level runs short. *)
Theorem get_category_vocabulary_level_pure :
  forall (json_loads : string -> result json) (timestamp : nat -> string)
         (all_vocab : list VocabularyItem) (response : result string)
         (category : string) (level : EnglishLevel) (limit : Z) (g : Rand.rng),
    (py_len all_vocab <= sys_maxsize)%Z ->
    (0 < limit)%Z ->
    (limit <=
     py_len (filter (fun v => EnglishLevel_eqb (complexity v) level) all_vocab))%Z ->
    exists res g',
      get_category_vocabulary json_loads timestamp all_vocab response category
                              (Some level) limit g = Ok (res, g') /\
      (forall w, In w res -> In w all_vocab /\ complexity w = level) /\
      (py_len res <= limit)%Z.
Proof.
  intros json_loads timestamp all_vocab response category level limit g
         Hsize Hpos Hmany.
  assert (Hne : all_vocab <> []).
  { intros ->. cbn in Hmany. lia. }
  destruct (get_category_vocabulary_bounded json_loads timestamp all_vocab
              response category (Some level) limit Hne Hsize ltac:(lia) g)
    as (res & g' & E & Hin & Hlen).
  exists res, g'. split; [exact E |]. split; [| apply Hlen; lia].
  intros w Hw. apply Hin in Hw. unfold level_filter in Hw.
  destruct (Z.ltb_spec
              (py_len (filter (fun v => EnglishLevel_eqb (complexity v) level)
                              all_vocab)) limit) as [Hlt | _]; [lia |].
  apply filter_In in Hw. destruct Hw as [Hw Hl].
  split; [exact Hw | apply EnglishLevel_eqb_eq, Hl].
Qed.

Lemma get_category_vocabulary_level_pure_witness :
  exists res g',
    get_category_vocabulary Examples.reject_all Examples.frozen_clock
                            Examples.ten_pool (Ok "{}") "daily_life"
                            (Some BASIC) 3 [1; 2; 3] = Ok (res, g') /\
    (forall w, In w res -> In w Examples.ten_pool /\ complexity w = BASIC) /\
    (py_len res <= 3)%Z.
Proof.
  apply (get_category_vocabulary_level_pure Examples.reject_all
           Examples.frozen_clock Examples.ten_pool (Ok "{}") "daily_life"
           BASIC 3 [1; 2; 3]).
  - vm_compute. discriminate.
  - reflexivity.
  - vm_compute. discriminate.
Defined.

(** ** The fallback table *)

(** X4 -- the fallback vocabulary.  For every category, level and limit the
    fallback entries all carry the requested category and, when a level is
    given, that level; their ids are pairwise distinct; there are at most two
    of them and, for a non-negative [limit], at most [limit].  A category
    that is none of daily_life, work and education gets the daily_life row:
    without a level and with [limit >= 2], the two entries hello and
    thank you. *)
Theorem fallback_vocabulary_shape :
  forall (requested : string) (user_level : option EnglishLevel) (limit : Z),
    let res := _get_fallback_vocabulary requested user_level limit in
    (forall v, In v res ->
               category v = requested /\
               (forall level, user_level = Some level -> complexity v = level)) /\
    NoDup (map id res) /\
    List.length res <= 2 /\
    ((0 <= limit)%Z -> (py_len res <= limit)%Z) /\
    (~ In requested common_categories -> user_level = None -> (2 <= limit)%Z ->
     map english_word res = [ "hello"; "thank you" ]).
Proof.
  intros requested user_level limit res.
  destruct (fallback_row requested) as (row & Hrow & Hdefault & Hres).
  unfold res. rewrite Hres. clear res Hres.
  set (kept := match user_level with
               | Some level =>
                   filter (fun v => EnglishLevel_eqb (complexity v) level) row
               | None => row
               end).
  assert (Hkept : incl kept row).
  { unfold kept. destruct user_level; [| apply incl_refl].
    intros v Hv. apply filter_In in Hv. tauto. }
  assert (Hshape : (forall v, In v row -> category v = requested) /\
                   NoDup (map id row) /\ List.length row <= 2).
  { cbn in Hrow. destruct Hrow as [<- | [<- | [<- | []]]]; cbn;
      (split; [intuition (subst; reflexivity) |]);
      (split; [repeat constructor; cbn; intuition discriminate | lia]). }
  destruct Hshape as (Hcat & Hnd & Hlen).
  destruct (slice_to_firstn kept limit) as [n En].
  destruct (slice_to_length kept limit) as [Hl1 Hl2].
  assert (Hndk : NoDup (map id kept)).
  { unfold kept. destruct user_level; [apply filter_ids_distinct |]; exact Hnd. }
  assert (Hlk : List.length kept <= List.length row).
  { unfold kept. destruct user_level; [apply filter_length_le | lia]. }
  split; [| split; [| split; [| split]]].
  - intros v Hv. rewrite En in Hv. apply firstn_In in Hv.
    split; [apply Hcat, Hkept, Hv |].
    intros level ->. unfold kept in Hv. apply filter_In in Hv.
    apply EnglishLevel_eqb_eq, Hv.
  - rewrite En. apply NoDup_map_firstn, Hndk.
  - lia.
  - exact Hl2.
  - intros Hother -> H2. specialize (Hdefault Hother).
    cbn in Hdefault. injection Hdefault as ->.
    unfold kept, slice_to. destruct (Z.ltb_spec limit 0); [lia |].
    rewrite firstn_all2 by (cbn; lia). reflexivity.
Qed.

Lemma fallback_vocabulary_shape_witness :
  map english_word (_get_fallback_vocabulary "sports" None 10) =
  [ "hello"; "thank you" ].
Proof.
  apply (proj2 (proj2 (proj2 (proj2
           (fallback_vocabulary_shape "sports" None 10))))).
  - cbn. intuition discriminate.
  - reflexivity.
  - lia.
Defined.

(** ** Generated vocabulary *)

Lemma append_cancel_l (p a b : string) :
  (p ++ a)%string = (p ++ b)%string -> a = b.
Proof.
  induction p as [| c p IH]; cbn; [auto |]. intros [= H]. apply IH, H.
Qed.

Lemma lacks_split (c : ascii) (a b x y : string) :
  lacks c a -> lacks c b ->
  (a ++ String c x)%string = (b ++ String c y)%string -> a = b.
Proof.
  revert b. induction a as [| a0 a IH]; intros [| b0 b] Ha Hb E;
    cbn in *; try reflexivity.
  - injection E as E _. destruct Hb as [Hb _]. congruence.
  - injection E as E _. destruct Ha as [Ha _]. congruence.
  - injection E as E0 E. destruct Ha as [_ Ha], Hb as [_ Hb].
    f_equal; [exact E0 | eapply IH; eassumption].
Qed.

Lemma decimal_lacks_underscore (n : nat) : lacks "_"%char (PyStr.of_nat n).
Proof.
  unfold PyStr.of_nat. generalize (Nat.to_uint n). intros d.
  induction d; cbn; try exact I; (split; [discriminate | assumption]).
Qed.

Lemma of_nat_injective (i j : nat) : PyStr.of_nat i = PyStr.of_nat j -> i = j.
Proof.
  unfold PyStr.of_nat. intros E.
  apply Unsigned.to_uint_inj.
  pose proof (NilEmpty.usu (Nat.to_uint i)) as Hi.
  pose proof (NilEmpty.usu (Nat.to_uint j)) as Hj.
  rewrite E in Hi. congruence.
Qed.

(** Two generated ids coincide only at the same index, whatever the clock
    reads. *)
Lemma generated_id_injective (timestamp : nat -> string) (category : string)
      (i j : nat) :
  generated_id timestamp category i = generated_id timestamp category j -> i = j.
Proof.
  unfold generated_id. intros E.
  apply (append_cancel_l "gen_") in E. apply append_cancel_l in E.
  apply (append_cancel_l "_") in E.
  apply of_nat_injective.
  eapply (lacks_split "_"%char); [apply decimal_lacks_underscore ..| exact E].
Qed.

Lemma generated_item_shape (timestamp : nat -> string) (requested : string)
      (i : nat) (item_data : json) (item : VocabularyItem) :
  generated_item timestamp requested i item_data = Ok item ->
  id item = generated_id timestamp requested i /\ category item = requested.
Proof.
  unfold generated_item, result_bind. intros E.
  repeat match type of E with
         | match ?r with Ok _ => _ | Raise _ => _ end = Ok _ =>
             destruct r; [| discriminate]
         end.
  injection E as <-. split; reflexivity.
Qed.

Lemma generated_items_shape (timestamp : nat -> string) (requested : string)
      (elements : list json) :
  forall (i : nat) (items : list VocabularyItem),
    result_map_indexed (generated_item timestamp requested) i elements = Ok items ->
    map id items = map (generated_id timestamp requested)
                       (seq i (List.length elements)) /\
    Forall (fun item => category item = requested) items.
Proof.
  induction elements as [| x t IH]; intros i items E; cbn in E.
  - injection E as <-. split; [reflexivity | constructor].
  - unfold result_bind in E.
    destruct (generated_item timestamp requested i x) as [y |] eqn:Ey;
      [| discriminate].
    destruct (result_map_indexed _ (S i) t) as [ys |] eqn:Eys; [| discriminate].
    injection E as <-.
    destruct (generated_item_shape _ _ _ _ _ Ey) as [Hid Hcat].
    destruct (IH (S i) ys Eys) as [Hids Hcats].
    split; [cbn; rewrite Hid, Hids; reflexivity | constructor; assumption].
Qed.

Lemma generate_items_elements
      (json_loads : string -> result json) (timestamp : nat -> string)
      (response : result string) (requested : string)
      (items : list VocabularyItem) :
  generate_items json_loads timestamp response requested = Ok items ->
  exists elements,
    result_map_indexed (generated_item timestamp requested) 0 elements = Ok items.
Proof.
  unfold generate_items, result_bind. intros E.
  destruct response as [text |]; [| discriminate].
  destruct (json_loads text) as [data |]; [| discriminate].
  destruct (json_get data "vocabulary" (JArray [])) as [listed |]; [| discriminate].
  destruct (json_iter listed) as [elements |]; [| discriminate].
  exists elements. exact E.
Qed.

(** X5 -- generated vocabulary.  Whenever the [try] block of
    [_generate_vocabulary] completes, its items are returned as they are --
    neither cut to [limit] nor filtered by level -- and every item carries the
    requested category and the id [gen_<category>_<i>_<timestamp>] of its
    position [i]; these ids are pairwise distinct whatever the clock reads. *)
Theorem generated_vocabulary_shape :
  forall (json_loads : string -> result json) (timestamp : nat -> string)
         (response : result string) (requested : string)
         (user_level : option EnglishLevel) (limit : Z)
         (items : list VocabularyItem),
    generate_items json_loads timestamp response requested = Ok items ->
    _generate_vocabulary json_loads timestamp response requested user_level limit
      = Ok items /\
    (forall item, In item items -> category item = requested) /\
    map id items =
      map (generated_id timestamp requested) (seq 0 (List.length items)) /\
    NoDup (map id items).
Proof.
  intros json_loads timestamp response requested user_level limit items E.
  split; [unfold _generate_vocabulary; rewrite E; reflexivity |].
  destruct (generate_items_elements _ _ _ _ _ E) as [elements Eel].
  destruct (generated_items_shape _ _ _ _ _ Eel) as [Hids Hcats].
  assert (Hlen : List.length items = List.length elements).
  { rewrite <- (length_map id items), Hids, length_map, length_seq. reflexivity. }
  split; [apply Forall_forall, Hcats |].
  split; [rewrite Hlen; exact Hids |].
  rewrite Hids. apply Finite.Injective_map_NoDup; [| apply seq_NoDup].
  intros i j. apply generated_id_injective.
Qed.

Lemma generated_vocabulary_shape_witness :
  _generate_vocabulary Fixtures.parse_two_items Examples.frozen_clock
                       (Ok "{...}") "animals" (Some BASIC) 1 =
    Ok Fixtures.generated_two /\
  (forall item, In item Fixtures.generated_two -> category item = "animals") /\
  map id Fixtures.generated_two = [ "gen_animals_0_0.0"; "gen_animals_1_0.0" ] /\
  NoDup (map id Fixtures.generated_two).
Proof.
  apply (generated_vocabulary_shape Fixtures.parse_two_items
           Examples.frozen_clock (Ok "{...}") "animals" (Some BASIC) 1
           Fixtures.generated_two).
  reflexivity.
Defined.

(** X6 -- an answer without the list.  When the generator's answer parses to
    an object that has no ["vocabulary"] member, or whose ["vocabulary"] is
    the empty list, [_generate_vocabulary] returns the empty list -- not the
    fallback vocabulary. *)
Theorem generated_vocabulary_without_list :
  forall (json_loads : string -> result json) (timestamp : nat -> string)
         (text requested : string) (user_level : option EnglishLevel)
         (limit : Z) (members : list (string * json)),
    json_loads text = Ok (JObject members) ->
    members_get "vocabulary" members = None \/
    members_get "vocabulary" members = Some (JArray []) ->
    _generate_vocabulary json_loads timestamp (Ok text) requested user_level
                         limit = Ok [].
Proof.
  intros json_loads timestamp text requested user_level limit members Hparse Hm.
  unfold _generate_vocabulary, generate_items, result_bind.
  rewrite Hparse. cbn [json_get].
  destruct Hm as [-> | ->]; reflexivity.
Qed.

Lemma generated_vocabulary_without_list_witness :
  _generate_vocabulary Fixtures.parse_empty_object Examples.frozen_clock
                       (Ok "{}") "work" None 15 = Ok [].
Proof.
  apply (generated_vocabulary_without_list Fixtures.parse_empty_object
           Examples.frozen_clock "{}" "work" None 15 []).
  - reflexivity.
  - left. reflexivity.
Defined.

Lemma result_map_indexed_raises {A B} (f : nat -> A -> result B) (l : list A)
      (bad : A) :
  In bad l -> (forall i, exists e, f i bad = Raise e) ->
  forall i, exists e, result_map_indexed f i l = Raise e.
Proof.
  intros Hin Hbad. induction l as [| x t IH]; [contradiction |].
  intros i. cbn [result_map_indexed]. unfold result_bind.
  destruct Hin as [-> | Hin].
  - destruct (Hbad i) as [e ->]. exists e. reflexivity.
  - destruct (f i x); [| eexists; reflexivity].
    destruct (IH Hin (S i)) as [e ->]. exists e. reflexivity.
Qed.

(** X7 -- all or nothing.  If the parsed answer is not an object, or one
    element of its ["vocabulary"] list is not an object, nothing of the
    answer is kept: [_generate_vocabulary] returns the fallback vocabulary
    for the requested category, level and limit. *)
Theorem generated_vocabulary_all_or_nothing :
  forall (json_loads : string -> result json) (timestamp : nat -> string)
         (text requested : string) (user_level : option EnglishLevel)
         (limit : Z) (data : json),
    json_loads text = Ok data ->
    (forall members, data <> JObject members) \/
    (exists members elements bad,
        data = JObject members /\
        members_get "vocabulary" members = Some (JArray elements) /\
        In bad elements /\ (forall fields, bad <> JObject fields)) ->
    _generate_vocabulary json_loads timestamp (Ok text) requested user_level
                         limit =
    Ok (_get_fallback_vocabulary requested user_level limit).
Proof.
  intros json_loads timestamp text requested user_level limit data Hparse Hbad.
  unfold _generate_vocabulary, generate_items. cbn [result_bind].
  rewrite Hparse. cbn [result_bind].
  destruct Hbad as [Hnot | (members & elements & bad & -> & Hget & Hin & Hnot)].
  - destruct data; try reflexivity. exfalso. eapply Hnot. reflexivity.
  - cbn [json_get]. rewrite Hget. cbn [result_bind json_iter].
    destruct (result_map_indexed_raises
                (generated_item timestamp requested) elements bad Hin) with (i := 0)
      as [e ->]; [| reflexivity].
    intros i. unfold generated_item, result_bind.
    destruct bad; cbn [json_get]; try (eexists; reflexivity).
    exfalso. eapply Hnot. reflexivity.
Qed.

Lemma generated_vocabulary_all_or_nothing_witness :
  _generate_vocabulary Fixtures.parse_bad_item Examples.frozen_clock
                       (Ok "{...}") "work" None 15 =
  Ok (_get_fallback_vocabulary "work" None 15).
Proof.
  apply (generated_vocabulary_all_or_nothing Fixtures.parse_bad_item
           Examples.frozen_clock "{...}" "work" None 15 _ eq_refl).
  right. do 3 eexists. split; [reflexivity |]. split; [reflexivity |].
  split; [right; left; reflexivity | discriminate].
Defined.

(** ** Option lists and the knowledge test *)

Section ShuffleFacts.
Context {A : Type}.

Lemma nth_error_set_nth_same (i : nat) (v : A) (l : list A) :
  i < List.length l -> nth_error (set_nth i v l) i = Some v.
Proof.
  revert i. induction l as [| x t IH]; intros [| i] H; cbn in *;
    try lia; [reflexivity | apply IH; lia].
Qed.

Lemma nth_error_set_nth_other (i j : nat) (v : A) (l : list A) :
  i <> j -> nth_error (set_nth i v l) j = nth_error l j.
Proof.
  revert i j. induction l as [| x t IH]; intros [| i] [| j] H; cbn;
    try reflexivity; try congruence.
  apply IH. congruence.
Qed.

(** Overwriting one position exchanges one element of the multiset. *)
Lemma set_nth_exchange (i : nat) (a b : A) (l : list A) :
  nth_error l i = Some a -> Permutation (a :: set_nth i b l) (b :: l).
Proof.
  revert i. induction l as [| x t IH]; intros [| i] E; cbn in E;
    try discriminate.
  - injection E as ->. cbn. apply perm_swap.
  - cbn [set_nth]. rewrite perm_swap, (IH i E). apply perm_swap.
Qed.

Lemma swap_permutes (i j : nat) (x : list A) :
  i < List.length x -> j < List.length x ->
  exists y, swap i j x = Ok y /\ Permutation y x.
Proof.
  intros Hi Hj. unfold swap.
  destruct (nth_error x i) as [a |] eqn:Ea;
    [| apply nth_error_None in Ea; lia].
  destruct (nth_error x j) as [b |] eqn:Eb;
    [| apply nth_error_None in Eb; lia].
  eexists. split; [reflexivity |].
  pose proof (set_nth_exchange i a b x Ea) as H1.
  assert (Ej : nth_error (set_nth i b x) j = Some b).
  { destruct (Nat.eq_dec i j) as [-> | Hne].
    - apply nth_error_set_nth_same, Hj.
    - rewrite nth_error_set_nth_other by exact Hne. exact Eb. }
  pose proof (set_nth_exchange j b a (set_nth i b x) Ej) as H2.
  apply Permutation_cons_inv with (a := b).
  rewrite H2, H1. reflexivity.
Qed.

Lemma shuffle_loop_permutes (i : nat) :
  forall x : list A, i < List.length x \/ i = 0 ->
  RandSpec.returns (shuffle_loop i x) (fun y => Permutation y x).
Proof.
  induction i as [| i IH]; intros x Hi; cbn [shuffle_loop].
  - apply RandFacts.returns_ret. reflexivity.
  - destruct Hi as [Hi | Hi]; [| discriminate].
    intros g.
    destruct (RandFacts.randbelow_lt (S i + 1) g ltac:(lia)) as (j & g1 & E & Hj).
    unfold Rand.bind at 1. rewrite E.
    destruct (swap_permutes (S i) j x Hi ltac:(lia)) as (y & Ey & Hy).
    unfold Rand.bind at 1, Rand.lift. rewrite Ey.
    destruct (IH y) with (g := g1) as (z & g2 & Ez & Hz).
    { left. rewrite (Permutation_length Hy). lia. }
    exists z, g2. split; [exact Ez | rewrite Hz; exact Hy].
Qed.

(** [random.shuffle] never raises and rearranges its list. *)
Lemma shuffle_permutes (x : list A) :
  RandSpec.returns (shuffle x) (fun y => Permutation y x).
Proof.
  unfold shuffle. apply shuffle_loop_permutes.
  destruct x; cbn; lia.
Qed.

End ShuffleFacts.

Lemma translation_options_unfold (correct_word : VocabularyItem)
      (all_words : list VocabularyItem) :
  _generate_translation_options correct_word all_words =
  generate_options spanish_translation generic_translations
                   correct_word all_words.
Proof. reflexivity. Qed.

Lemma usage_options_unfold (correct_word : VocabularyItem)
      (all_words : list VocabularyItem) :
  _generate_usage_options correct_word all_words =
  generate_options english_word generic_words correct_word all_words.
Proof. reflexivity. Qed.

Lemma generate_options_returns (field : VocabularyItem -> string)
      (generic_options : list string)
      (correct_word : VocabularyItem) (all_words : list VocabularyItem) :
  3 <= List.length generic_options ->
  RandSpec.returns
    (generate_options field generic_options correct_word all_words)
    (options_of field generic_options correct_word all_words).
Proof.
  intros Hgen. unfold generate_options, options_of, distractors_of.
  set (other_words :=
         filter (fun w => negb (VocabularyItem_eqb w correct_word)) all_words).
  apply RandFacts.returns_bind with
    (P := fun options =>
            exists distractors,
              (if 3 <=? List.length other_words
               then exists drawn, RandSpec.drawn_from other_words 3 drawn /\
                                  distractors = map field drawn
               else RandSpec.drawn_from generic_options 3 distractors) /\
              options = field correct_word :: distractors).
  - destruct (Nat.leb_spec 3 (List.length other_words)) as [H3 | H3].
    + eapply RandFacts.returns_bind; [apply RandFacts.sample_returns; lia |].
      intros drawn Hd. apply RandFacts.returns_ret.
      exists (map field drawn). split; [| reflexivity].
      exists drawn. split; [exact Hd | reflexivity].
    + eapply RandFacts.returns_bind; [apply RandFacts.sample_returns; lia |].
      intros drawn Hd. apply RandFacts.returns_ret.
      exists drawn. split; [exact Hd | reflexivity].
  - intros options (distractors & Hd & ->).
    eapply RandFacts.returns_weaken; [apply shuffle_permutes |].
    intros shuffled Hp. exists distractors. split; assumption.
Qed.

Lemma options_of_shape (field : VocabularyItem -> string)
      (generic_options : list string)
      (correct_word : VocabularyItem) (all_words : list VocabularyItem)
      (options : list string) :
  options_of field generic_options correct_word all_words options ->
  List.length options = 4 /\ In (field correct_word) options.
Proof.
  intros (distractors & Hd & Hp). unfold distractors_of in Hd.
  assert (Hlen : List.length distractors = 3).
  { destruct (3 <=? _).
    - destruct Hd as (drawn & [Hl _] & ->). rewrite length_map. exact Hl.
    - destruct Hd as [Hl _]. exact Hl. }
  split.
  - rewrite (Permutation_length Hp). cbn. lia.
  - eapply Permutation_in; [symmetry; exact Hp | left; reflexivity].
Qed.

Lemma options_consequences (field : VocabularyItem -> string)
      (generic_options : list string)
      (correct_word : VocabularyItem) (all_words : list VocabularyItem)
      (options : list string) :
  NoDup generic_options ->
  options_of field generic_options correct_word all_words options ->
  let other_words :=
    filter (fun w => negb (VocabularyItem_eqb w correct_word)) all_words in
  exists distractors,
    Permutation options (field correct_word :: distractors) /\
    List.length distractors = 3 /\
    (3 <= List.length other_words ->
     forall d, In d distractors ->
               exists w, In w all_words /\ w <> correct_word /\ field w = d) /\
    (List.length other_words < 3 ->
     NoDup distractors /\ incl distractors generic_options).
Proof.
  intros Hnd (distractors & Hd & Hp) other_words.
  exists distractors. split; [exact Hp |].
  unfold distractors_of in Hd. fold other_words in Hd.
  destruct (Nat.leb_spec 3 (List.length other_words)) as [H3 | H3].
  - destruct Hd as (drawn & Hdrawn & ->).
    split; [rewrite length_map; apply Hdrawn |].
    split; [| lia]. intros _ d Hin. apply in_map_iff in Hin.
    destruct Hin as (w & <- & Hw).
    apply (RandFacts.drawn_from_incl _ _ _ Hdrawn) in Hw.
    apply filter_In in Hw. destruct Hw as [Hw Hne].
    exists w. split; [exact Hw |]. split; [| reflexivity].
    intros ->. rewrite VocabularyItem_eqb_refl in Hne. discriminate.
  - split; [apply Hd |]. split; [lia |]. intros _.
    split; [| eapply RandFacts.drawn_from_incl, Hd].
    rewrite <- (map_id distractors).
    eapply RandFacts.drawn_from_NoDup; [exact Hd |].
    rewrite map_id. exact Hnd.
Qed.

Lemma generic_translations_NoDup : NoDup generic_translations.
Proof. repeat constructor; cbn; intuition discriminate. Qed.

Lemma generic_words_NoDup : NoDup generic_words.
Proof. repeat constructor; cbn; intuition discriminate. Qed.

(** X8 -- translation options.  [_generate_translation_options] never
    raises, whatever the list of words (empty, or all equal): it returns
    exactly four options, the correct translation and three distractors in
    some order.  With at least three words that differ from the correct one
    every distractor is the translation of such a word; otherwise the
    distractors are three different words of the stand-in list casa, perro,
    libro, computador. *)
Theorem translation_options_shape :
  forall (correct_word : VocabularyItem) (all_words : list VocabularyItem)
         (g : Rand.rng),
    let other_words :=
      filter (fun w => negb (VocabularyItem_eqb w correct_word)) all_words in
    exists options g' distractors,
      _generate_translation_options correct_word all_words g = Ok (options, g') /\
      List.length options = 4 /\
      In (spanish_translation correct_word) options /\
      Permutation options (spanish_translation correct_word :: distractors) /\
      (3 <= List.length other_words ->
       forall d, In d distractors ->
                 exists w, In w all_words /\ w <> correct_word /\
                           spanish_translation w = d) /\
      (List.length other_words < 3 ->
       NoDup distractors /\ incl distractors generic_translations).
Proof.
  intros correct_word all_words g other_words.
  rewrite translation_options_unfold.
  destruct (generate_options_returns spanish_translation generic_translations
              correct_word all_words ltac:(cbn; lia) g) as (options & g' & E & Ho).
  destruct (options_of_shape _ _ _ _ _ Ho) as [Hlen Hin].
  destruct (options_consequences _ _ _ _ _ generic_translations_NoDup Ho)
    as (distractors & Hp & _ & Hmany & Hfew).
  exists options, g', distractors. repeat (split; [assumption |]). assumption.
Qed.

(** X9 -- usage options.  [_generate_usage_options] never raises: it returns
    exactly four options, the correct English term and three distractors in
    some order -- terms of three words that differ from the correct one when
    there are three, and otherwise three different words of the stand-in list
    house, dog, book, computer. *)
Theorem usage_options_shape :
  forall (correct_word : VocabularyItem) (all_words : list VocabularyItem)
         (g : Rand.rng),
    let other_words :=
      filter (fun w => negb (VocabularyItem_eqb w correct_word)) all_words in
    exists options g' distractors,
      _generate_usage_options correct_word all_words g = Ok (options, g') /\
      List.length options = 4 /\
      In (english_word correct_word) options /\
      Permutation options (english_word correct_word :: distractors) /\
      (3 <= List.length other_words ->
       forall d, In d distractors ->
                 exists w, In w all_words /\ w <> correct_word /\
                           english_word w = d) /\
      (List.length other_words < 3 ->
       NoDup distractors /\ incl distractors generic_words).
Proof.
  intros correct_word all_words g other_words.
  rewrite usage_options_unfold.
  destruct (generate_options_returns english_word generic_words
              correct_word all_words ltac:(cbn; lia) g) as (options & g' & E & Ho).
  destruct (options_of_shape _ _ _ _ _ Ho) as [Hlen Hin].
  destruct (options_consequences _ _ _ _ _ generic_words_NoDup Ho)
    as (distractors & Hp & _ & Hmany & Hfew).
  exists options, g', distractors. repeat (split; [assumption |]). assumption.
Qed.

Lemma question_for_returns (words : list VocabularyItem) (word : VocabularyItem) :
  RandSpec.returns (question_for words word) (question_about words word).
Proof.
  unfold question_for.
  eapply RandFacts.returns_bind;
    [apply (choice_returns question_types); discriminate |].
  intros t Ht. cbn in Ht.
  destruct Ht as [<- | [<- | [<- | []]]]; cbn [String.eqb Ascii.eqb Bool.eqb].
  - eapply RandFacts.returns_bind.
    + rewrite translation_options_unfold.
      apply generate_options_returns. cbn; lia.
    + intros options Ho. apply RandFacts.returns_ret. left. cbn. auto.
  - eapply RandFacts.returns_bind.
    + rewrite usage_options_unfold.
      apply generate_options_returns. cbn; lia.
    + intros options Ho. apply RandFacts.returns_ret. right; left. cbn. auto.
  - apply RandFacts.returns_ret. right; right. cbn. auto.
Qed.

(** A loop that appends one computed element per entry. *)
Lemma for_each_collects {A B} (f : A -> Rand.M B) (P : A -> B -> Prop)
      (l : list A) :
  (forall x, In x l -> RandSpec.returns (f x) (P x)) ->
  forall acc,
    RandSpec.returns
      (for_each l (fun x acc => q <- f x ;; Rand.ret (acc ++ [q])) acc)
      (fun res => exists qs, res = acc ++ qs /\ Forall2 P l qs).
Proof.
  induction l as [| x t IH]; intros Hf acc; cbn [for_each].
  - apply RandFacts.returns_ret. exists []. rewrite app_nil_r.
    split; [reflexivity | constructor].
  - apply RandFacts.returns_bind with
      (P := fun acc1 => exists q, P x q /\ acc1 = acc ++ [q]).
    + eapply RandFacts.returns_bind; [apply Hf; left; reflexivity |].
      intros q Hq. apply RandFacts.returns_ret. exists q. auto.
    + intros acc1 (q & Hq & ->).
      eapply RandFacts.returns_weaken.
      * apply IH. intros y Hy. apply Hf. right; exact Hy.
      * cbv beta. intros res (qs & -> & Hqs). exists (q :: qs).
        rewrite <- app_assoc. split; [reflexivity | constructor; assumption].
Qed.

(** X10 -- the knowledge test.  [test_vocabulary_knowledge] never raises,
    whatever the words (none, one, or several equal ones): it returns a test
    stamped with the start time whose [total_questions] is the number of
    words and whose questions are one per word, in the order of the words.
    The question about a word is of one of three kinds: a translation
    question whose correct answer is the word's translation, a usage
    question on the word's blanked example sentence whose correct answer is
    the word's English term, each with four options among which the correct
    answer is, or a synonym question with the fixed answer ["unknown"] and
    the four fixed options. *)
Theorem knowledge_test_shape :
  forall (now_iso : string) (words : list VocabularyItem) (g : Rand.rng),
    exists test g',
      test_vocabulary_knowledge now_iso words g = Ok (test, g') /\
      total_questions test = List.length words /\
      List.length (questions test) = List.length words /\
      start_time test = now_iso /\
      Forall2 (question_about words) words (questions test) /\
      Forall (fun q => List.length (q_options q) = 4 /\
                       (q_type q <> "synonym" ->
                        In (q_correct_answer q) (q_options q)))
             (questions test).
Proof.
  intros now_iso words g. unfold test_vocabulary_knowledge.
  destruct (for_each_collects (question_for words) (question_about words) words
              (fun w _ => question_for_returns words w) [] g)
    as (asked & g' & E & qs & -> & Hqs).
  cbn [app] in *.
  eexists. exists g'. unfold Rand.bind, Rand.ret in *. rewrite E.
  split; [reflexivity |]. cbn [total_questions questions start_time].
  split; [reflexivity |].
  split; [symmetry; eapply Forall2_length, Hqs |].
  split; [reflexivity |]. split; [exact Hqs |].
  clear E. induction Hqs as [| w q ws qs' Hq _ IH]; constructor; [| exact IH].
  destruct Hq as [(Ht & Hc & Ho) | [(Ht & _ & Hc & Ho) | (Ht & _ & Ho)]].
  - destruct (options_of_shape _ _ _ _ _ Ho) as [Hl Hi].
    split; [exact Hl | intros _; rewrite Hc; exact Hi].
  - destruct (options_of_shape _ _ _ _ _ Ho) as [Hl Hi].
    split; [exact Hl | intros _; rewrite Hc; exact Hi].
  - rewrite Ho. split; [reflexivity | congruence].
Qed.

(** ** Spaced repetition *)

Lemma get_category_vocabulary_returns
      (json_loads : string -> result json) (timestamp : nat -> string)
      (all_vocab : list VocabularyItem) (response : result string)
      (category : string) (user_level : option EnglishLevel) (limit : Z) :
  (py_len all_vocab <= sys_maxsize)%Z ->
  (- 2 ^ 63 < limit)%Z ->
  RandSpec.returns
    (get_category_vocabulary json_loads timestamp all_vocab response category
                             user_level limit)
    (fun res => all_vocab <> [] -> selection_bounded all_vocab limit res).
Proof.
  intros Hsize Hlow.
  destruct all_vocab as [| v0 tl] eqn:Ev.
  - destruct (generate_vocabulary_returns json_loads timestamp response category
                                          user_level limit) as [res E].
    intros g. exists res, g. cbn [get_category_vocabulary].
    unfold Rand.lift. rewrite E. split; [reflexivity | congruence].
  - rewrite <- Ev in *.
    assert (Hne : all_vocab <> []) by (rewrite Ev; discriminate).
    eapply RandFacts.returns_weaken;
      [apply get_category_vocabulary_bounded; assumption |].
    intros res [Hin Hlen] _. split; [| exact Hlen].
    eapply incl_tran; [exact Hin |].
    apply (proj1 (level_filter_from_store all_vocab user_level limit)).
Qed.

(** X11 -- spaced repetition.  [get_spaced_repetition_words] never raises
    (the store's answers being Python lists and [count] above [-2^63]): with
    no category listed it chooses among daily_life, work and education, and
    otherwise among the listed ones; what it returns is what
    [get_category_vocabulary] returns for the chosen category without a
    level, so that with a non-empty store answer for that category the
    entries come from that answer and, for a non-negative [count], number at
    most [count]. *)
Theorem spaced_repetition_words_shape :
  forall (json_loads : string -> result json) (timestamp : nat -> string)
         (store : string -> list VocabularyItem)
         (respond : string -> result string)
         (categories : list string) (count : Z) (g : Rand.rng),
    (forall c, (py_len (store c) <= sys_maxsize)%Z) ->
    (- 2 ^ 63 < count)%Z ->
    exists selected_category res g1 g',
      get_spaced_repetition_words json_loads timestamp store respond
                                  categories count g = Ok (res, g') /\
      (categories = [] ->
       In selected_category [ "daily_life"; "work"; "education" ]) /\
      (categories <> [] -> In selected_category categories) /\
      get_category_vocabulary json_loads timestamp (store selected_category)
                              (respond selected_category) selected_category
                              None count g1 = Ok (res, g') /\
      (store selected_category <> [] ->
       (forall w, In w res -> In w (store selected_category)) /\
       ((0 <= count)%Z -> (py_len res <= count)%Z)).
Proof.
  intros json_loads timestamp store respond categories count g Hsize Hlow.
  unfold get_spaced_repetition_words.
  set (effective := match categories with
                    | [] => [ "daily_life"; "work"; "education" ]
                    | _ :: _ => categories
                    end).
  assert (Hne : effective <> [])
    by (unfold effective; destruct categories; discriminate).
  destruct (choice_returns effective Hne g) as (c & g1 & Ec & Hc).
  destruct (get_category_vocabulary_returns json_loads timestamp (store c)
              (respond c) c None count (Hsize c) Hlow g1)
    as (res & g' & E & Hres).
  exists c, res, g1, g'. unfold Rand.bind. rewrite Ec.
  split; [exact E |].
  split; [intros ->; exact Hc |].
  split; [intros Hcat; unfold effective in Hc; destruct categories;
          [congruence | exact Hc] |].
  split; [exact E | exact Hres].
Qed.

Lemma spaced_repetition_words_shape_witness :
  exists selected_category res g1 g',
    get_spaced_repetition_words Examples.reject_all Examples.frozen_clock
                                (fun _ => Examples.ten_pool) (fun _ => Ok "{}")
                                [] 3 [2; 1; 1] = Ok (res, g') /\
    (@nil string = [] ->
     In selected_category [ "daily_life"; "work"; "education" ]) /\
    (@nil string <> [] -> In selected_category []) /\
    get_category_vocabulary Examples.reject_all Examples.frozen_clock
                            Examples.ten_pool (Ok "{}") selected_category
                            None 3 g1 = Ok (res, g') /\
    (Examples.ten_pool <> [] ->
     (forall w, In w res -> In w Examples.ten_pool) /\
     ((0 <= 3)%Z -> (py_len res <= 3)%Z)).
Proof.
  apply (spaced_repetition_words_shape Examples.reject_all Examples.frozen_clock
           (fun _ => Examples.ten_pool) (fun _ => Ok "{}") [] 3 [2; 1; 1]).
  - intros c. vm_compute. discriminate.
  - reflexivity.
Defined.

(** ** When the lesson assembly raises *)

(** Either all entries are equal or two of them differ. *)
Lemma all_equal_or_two_differ (vocabulary : list VocabularyItem) :
  (forall a b, In a vocabulary -> In b vocabulary -> a = b) \/
  (exists a b, In a vocabulary /\ In b vocabulary /\ a <> b).
Proof.
  destruct vocabulary as [| h t]; [left; intros a b [] |].
  destruct (forallb (VocabularyItem_eqb h) t) eqn:E.
  - left. rewrite forallb_forall in E.
    assert (Hh : forall a, In a (h :: t) -> a = h).
    { intros a [<- | Ha]; [reflexivity |].
      symmetry. apply VocabularyItem_eqb_eq, E, Ha. }
    intros a b Ha Hb. rewrite (Hh a Ha), (Hh b Hb). reflexivity.
  - right. apply not_true_iff_false in E.
    assert (Hex : exists x, In x t /\ VocabularyItem_eqb h x = false).
    { clear -E. induction t as [| x t IH]; [exfalso; apply E; reflexivity |].
      cbn in E. destruct (VocabularyItem_eqb h x) eqn:Ex.
      - destruct IH as (y & Hy & Ey); [exact E |].
        exists y. split; [right; exact Hy | exact Ey].
      - exists x. split; [left; reflexivity | exact Ex]. }
    destruct Hex as (x & Hx & Ex).
    exists h, x. split; [left; reflexivity |]. split; [right; exact Hx |].
    intros ->. rewrite VocabularyItem_eqb_refl in Ex. discriminate.
Qed.

Lemma lesson_raises_on_equal_entries (vocabulary : list VocabularyItem)
      (user_level : EnglishLevel) (g : Rand.rng) :
  3 <= List.length vocabulary ->
  (forall a b, In a vocabulary -> In b vocabulary -> a = b) ->
  create_vocabulary_lesson vocabulary user_level g = Raise IndexError.
Proof.
  intros H3 Hall.
  pose proof (basic_exercises_raise vocabulary g H3 Hall) as Eb.
  destruct (raise_propagates vocabulary g IndexError Eb) as [Ei Ea].
  destruct vocabulary as [| first tl]; [cbn in H3; lia |].
  cbn [create_vocabulary_lesson]. unfold Rand.bind.
  destruct user_level; [rewrite Eb | rewrite Ei | rewrite Ea]; reflexivity.
Qed.

Lemma lesson_returns (vocabulary : list VocabularyItem)
      (user_level : EnglishLevel) (g : Rand.rng) :
  distractor_available vocabulary ->
  exists r g', create_vocabulary_lesson vocabulary user_level g = Ok (r, g').
Proof.
  intros Hav.
  destruct (exercises_for_level_return vocabulary user_level g Hav)
    as (exercises & g' & E).
  destruct vocabulary as [| first tl]; [eexists; eexists; reflexivity |].
  cbn [create_vocabulary_lesson]. unfold Rand.bind. rewrite E.
  eexists; eexists; reflexivity.
Qed.

(** X12 -- when the lesson assembly raises.  At every level and on every run
    of the generator, [create_vocabulary_lesson] raises if and only if the
    vocabulary has at least three entries that are all equal to one another,
    and the exception is then [IndexError]; in every other case it returns a
    result. *)
Theorem lesson_raises_exactly :
  forall (vocabulary : list VocabularyItem) (user_level : EnglishLevel)
         (g : Rand.rng),
    ((exists e, create_vocabulary_lesson vocabulary user_level g = Raise e) <->
     (3 <= List.length vocabulary /\
      forall a b, In a vocabulary -> In b vocabulary -> a = b)) /\
    (forall e, create_vocabulary_lesson vocabulary user_level g = Raise e ->
               e = IndexError).
Proof.
  intros vocabulary user_level g.
  assert (Hcases :
    (3 <= List.length vocabulary /\
     forall a b, In a vocabulary -> In b vocabulary -> a = b) \/
    distractor_available vocabulary).
  { destruct (Nat.le_gt_cases 3 (List.length vocabulary)) as [H3 | H3];
      [| right; left; exact H3].
    destruct (all_equal_or_two_differ vocabulary) as [Hall | Hdiff];
      [left; split; assumption | right; right; exact Hdiff]. }
  destruct Hcases as [[H3 Hall] | Hav].
  - pose proof (lesson_raises_on_equal_entries vocabulary user_level g H3 Hall) as E.
    split.
    + split; [intros _; split; assumption | intros _; eexists; exact E].
    + intros e E'. congruence.
  - destruct (lesson_returns vocabulary user_level g Hav) as (r & g' & E).
    split.
    + split; [intros [e E']; congruence |].
      intros [H3 Hall]. exfalso.
      pose proof (lesson_raises_on_equal_entries vocabulary user_level g H3 Hall).
      congruence.
    + intros e E'. congruence.
Qed.

Lemma lesson_raises_exactly_witness :
  exists e, create_vocabulary_lesson Examples.triple ADVANCED [5] = Raise e.
Proof.
  apply (proj2 (proj1 (lesson_raises_exactly Examples.triple ADVANCED [5]))).
  split; [cbn; lia |].
  cbn. intros a b Ha Hb.
  repeat (destruct Ha as [<- | Ha]); try contradiction;
    repeat (destruct Hb as [<- | Hb]); try contradiction; reflexivity.
Defined.

(** ** What a lesson carries *)

Section GroupTotals.
Context {V : Type}.

Lemma group_add_total (key : string) (v : V) (groups : list (string * list V)) :
  grouped_total (group_add key v groups) = S (grouped_total groups).
Proof.
  unfold grouped_total.
  induction groups as [| [k vs] rest IH]; cbn [group_add]; [reflexivity |].
  destruct (String.eqb k key); cbn [map snd].
  - rewrite length_app. cbn. lia.
  - change (list_sum (?x :: ?t)) with (x + list_sum t).
    rewrite IH. cbn. lia.
Qed.

Lemma group_by_total (key_of : V -> string) (l : list V) :
  grouped_total (group_by key_of l) = List.length l.
Proof.
  induction l as [| w l IH] using rev_ind; [reflexivity |].
  rewrite group_by_snoc, group_add_total, IH, length_app. cbn. lia.
Qed.

Lemma grouped_total_firstn (n : nat) (groups : list (string * list V)) :
  grouped_total (firstn n groups) <= grouped_total groups /\
  (List.length groups <= n -> grouped_total (firstn n groups) = grouped_total groups).
Proof.
  split.
  - rewrite <- (firstn_skipn n groups) at 2. unfold grouped_total.
    rewrite map_app, list_sum_app. lia.
  - intros H. rewrite firstn_all2 by exact H. reflexivity.
Qed.

Lemma group_by_groups_not_empty (key_of : V -> string) (l : list V) :
  Forall (fun item => 1 <= List.length (snd item)) (group_by key_of l).
Proof.
  rewrite group_by_characterised. apply Forall_forall.
  intros item Hitem. apply in_map_iff in Hitem.
  destruct Hitem as (k & <- & Hk). apply (proj1 (first_seen_In _ _)) in Hk.
  apply in_map_iff in Hk. destruct Hk as (w & <- & Hw).
  unfold group_of. cbn [snd].
  assert (Hin : In w (filter (fun x => String.eqb (key_of x) (key_of w)) l))
    by (apply filter_In; split; [exact Hw | apply String.eqb_refl]).
  destruct (filter _ l); [contradiction | cbn; lia].
Qed.

End GroupTotals.

(** X13 -- what a lesson carries.  Whenever [create_vocabulary_lesson]
    returns a lesson for a vocabulary of [N] entries, the lesson holds the
    vocabulary unchanged and is titled after the category of its first entry;
    every thematic group counts at least one entry, the counts of the groups
    add up to at most [N], and to exactly [N] when the vocabulary has no more
    than three themes. *)
Theorem lesson_contents :
  forall (vocabulary : list VocabularyItem) (user_level : EnglishLevel)
         (g g' : Rand.rng) (lesson : Lesson),
    create_vocabulary_lesson vocabulary user_level g = Ok (LessonDict lesson, g') ->
    let themes :=
      first_seen (map (fun w => _extract_theme (english_word w)) vocabulary) in
    lesson_vocabulary lesson = vocabulary /\
    (exists first rest,
        vocabulary = first :: rest /\
        lesson_title lesson = ("Vocabulario: " ++ category first)%string) /\
    Forall (fun tg => 1 <= tg_count tg) (lesson_thematic_groups lesson) /\
    list_sum (map tg_count (lesson_thematic_groups lesson))
      <= List.length vocabulary /\
    (List.length themes <= 3 ->
     list_sum (map tg_count (lesson_thematic_groups lesson))
       = List.length vocabulary).
Proof.
  intros vocabulary user_level g g' lesson E themes.
  set (groups := group_by (fun word => _extract_theme (english_word word))
                          vocabulary).
  assert (Hlesson :
    lesson_vocabulary lesson = vocabulary /\
    (exists first rest,
        vocabulary = first :: rest /\
        lesson_title lesson = ("Vocabulario: " ++ category first)%string) /\
    lesson_thematic_groups lesson =
      map (fun item : string * list VocabularyItem =>
             {| tg_theme := fst item;
                tg_words := map english_word (firstn 3 (snd item));
                tg_count := List.length (snd item) |})
          (firstn 3 groups)).
  { unfold groups. clear groups themes.
    destruct vocabulary as [| first tl]; [cbn in E; discriminate |].
    cbn [create_vocabulary_lesson] in E. unfold Rand.bind in E.
    set (built := match user_level with
                  | BASIC => _create_basic_exercises (first :: tl)
                  | INTERMEDIATE => _create_intermediate_exercises (first :: tl)
                  | ADVANCED => _create_advanced_exercises (first :: tl)
                  end g) in E.
    destruct built as [[es g1] | e]; [| discriminate].
    injection E as <- _. cbn [lesson_vocabulary lesson_title lesson_thematic_groups].
    split; [reflexivity |]. split; [| reflexivity].
    exists first, tl. split; reflexivity. }
  destruct Hlesson as (Hv & Ht & Hg).
  split; [exact Hv |].
  split; [exact Ht |].
  assert (Hsum : list_sum (map tg_count (lesson_thematic_groups lesson)) =
                 grouped_total (firstn 3 groups)).
  { rewrite Hg, map_map. reflexivity. }
  destruct (grouped_total_firstn 3 groups) as [Hle Heq].
  pose proof (group_by_total (fun word => _extract_theme (english_word word))
                             vocabulary) as Htot.
  fold groups in Htot.
  split; [| split].
  - rewrite Hg. apply Forall_forall. intros tg Htg. apply in_map_iff in Htg.
    destruct Htg as (item & <- & Hitem). cbn [tg_count].
    apply firstn_In in Hitem.
    pose proof (group_by_groups_not_empty
                  (fun word => _extract_theme (english_word word)) vocabulary) as Hne.
    rewrite Forall_forall in Hne. apply (Hne item Hitem).
  - lia.
  - intros Hthemes. rewrite Hsum, Heq, Htot; [reflexivity |].
    unfold groups. rewrite group_by_characterised, length_map. exact Hthemes.
Qed.

Lemma lesson_contents_witness :
  exists lesson g',
    create_vocabulary_lesson Examples.small_pool BASIC [1; 1; 1] =
      Ok (LessonDict lesson, g') /\
    lesson_vocabulary lesson = Examples.small_pool /\
    list_sum (map tg_count (lesson_thematic_groups lesson)) <= 3.
Proof.
  assert (E : exists lesson g',
             create_vocabulary_lesson Examples.small_pool BASIC [1; 1; 1] =
             Ok (LessonDict lesson, g'))
    by (vm_compute; eexists; eexists; reflexivity).
  destruct E as (lesson & g' & E). exists lesson, g'.
  split; [exact E |].
  pose proof (lesson_contents Examples.small_pool BASIC [1; 1; 1] g' lesson E)
    as (Hv & _ & _ & Hsum & _).
  split; [exact Hv | exact Hsum].
Defined.

(** ** From the store to the lesson *)

Lemma selection_exact (vocabulary : list VocabularyItem) (limit : Z) :
  (0 < limit)%Z ->
  NoDup (map id vocabulary) ->
  (py_len vocabulary <= sys_maxsize)%Z ->
  RandSpec.returns
    (_intelligent_selection vocabulary limit)
    (fun res =>
       List.length res = Nat.min (Z.to_nat limit) (List.length vocabulary) /\
       NoDup (map id res) /\ incl res vocabulary).
Proof.
  intros Hpos Hnd Hsize.
  destruct (Z.le_gt_cases (py_len vocabulary) limit) as [Hle | Hgt].
  - unfold _intelligent_selection.
    destruct (Z.leb_spec (py_len vocabulary) limit); [| lia].
    apply RandFacts.returns_ret. unfold py_len in Hle.
    split; [lia |]. split; [exact Hnd | apply incl_refl].
  - eapply RandFacts.returns_weaken;
      [apply weighted_selection_returns; assumption |].
    intros res (Hlen & Hres & Hin). unfold py_len in Hgt.
    split; [lia |]. split; assumption.
Qed.

Lemma level_filter_reaches (all_vocab : list VocabularyItem)
      (user_level : option EnglishLevel) (limit : Z) :
  (0 < limit)%Z ->
  Nat.min (Z.to_nat limit) (List.length all_vocab)
  <= List.length (level_filter all_vocab user_level limit).
Proof.
  intros Hpos. unfold level_filter. destruct user_level as [level |]; [| lia].
  pose proof (filter_length (fun v => EnglishLevel_eqb (complexity v) level)
                            all_vocab) as Hsplit.
  set (matching := filter (fun v => EnglishLevel_eqb (complexity v) level) all_vocab) in *.
  set (others := filter (fun v => negb (EnglishLevel_eqb (complexity v) level)) all_vocab) in *.
  unfold py_len.
  destruct (Z.ltb_spec (Z.of_nat (List.length matching)) limit) as [Hlt | Hge];
    [| lia].
  rewrite slice_to_nonneg by lia.
  rewrite length_app, length_firstn, (Permutation_length (sort_by_perm _ others)).
  lia.
Qed.

(** Pairwise distinct ids leave the distractor draw a candidate. *)
Lemma distinct_ids_distractor_available (vocabulary : list VocabularyItem) :
  NoDup (map id vocabulary) -> distractor_available vocabulary.
Proof.
  intros Hnd. destruct vocabulary as [| a [| b tl]]; [left; cbn; lia .. |].
  right. exists a, b. split; [left; reflexivity |].
  split; [right; left; reflexivity |].
  intros ->. inversion Hnd as [| ? ? Hnotin _]; subst.
  apply Hnotin. left; reflexivity.
Qed.

(** X14 -- from the store to the lesson.  When the store's answer for a
    category is a non-empty Python list with pairwise distinct ids and
    [limit > 0], [get_category_vocabulary] (with a level or without) returns
    exactly [min(limit, len(answer))] entries of the answer, with pairwise
    distinct ids; and [create_vocabulary_lesson] on what it returned never
    raises and never yields the error dict: it returns a lesson that holds
    exactly these entries. *)
Theorem store_to_lesson :
  forall (json_loads : string -> result json) (timestamp : nat -> string)
         (all_vocab : list VocabularyItem) (response : result string)
         (requested : string) (user_level : option EnglishLevel)
         (lesson_level : EnglishLevel) (limit : Z) (g : Rand.rng),
    all_vocab <> [] ->
    NoDup (map id all_vocab) ->
    (py_len all_vocab <= sys_maxsize)%Z ->
    (0 < limit)%Z ->
    exists vocabulary g1 lesson g2,
      get_category_vocabulary json_loads timestamp all_vocab response requested
                              user_level limit g = Ok (vocabulary, g1) /\
      List.length vocabulary = Nat.min (Z.to_nat limit) (List.length all_vocab) /\
      NoDup (map id vocabulary) /\
      (forall w, In w vocabulary -> In w all_vocab) /\
      create_vocabulary_lesson vocabulary lesson_level g1 =
        Ok (LessonDict lesson, g2) /\
      lesson_vocabulary lesson = vocabulary.
Proof.
  intros json_loads timestamp all_vocab response requested user_level
         lesson_level limit g Hne Hnd Hsize Hpos.
  destruct (level_filter_from_store all_vocab user_level limit)
    as (Hincl & Hlen & Hids).
  pose proof (level_filter_reaches all_vocab user_level limit Hpos) as Hreach.
  rewrite get_category_vocabulary_stored by exact Hne.
  destruct (selection_exact (level_filter all_vocab user_level limit) limit
              Hpos (Hids Hnd) ltac:(unfold py_len in *; lia) g)
    as (vocabulary & g1 & E & Hl & Hn & Hi).
  assert (Hcount : List.length vocabulary =
                   Nat.min (Z.to_nat limit) (List.length all_vocab)) by lia.
  assert (Hsome : vocabulary <> []).
  { intros ->. cbn in Hcount. destruct all_vocab; [congruence | cbn in Hcount; lia]. }
  destruct (lesson_returns vocabulary lesson_level g1
              (distinct_ids_distractor_available vocabulary Hn))
    as (r & g2 & Er).
  assert (Hr : exists lesson, r = LessonDict lesson /\
                              lesson_vocabulary lesson = vocabulary).
  { destruct vocabulary as [| first tl]; [congruence |].
    cbn [create_vocabulary_lesson] in Er. unfold Rand.bind in Er.
    set (built := match lesson_level with
                  | BASIC => _create_basic_exercises (first :: tl)
                  | INTERMEDIATE => _create_intermediate_exercises (first :: tl)
                  | ADVANCED => _create_advanced_exercises (first :: tl)
                  end g1) in Er.
    destruct built as [[es g3] | e]; [| discriminate].
    injection Er as <- _. eexists. split; reflexivity. }
  destruct Hr as (lesson & -> & Hv).
  exists vocabulary, g1, lesson, g2.
  split; [exact E |]. split; [exact Hcount |]. split; [exact Hn |].
  split; [intros w Hw; apply Hincl, Hi, Hw |]. split; [exact Er | exact Hv].
Qed.

Lemma store_to_lesson_witness :
  exists vocabulary g1 lesson g2,
    get_category_vocabulary Examples.reject_all Examples.frozen_clock
                            Examples.ten_pool (Ok "{}") "daily_life"
                            (Some BASIC) 5 [2; 2; 2] = Ok (vocabulary, g1) /\
    List.length vocabulary = 5 /\
    NoDup (map id vocabulary) /\
    (forall w, In w vocabulary -> In w Examples.ten_pool) /\
    create_vocabulary_lesson vocabulary BASIC g1 = Ok (LessonDict lesson, g2) /\
    lesson_vocabulary lesson = vocabulary.
Proof.
  apply (store_to_lesson Examples.reject_all Examples.frozen_clock
           Examples.ten_pool (Ok "{}") "daily_life" (Some BASIC) BASIC 5
           [2; 2; 2]).
  - discriminate.
  - cbn. repeat constructor; cbn; intuition discriminate.
  - vm_compute. discriminate.
  - reflexivity.
Defined.

(** ** The selection leads with the lowest level *)

Lemma dict_get_group_of {V} (key_of : V -> string) (l : list V) (k : string)
      (ks : list string) :
  dict_get k (map (group_of key_of l) ks) =
  if in_dec string_dec k ks
  then Some (filter (fun w => String.eqb (key_of w) k) l)
  else None.
Proof.
  induction ks as [| k0 ks IH]; [reflexivity |].
  cbn [map dict_get]. unfold group_of at 1.
  destruct (String.eqb_spec k0 k) as [-> | Hne].
  - destruct (in_dec string_dec k (k :: ks)) as [_ | Hn]; [reflexivity |].
    exfalso. apply Hn. left; reflexivity.
  - rewrite IH.
    destruct (in_dec string_dec k ks) as [Hin | Hnin];
      destruct (in_dec string_dec k (k0 :: ks)) as [Hin' | Hnin'];
      try reflexivity.
    + exfalso. apply Hnin'. right; exact Hin.
    + exfalso. destruct Hin' as [E | Hin']; [congruence | exact (Hnin Hin')].
Qed.

(** Looking a key up in a grouping dict: the entries of that key, when there
    are any. *)
Lemma dict_get_group_by {V} (key_of : V -> string) (l : list V) (k : string) :
  (In k (map key_of l) ->
   dict_get k (group_by key_of l) =
   Some (filter (fun w => String.eqb (key_of w) k) l)) /\
  (~ In k (map key_of l) -> dict_get k (group_by key_of l) = None).
Proof.
  rewrite group_by_characterised, dict_get_group_of.
  destruct (in_dec string_dec k (first_seen (map key_of l))) as [Hin | Hnin].
  - split; [reflexivity |]. intros Hn. exfalso.
    apply Hn. apply (proj1 (first_seen_In _ _)), Hin.
  - split; [| reflexivity]. intros Hi. exfalso.
    apply Hnin. apply (proj2 (first_seen_In _ _)), Hi.
Qed.

Lemma level_value_injective (a b : EnglishLevel) :
  level_value a = level_value b -> a = b.
Proof. destruct a, b; cbn; intros E; try reflexivity; discriminate. Qed.

Lemma extend_sample_appends (vocabulary selected group_words : list VocabularyItem)
      (quota : result Z) :
  from_pool vocabulary selected -> from_pool vocabulary group_words ->
  (exists q, quota = Ok q) ->
  RandSpec.returns
    (extend_sample selected group_words quota)
    (fun s' =>
       from_pool vocabulary s' /\
       exists drawn,
         s' = selected ++ drawn /\ incl drawn group_words /\
         (group_words <> [] -> drawn <> [])).
Proof.
  intros Hs Hg [q ->]. unfold extend_sample.
  eapply RandFacts.returns_bind; [apply (RandFacts.returns_lift _ q eq_refl) |].
  intros q' ->.
  eapply RandFacts.returns_bind.
  - apply RandFacts.sample_returns. unfold py_len. lia.
  - intros drawn Hd. apply RandFacts.returns_ret.
    pose proof (RandFacts.drawn_from_incl _ _ _ Hd) as Hin.
    split; [apply incl_app; [exact Hs | eapply incl_tran; eassumption] |].
    exists drawn. split; [reflexivity |]. split; [exact Hin |].
    intros Hne ->. destruct Hd as [Hl _]. cbn in Hl.
    destruct group_words; [congruence |].
    unfold py_len in Hl. cbn [List.length] in Hl. lia.
Qed.

Lemma lowest_first_app (vocabulary l t : list VocabularyItem) :
  lowest_first vocabulary l -> lowest_first vocabulary (l ++ t).
Proof.
  intros (w & rest & -> & Hw & Hlow). exists w, (rest ++ t). auto.
Qed.

Section LeadingEntry.

Variable vocabulary : list VocabularyItem.
Variable limit : Z.
Hypothesis limit_range : (- 2 ^ 63 < limit < 2 ^ 63)%Z.

Lemma complexity_round_returns (c : EnglishLevel)
      (selected : list VocabularyItem) :
  from_pool vocabulary selected ->
  RandSpec.returns
    (match dict_get (level_value c)
                    (group_by (fun word => level_value (complexity word))
                              vocabulary) with
     | Some group_words =>
         extend_sample selected group_words
                       (PyFloat.int_scaled limit PyFloat.f0_3)
     | None => Rand.ret selected
     end)
    (complexity_round vocabulary c selected).
Proof.
  intros Hsel.
  destruct (dict_get_group_by (fun word => level_value (complexity word))
                              vocabulary (level_value c)) as [Hpresent Habsent].
  assert (Hkey : In (level_value c)
                    (map (fun word => level_value (complexity word)) vocabulary)
                 <-> exists v, In v vocabulary /\ complexity v = c).
  { rewrite in_map_iff. split.
    - intros (v & E & Hv). exists v. split; [exact Hv |].
      apply level_value_injective, E.
    - intros (v & Hv & E). exists v. split; [rewrite E; reflexivity | exact Hv]. }
  destruct (in_dec string_dec (level_value c)
                   (map (fun word => level_value (complexity word)) vocabulary))
    as [Hin | Hnin].
  - rewrite (Hpresent Hin).
    set (group_words :=
           filter (fun w => String.eqb (level_value (complexity w)) (level_value c))
                  vocabulary).
    assert (Hgroup : forall w, In w group_words ->
                               In w vocabulary /\ complexity w = c).
    { intros w Hw. apply filter_In in Hw. destruct Hw as [Hw E].
      split; [exact Hw |]. apply level_value_injective, String.eqb_eq, E. }
    assert (Hne : group_words <> []).
    { apply Hkey in Hin. destruct Hin as (v & Hv & E).
      assert (In v group_words)
        by (apply filter_In; split; [exact Hv | rewrite E; apply String.eqb_refl]).
      intros Hnil. rewrite Hnil in H. exact H. }
    eapply RandFacts.returns_weaken.
    + apply (extend_sample_appends vocabulary); [exact Hsel | |].
      * intros w Hw. apply Hgroup, Hw.
      * apply PyFloatFacts.int_scaled_returns; [exact limit_range | left; reflexivity].
    + cbv beta. intros s' (Hs' & drawn & -> & Hdrawn & Hsome).
      split; [exact Hs' |]. exists drawn. split; [reflexivity |]. split.
      * intros _. destruct drawn as [| w rest]; [exfalso; apply (Hsome Hne); reflexivity |].
        exists w, rest. split; [reflexivity |].
        destruct (Hgroup w (Hdrawn w (or_introl eq_refl))) as [Hw Hc]. auto.
      * intros Hnone. exfalso. apply Hkey in Hin. destruct Hin as (v & Hv & E).
        exact (Hnone v Hv E).
  - rewrite (Habsent Hnin). apply RandFacts.returns_ret.
    split; [exact Hsel |]. exists []. rewrite app_nil_r.
    split; [reflexivity |]. split; [| reflexivity].
    intros Hex. exfalso. apply Hnin, Hkey, Hex.
Qed.

Hypothesis pool_not_empty : vocabulary <> [].

(** After the three rounds the list begins with the lowest level present. *)
Lemma complexity_pass_leads :
  RandSpec.returns
    (for_each ["basic"; "intermediate"; "advanced"]
       (fun comp selected =>
          match dict_get comp
                  (group_by (fun word => level_value (complexity word))
                            vocabulary) with
          | Some group_words =>
              extend_sample selected group_words
                            (PyFloat.int_scaled limit PyFloat.f0_3)
          | None => Rand.ret selected
          end) [])
    (fun selected => from_pool vocabulary selected /\
                     lowest_first vocabulary selected).
Proof.
  cbn [for_each].
  eapply RandFacts.returns_bind;
    [apply (complexity_round_returns BASIC []); intros w [] |].
  intros s1 (Hs1 & d1 & -> & Hb1 & Hn1). cbn [app] in *.
  eapply RandFacts.returns_bind;
    [apply (complexity_round_returns INTERMEDIATE d1); exact Hs1 |].
  intros s2 (Hs2 & d2 & -> & Hb2 & Hn2).
  eapply RandFacts.returns_bind;
    [apply (complexity_round_returns ADVANCED (d1 ++ d2)); exact Hs2 |].
  intros s3 (Hs3 & d3 & -> & Hb3 & Hn3).
  apply RandFacts.returns_ret. split; [exact Hs3 |].
  assert (Hrank : forall v, level_rank v =
                            match complexity v with
                            | BASIC => 0 | INTERMEDIATE => 1 | ADVANCED => 2
                            end%Z)
    by (intros v; unfold level_rank; destruct (complexity v); reflexivity).
  assert (Hdec : forall c, (exists v, In v vocabulary /\ complexity v = c) \/
                           (forall v, In v vocabulary -> complexity v <> c)).
  { intros c.
    destruct (existsb (fun v => EnglishLevel_eqb (complexity v) c) vocabulary) eqn:E.
    - left. apply existsb_exists in E. destruct E as (v & Hv & E).
      exists v. split; [exact Hv | apply EnglishLevel_eqb_eq, E].
    - right. intros v Hv Hc.
      assert (existsb (fun v => EnglishLevel_eqb (complexity v) c) vocabulary = true).
      { apply existsb_exists. exists v. split; [exact Hv |].
        apply EnglishLevel_eqb_eq, Hc. }
      congruence. }
  destruct (Hdec BASIC) as [Hb | Hnb].
  - destruct (Hb1 Hb) as (w & rest & -> & Hc & Hw).
    exists w, ((rest ++ d2) ++ d3). split; [reflexivity |]. split; [exact Hw |].
    intros v _. rewrite (Hrank w), (Hrank v), Hc. destruct (complexity v); lia.
  - rewrite (Hn1 Hnb) in *. cbn [app] in *.
    destruct (Hdec INTERMEDIATE) as [Hi | Hni].
    + destruct (Hb2 Hi) as (w & rest & -> & Hc & Hw).
      exists w, (rest ++ d3). split; [reflexivity |]. split; [exact Hw |].
      intros v Hv. rewrite (Hrank w), (Hrank v), Hc.
      pose proof (Hnb v Hv). destruct (complexity v); try lia. congruence.
    + rewrite (Hn2 Hni) in *. cbn [app] in *.
      assert (Ha : exists v, In v vocabulary /\ complexity v = ADVANCED).
      { destruct vocabulary as [| v tl]; [congruence |].
        exists v. split; [left; reflexivity |].
        pose proof (Hnb v (or_introl eq_refl)).
        pose proof (Hni v (or_introl eq_refl)).
        destruct (complexity v); congruence. }
      destruct (Hb3 Ha) as (w & rest & -> & Hc & Hw).
      exists w, rest. split; [reflexivity |]. split; [exact Hw |].
      intros v Hv. rewrite (Hrank w), (Hrank v), Hc.
      pose proof (Hnb v Hv). pose proof (Hni v Hv).
      destruct (complexity v); try lia; congruence.
Qed.

End LeadingEntry.

Lemma extend_sample_keeps_lead (vocabulary selected group_words : list VocabularyItem)
      (quota : result Z) :
  from_pool vocabulary selected /\ lowest_first vocabulary selected ->
  from_pool vocabulary group_words ->
  (exists q, quota = Ok q) ->
  RandSpec.returns
    (extend_sample selected group_words quota)
    (fun s' => from_pool vocabulary s' /\ lowest_first vocabulary s').
Proof.
  intros [Hs Hl] Hg Hq.
  eapply RandFacts.returns_weaken;
    [apply (extend_sample_appends vocabulary); assumption |].
  cbv beta. intros s' (Hs' & drawn & -> & _).
  split; [exact Hs' | apply lowest_first_app, Hl].
Qed.

(** The de-duplication loop only ever appends to what it has collected. *)
Lemma dedupe_extends (selected : list VocabularyItem) :
  forall unique_selected seen_ids,
    exists more,
      fst (dedupe selected unique_selected seen_ids) = unique_selected ++ more.
Proof.
  induction selected as [| word rest IH]; intros u seen; cbn [dedupe].
  - exists []. rewrite app_nil_r. reflexivity.
  - destruct (PyStr.mem (id word) seen); [apply IH |].
    destruct (IH (u ++ [word]) (id word :: seen)) as [more E].
    exists (word :: more). rewrite E, <- app_assoc. reflexivity.
Qed.

Lemma dedupe_keeps_lead (vocabulary selected : list VocabularyItem) :
  lowest_first vocabulary selected ->
  lowest_first vocabulary (fst (dedupe selected [] [])).
Proof.
  intros (w & rest & -> & Hw & Hlow). cbn [dedupe PyStr.mem existsb app].
  destruct (dedupe_extends rest [w] [id w]) as [more E].
  rewrite E. exists w, more. auto.
Qed.

Lemma selection_leads_with_lowest (vocabulary : list VocabularyItem) (limit : Z) :
  (0 < limit)%Z ->
  (limit < py_len vocabulary)%Z ->
  (py_len vocabulary <= sys_maxsize)%Z ->
  RandSpec.returns (_intelligent_selection vocabulary limit)
                   (lowest_first vocabulary).
Proof.
  intros Hpos Hgt Hsize. unfold _intelligent_selection.
  destruct (Z.leb_spec (py_len vocabulary) limit) as [Hle | _]; [lia |].
  assert (Hrange : (- 2 ^ 63 < limit < 2 ^ 63)%Z)
    by (unfold sys_maxsize in Hsize; lia).
  assert (Hne : vocabulary <> []).
  { intros E. rewrite E in Hgt. cbn in Hgt. lia. }
  set (led := fun s => from_pool vocabulary s /\ lowest_first vocabulary s).
  apply RandFacts.returns_bind with (P := led).
  { apply complexity_pass_leads; assumption. }
  intros selected1 Hsel1.
  apply RandFacts.returns_bind with (P := led).
  { apply RandFacts.returns_for_each; [| exact Hsel1].
    intros item selected Hitem Hsel.
    destruct (snd item) as [| g0 gtl] eqn:Eitem;
      [apply RandFacts.returns_ret, Hsel |].
    rewrite <- Eitem. apply firstn_In in Hitem.
    apply extend_sample_keeps_lead; [exact Hsel | |].
    - apply (group_by_members _ _ _ Hitem).
    - apply PyFloatFacts.int_scaled_div_returns;
        [exact Hrange | left; reflexivity | apply thematic_groups_count, Hne]. }
  intros selected2 Hsel2.
  apply RandFacts.returns_bind with (P := led).
  { destruct (filter _ vocabulary) as [| p0 ptl] eqn:Ep;
      [apply RandFacts.returns_ret, Hsel2 |].
    rewrite <- Ep.
    apply extend_sample_keeps_lead; [exact Hsel2 | apply filter_from_pool |].
    apply PyFloatFacts.int_scaled_returns; [exact Hrange | right; reflexivity]. }
  intros selected3 Hsel3.
  apply RandFacts.returns_bind with (P := led).
  { destruct (filter _ vocabulary) as [| p0 ptl] eqn:Ep;
      [apply RandFacts.returns_ret, Hsel3 |].
    rewrite <- Ep.
    apply extend_sample_keeps_lead; [exact Hsel3 | apply filter_from_pool |].
    apply PyFloatFacts.int_scaled_returns; [exact Hrange | right; reflexivity]. }
  intros selected4 [Hsel4 Hlead4].
  pose proof (dedupe_keeps_lead vocabulary selected4 Hlead4) as Hu.
  destruct (dedupe selected4 [] []) as [u seen]. cbn [fst] in Hu.
  apply RandFacts.returns_bind with (P := lowest_first vocabulary).
  - destruct (Z.ltb_spec (py_len u) limit) as [Hlt | _];
      [| apply RandFacts.returns_ret, Hu].
    cbv zeta.
    destruct (filter _ vocabulary) as [| r0 rtl] eqn:Erem;
      [apply RandFacts.returns_ret, Hu |].
    rewrite <- Erem.
    eapply RandFacts.returns_bind;
      [apply RandFacts.sample_returns; unfold py_len in *; lia |].
    intros drawn _. apply RandFacts.returns_ret. apply lowest_first_app, Hu.
  - intros l (w & rest & -> & Hw & Hlow). apply RandFacts.returns_ret.
    unfold slice_to. destruct (Z.ltb_spec limit 0); [lia |].
    destruct (Z.to_nat limit) as [| n] eqn:En; [lia |].
    cbn [firstn]. exists w, (firstn n rest). auto.
Qed.

(** X15 -- the selection leads with the lowest level.  Whenever the pool (a
    Python list) holds more than [limit > 0] entries, the list
    [_intelligent_selection] returns begins, on every run of the generator,
    with an entry of the lowest complexity level found in the pool: the
    lowest level present is always represented in the selection. *)
Theorem intelligent_selection_leads_with_lowest :
  forall (vocabulary : list VocabularyItem) (limit : Z) (g : Rand.rng),
    (0 < limit)%Z ->
    (limit < py_len vocabulary)%Z ->
    (py_len vocabulary <= sys_maxsize)%Z ->
    exists first rest g',
      _intelligent_selection vocabulary limit g = Ok (first :: rest, g') /\
      In first vocabulary /\
      forall v, In v vocabulary -> (level_rank first <= level_rank v)%Z.
Proof.
  intros vocabulary limit g Hpos Hgt Hsize.
  destruct (selection_leads_with_lowest vocabulary limit Hpos Hgt Hsize g)
    as (res & g' & E & first & rest & -> & Hin & Hlow).
  exists first, rest, g'. auto.
Qed.

Lemma intelligent_selection_leads_with_lowest_witness :
  exists first rest g',
    _intelligent_selection Examples.ten_pool 2 [9; 9; 9; 9; 9; 9; 9] =
      Ok (first :: rest, g') /\
    In first Examples.ten_pool /\
    forall v, In v Examples.ten_pool -> (level_rank first <= level_rank v)%Z.
Proof.
  apply (intelligent_selection_leads_with_lowest Examples.ten_pool 2
           [9; 9; 9; 9; 9; 9; 9]).
  - reflexivity.
  - reflexivity.
  - vm_compute. discriminate.
Defined.

(* ===================================================================== *)
(** * The spreadsheet store *)
(* ===================================================================== *)

Module SheetsFacts.
Import Sheets SheetsSpec.

(** ** The tables *)

Lemma dict_get_set_same {V} (key : string) (v : V) (d : list (string * V)) :
  dict_get key (dict_set key v d) = Some v.
Proof.
  induction d as [| [k old] rest IH]; cbn.
  - rewrite String.eqb_refl. reflexivity.
  - destruct (String.eqb k key) eqn:E; cbn; rewrite E; [reflexivity | exact IH].
Qed.

Lemma dict_get_set_other {V} (key other : string) (v : V)
      (d : list (string * V)) :
  key <> other -> dict_get other (dict_set key v d) = dict_get other d.
Proof.
  intros Hne. induction d as [| [k old] rest IH]; cbn.
  - destruct (String.eqb_spec key other); [contradiction | reflexivity].
  - destruct (String.eqb_spec k key) as [-> | Hk]; cbn.
    + destruct (String.eqb_spec key other); [contradiction | reflexivity].
    + destruct (String.eqb_spec k other); [reflexivity | exact IH].
Qed.

(** ** The cache keys *)

Lemma lacks_not_app (c : ascii) (a x : string) :
  ~ lacks c (a ++ String c x)%string.
Proof.
  induction a as [| a0 a IH]; cbn; intros [H1 H2]; [congruence | auto].
Qed.

Lemma last_separator (c : ascii) (a b x y : string) :
  lacks c x -> lacks c y ->
  (a ++ String c x)%string = (b ++ String c y)%string -> a = b /\ x = y.
Proof.
  intros Hx Hy. revert b.
  induction a as [| a0 a IH]; intros [| b0 b] E; cbn in E.
  - injection E as E. auto.
  - injection E as _ E. subst x. destruct (lacks_not_app _ _ _ Hx).
  - injection E as _ E. subst y. destruct (lacks_not_app _ _ _ Hy).
  - injection E as E0 E. destruct (IH _ E) as [-> ->]. subst. auto.
Qed.

Lemma vocabulary_key_injective (category category' : string)
      (level level' : option EnglishLevel) :
  vocabulary_key category level = vocabulary_key category' level' ->
  category = category' /\ level = level'.
Proof.
  unfold vocabulary_key. intros E.
  apply (append_cancel_l "vocab_") in E.
  apply (last_separator "_"%char) in E.
  - destruct E as [-> E]. split; [reflexivity |].
    destruct level as [[| |] |], level' as [[| |] |];
      try reflexivity; discriminate.
  - destruct level as [[| |] |]; cbn; intuition discriminate.
  - destruct level' as [[| |] |]; cbn; intuition discriminate.
Qed.

Lemma vocabulary_key_not_categories (category : string)
      (level : option EnglishLevel) :
  vocabulary_key category level <> "categories".
Proof. unfold vocabulary_key. cbn. discriminate. Qed.

(** ** One row *)

Lemma examine_valid (category : string) (level : option EnglishLevel)
      (r : record) (item : VocabularyItem) :
  vocabulary_item r = Ok item ->
  examine category level r =
  Ok (if row_matches category level r then Some item else None).
Proof.
  intros Hitem. unfold examine, row_matches.
  assert (Hcat : exists name, record_get r "category" (Text "") = Text name).
  { unfold vocabulary_item in Hitem.
    destruct (level_of_cell _); cbn in Hitem; [| discriminate].
    destruct (str_field (record_get r "id" _)); cbn in Hitem; [| discriminate].
    destruct (record_get r "category" (Text "")); cbn in Hitem;
      try discriminate. eexists; reflexivity. }
  destruct Hcat as (name & Hcat). rewrite Hcat. cbn.
  destruct (String.eqb (PyStr.lower name) (PyStr.lower category)); cbn;
    [| reflexivity].
  destruct level as [l |]; cbn; [| rewrite Hitem; reflexivity].
  assert (Hlevel : exists c, record_get r "complexity" (Text "") = Text c).
  { unfold vocabulary_item in Hitem. unfold record_get in *.
    destruct (record_find r "complexity") as [[c | n | x] |];
      cbn in Hitem; try discriminate; eexists; reflexivity. }
  destruct Hlevel as (c & Hlevel). rewrite Hlevel. cbn.
  destruct (String.eqb (PyStr.lower c) (level_value l)); cbn;
    [rewrite Hitem |]; reflexivity.
Qed.

Lemma level_of_cell_text (c : cell) (l : EnglishLevel) :
  level_of_cell c = Ok l -> c = Text (level_value l).
Proof.
  destruct c as [s | n | x]; cbn; try discriminate.
  destruct (String.eqb_spec s "basic") as [-> | _];
    [intros [= <-]; reflexivity |].
  destruct (String.eqb_spec s "intermediate") as [-> | _];
    [intros [= <-]; reflexivity |].
  destruct (String.eqb_spec s "advanced") as [-> | _];
    [intros [= <-]; reflexivity | discriminate].
Qed.

Lemma vocabulary_item_fields (r : record) (item : VocabularyItem) :
  vocabulary_item r = Ok item ->
  record_get r "category" (Text "") = Text (category item) /\
  record_get r "complexity" (Text "basic") = Text (level_value (complexity item)) /\
  record_get r "id" (Text "") = Text (id item) /\
  record_get r "english_word" (Text "") = Text (english_word item).
Proof.
  unfold vocabulary_item. intros H.
  destruct (level_of_cell _) as [l |] eqn:El; cbn in H; [| discriminate].
  apply level_of_cell_text in El.
  destruct (record_get r "id" _) as [i | |]; cbn in H; try discriminate.
  destruct (record_get r "category" _) as [c | |]; cbn in H; try discriminate.
  destruct (record_get r "english_word" _) as [e | |]; cbn in H;
    try discriminate.
  destruct (str_field (record_get r "spanish_translation" _)); cbn in H;
    [| discriminate].
  destruct (str_field (record_get r "example_sentence" _)); cbn in H;
    [| discriminate].
  destruct (optional_str_field _); cbn in H; [| discriminate].
  injection H as <-. cbn. auto.
Qed.

Lemma examine_fits (category : string) (level : option EnglishLevel)
      (r : record) (item : VocabularyItem) :
  examine category level r = Ok (Some item) ->
  vocabulary_item r = Ok item /\ fits category level item /\
  row_matches category level r = true.
Proof.
  unfold examine, row_matches. intros H.
  destruct (record_get r "category" (Text "")) as [name | |] eqn:Ecat;
    cbn in H; try discriminate.
  destruct (String.eqb_spec (PyStr.lower name) (PyStr.lower category))
    as [Ename | _]; [| discriminate].
  assert (Hkeep : vocabulary_item r = Ok item /\
                  match level with
                  | Some l =>
                      exists c, record_get r "complexity" (Text "") = Text c /\
                                PyStr.lower c = level_value l
                  | None => True
                  end).
  { destruct level as [l |]; cbn in H.
    - destruct (record_get r "complexity" (Text "")) as [c | |] eqn:Ec;
        cbn in H; try discriminate.
      destruct (String.eqb_spec (PyStr.lower c) (level_value l)) as [El | _];
        cbn in H; [| discriminate].
      destruct (vocabulary_item r); cbn in H; [| discriminate].
      injection H as ->. split; [reflexivity |]. exists c. auto.
    - destruct (vocabulary_item r); cbn in H; [| discriminate].
      injection H as ->. auto. }
  destruct Hkeep as [Hitem Hlevel]. split; [exact Hitem |].
  destruct (vocabulary_item_fields _ _ Hitem) as (Fcat & Flevel & _).
  rewrite Ecat in Fcat. injection Fcat as ->.
  split; [split; [exact Ename |] |].
  - destruct level as [l |]; [| exact I].
    destruct Hlevel as (c & Ec & El).
    unfold record_get in Ec, Flevel.
    destruct (record_find r "complexity") as [found |].
    + subst found. injection Flevel as ->.
      destruct (complexity item), l; cbn in El; congruence.
    + injection Ec as <-. destruct l; discriminate.
  - cbn. destruct level as [l |]; [| reflexivity].
    destruct Hlevel as (c & -> & ->). apply String.eqb_refl.
Qed.

Lemma examine_spoiled (category : string) (level : option EnglishLevel)
      (r : record) :
  spoils category level r -> exists e, examine category level r = Raise e.
Proof.
  unfold spoils, examine, row_matches.
  intros [Hnum | [(Hcat & Hlevel & Hnum) | (Hmatch & e & Hitem)]].
  - destruct (record_get r "category" (Text "")); [destruct Hnum | ..];
      eexists; reflexivity.
  - destruct (record_get r "category" (Text "")) as [name | |];
      try discriminate. cbn.
    rewrite andb_true_r in Hcat. rewrite Hcat.
    destruct level as [l |]; [| congruence]. cbn.
    destruct (record_get r "complexity" (Text "")); [destruct Hnum | ..];
      eexists; reflexivity.
  - destruct (record_get r "category" (Text "")) as [name | |];
      try discriminate. cbn.
    apply andb_true_iff in Hmatch. destruct Hmatch as [-> Hlevel].
    destruct level as [l |]; cbn.
    + destruct (record_get r "complexity" (Text "")) as [c | |];
        try discriminate. cbn. rewrite Hlevel. cbn. rewrite Hitem.
      eexists; reflexivity.
    + rewrite Hitem. eexists; reflexivity.
Qed.

(** ** The loop *)

Section Loop.

Variable category : string.
Variable level : option EnglishLevel.
Variable limit : Z.

Lemma reading_cap_pos : 1 <= reading_cap limit.
Proof. unfold reading_cap. lia. Qed.

(** At the head of the loop the list is empty or shorter than [limit]. *)
Lemma collect_valid (records : list record) :
  Forall valid_row records ->
  forall vocabulary,
    List.length vocabulary < reading_cap limit ->
    exists items,
      built_from
        (firstn (reading_cap limit - List.length vocabulary)
                (filter (row_matches category level) records)) items /\
      collect category level limit records vocabulary = Ok (vocabulary ++ items).
Proof.
  induction 1 as [| r rest (item & Hitem) _ IH]; intros vocabulary Hlen.
  - exists []. cbn. rewrite firstn_nil, app_nil_r. split; [constructor | reflexivity].
  - cbn [collect filter]. rewrite (examine_valid _ _ _ _ Hitem). cbn [result_bind].
    destruct (row_matches category level r); [| apply IH, Hlen].
    unfold py_len. rewrite length_app. cbn [List.length].
    destruct (Z.leb_spec limit (Z.of_nat (List.length vocabulary + 1))) as [Hstop | Hgo].
    + exists [item].
      assert (E : reading_cap limit - List.length vocabulary = 1)
        by (unfold reading_cap in *; lia).
      rewrite E. cbn. split; [| reflexivity].
      constructor; [exact Hitem | constructor].
    + destruct (IH (vocabulary ++ [item])) as (items & Hbuilt & E).
      { rewrite length_app. cbn. unfold reading_cap in *. lia. }
      exists (item :: items). rewrite E, <- app_assoc. split; [| reflexivity].
      rewrite length_app in Hbuilt. cbn [List.length] in Hbuilt.
      replace (reading_cap limit - List.length vocabulary)
        with (S (reading_cap limit - (List.length vocabulary + 1))) by lia.
      cbn [firstn]. constructor; assumption.
Qed.

(** Whatever the rows, what the loop appends answers the request, and the
    loop does not run past [limit]. *)
Lemma collect_sound (records : list record) :
  forall vocabulary found,
    collect category level limit records vocabulary = Ok found ->
    List.length vocabulary < reading_cap limit ->
    exists items,
      found = vocabulary ++ items /\
      Forall (fits category level) items /\
      List.length found <= reading_cap limit.
Proof.
  induction records as [| r rest IH]; intros vocabulary found H Hlen;
    cbn [collect] in H.
  - injection H as <-. exists []. rewrite app_nil_r.
    split; [reflexivity | split; [constructor | lia]].
  - destruct (examine category level r) as [[item |] |] eqn:Er;
      cbn [result_bind] in H; [| apply IH; assumption | discriminate].
    apply examine_fits in Er. destruct Er as (_ & Hfit & _).
    unfold py_len in H. rewrite length_app in H. cbn [List.length] in H.
    destruct (Z.leb_spec limit (Z.of_nat (List.length vocabulary + 1))) as [Hstop | Hgo].
    + injection H as <-. exists [item].
      split; [reflexivity | split; [constructor; [exact Hfit | constructor] |]].
      rewrite length_app. cbn. lia.
    + apply IH in H; [| rewrite length_app; cbn; unfold reading_cap in *; lia].
      destruct H as (items & -> & Hfits & Hbound).
      exists (item :: items). rewrite <- app_assoc in *.
      split; [reflexivity | split; [constructor; assumption | exact Hbound]].
Qed.

(** A row at which the loop raises, met before the loop has stopped. *)
Lemma collect_spoiled (before after : list record) (r : record) :
  Forall valid_row before ->
  spoils category level r ->
  forall vocabulary,
    List.length vocabulary +
    List.length (filter (row_matches category level) before) < reading_cap limit ->
    exists e,
      collect category level limit (before ++ r :: after) vocabulary = Raise e.
Proof.
  intros Hvalid Hspoil.
  induction Hvalid as [| r0 rest (item & Hitem) _ IH]; intros vocabulary Hlen.
  - cbn [app collect]. destruct (examine_spoiled _ _ _ Hspoil) as (e & ->).
    exists e. reflexivity.
  - cbn [app collect filter] in *.
    rewrite (examine_valid _ _ _ _ Hitem). cbn [result_bind].
    destruct (row_matches category level r0); [| apply IH, Hlen].
    cbn [List.length] in Hlen.
    unfold py_len. rewrite length_app. cbn [List.length].
    destruct (Z.leb_spec limit (Z.of_nat (List.length vocabulary + 1)));
      [unfold reading_cap in *; lia |].
    apply IH. rewrite length_app. cbn. lia.
Qed.

End Loop.

(** ** The call *)

Lemma read_stores (self : GoogleSheetsClient) (w : access) (category : string)
      (level : option EnglishLevel) (limit : Z) (records : list record)
      (found : list VocabularyItem) :
  misses_vocabulary self w category level ->
  rows w = Ok records ->
  collect category level limit records [] = Ok found ->
  storable w ->
  let vocabulary :=
    match level with
    | Some _ => found
    | None => sort_by complexity_key found
    end in
  get_vocabulary_by_category self w category level limit =
  (vocabulary,
   mkClient (dict_set (vocabulary_key category level) vocabulary
                      (vocabulary_cache self))
            (categories_cache self)
            (dict_set (vocabulary_key category level)
                      (stored w + CACHE_DURATION)%Z (_cache_expiry self))).
Proof.
  intros Hmiss Hrows Hfound Hstore. unfold get_vocabulary_by_category.
  rewrite Hrows. cbn [result_bind]. rewrite Hfound.
  unfold datetime_add. unfold storable in Hstore.
  destruct (Z.leb_spec (stored w + CACHE_DURATION) datetime_max); [| lia].
  destruct Hmiss as [-> | Hinvalid]; [reflexivity |].
  rewrite Hinvalid. destruct (dict_get _ (vocabulary_cache self)); reflexivity.
Qed.

Lemma read_fails (self : GoogleSheetsClient) (w : access) (category : string)
      (level : option EnglishLevel) (limit : Z) (e : exn) :
  misses_vocabulary self w category level ->
  (records <- rows w ;; collect category level limit records [])%result = Raise e ->
  get_vocabulary_by_category self w category level limit = ([], self).
Proof.
  intros Hmiss Hfail. unfold get_vocabulary_by_category. rewrite Hfail.
  destruct Hmiss as [-> | Hinvalid]; [reflexivity |].
  rewrite Hinvalid. destruct (dict_get _ (vocabulary_cache self)); reflexivity.
Qed.

Lemma read_spoiled (self : GoogleSheetsClient) (w : access) (category : string)
      (level : option EnglishLevel) (limit : Z) :
  misses_vocabulary self w category level ->
  spoiled_reading category level limit (rows w) ->
  get_vocabulary_by_category self w category level limit = ([], self).
Proof.
  intros Hmiss Hspoiled. unfold spoiled_reading in Hspoiled.
  destruct (rows w) as [records | e] eqn:Hrows.
  - destruct Hspoiled as (before & r & after & -> & Hvalid & Hlen & Hspoil).
    destruct (collect_spoiled category level limit before after r
                Hvalid Hspoil [] Hlen) as (e & He).
    apply (read_fails _ _ _ _ _ e Hmiss). rewrite Hrows. exact He.
  - apply (read_fails _ _ _ _ _ e Hmiss). rewrite Hrows. reflexivity.
Qed.

(** A stored answer is served while the clock reads less than its expiry. *)
Lemma stored_answer_served (entries : list (string * list VocabularyItem))
      (names : option (list string)) (expiries : list (string * Z))
      (w : access) (category : string) (level : option EnglishLevel)
      (limit expiry : Z) (held : list VocabularyItem) :
  dict_get (vocabulary_key category level) entries = Some held ->
  dict_get (vocabulary_key category level) expiries = Some expiry ->
  (checked w < expiry)%Z ->
  get_vocabulary_by_category (mkClient entries names expiries) w
                             category level limit =
  (held, mkClient entries names expiries).
Proof.
  intros Hheld Hexpiry Hnow. unfold get_vocabulary_by_category, _is_cache_valid.
  cbn [vocabulary_cache _cache_expiry]. rewrite Hheld, Hexpiry.
  destruct (Z.ltb_spec (checked w) expiry); [reflexivity | lia].
Qed.


(** ** What the cache holds *)

Lemma cache_sound_set (cap : Z) (self : GoogleSheetsClient)
      (category : string) (level : option EnglishLevel)
      (vocabulary : list VocabularyItem) (names : option (list string))
      (expiries : list (string * Z)) :
  cache_sound cap self ->
  Forall (fits category level) vocabulary ->
  (py_len vocabulary <= Z.max cap 1)%Z ->
  cache_sound cap
    (mkClient (dict_set (vocabulary_key category level) vocabulary
                        (vocabulary_cache self)) names expiries).
Proof.
  intros Hsound Hfits Hlen category' level' held. cbn [vocabulary_cache].
  destruct (string_dec (vocabulary_key category level)
                       (vocabulary_key category' level')) as [E | Hne].
  - rewrite <- E, dict_get_set_same. intros [= <-].
    apply vocabulary_key_injective in E. destruct E as [<- <-]. auto.
  - rewrite (dict_get_set_other _ _ _ _ Hne). apply Hsound.
Qed.

Lemma answer_sound (cap : Z) (self : GoogleSheetsClient) (w : access)
      (category : string) (level : option EnglishLevel) (limit : Z) :
  cache_sound cap self -> (limit <= cap)%Z ->
  Forall (fits category level)
         (fst (get_vocabulary_by_category self w category level limit)) /\
  (py_len (fst (get_vocabulary_by_category self w category level limit))
   <= Z.max cap 1)%Z /\
  cache_sound cap (snd (get_vocabulary_by_category self w category level limit)).
Proof.
  intros Hsound Hcap. unfold get_vocabulary_by_category.
  assert (Hempty : Forall (fits category level) [] /\
                   (py_len (@nil VocabularyItem) <= Z.max cap 1)%Z).
  { split; [constructor | cbn; lia]. }
  set (held := match dict_get _ (vocabulary_cache self) with
               | Some _ => _ | None => _ end).
  assert (Hheld : forall l, held = Some l ->
                            Forall (fits category level) l /\
                            (py_len l <= Z.max cap 1)%Z).
  { intros l. unfold held.
    destruct (dict_get _ (vocabulary_cache self)) as [cached |] eqn:E;
      [| discriminate].
    destruct (_is_cache_valid _ _ _); [| discriminate].
    intros [= <-]. apply (Hsound _ _ _ E). }
  destruct held as [l |].
  { cbn [fst snd]. destruct (Hheld l eq_refl). auto. }
  destruct (result_bind (rows w) _) as [found | e] eqn:Hread;
    [| cbn [fst snd]; tauto].
  assert (Hfound : Forall (fits category level) found /\
                   (py_len found <= Z.max cap 1)%Z).
  { destruct (rows w) as [records |]; cbn [result_bind] in Hread;
      [| discriminate].
    apply collect_sound in Hread; [| apply reading_cap_pos].
    destruct Hread as (items & -> & Hfits & Hlen). cbn [app] in *.
    split; [exact Hfits |]. unfold py_len, reading_cap in *. lia. }
  set (vocabulary := match level with Some _ => found | None => _ end).
  assert (Hvocabulary : Forall (fits category level) vocabulary /\
                        (py_len vocabulary <= Z.max cap 1)%Z).
  { unfold vocabulary. destruct level; [exact Hfound |].
    destruct Hfound as [Hfits Hlen]. split.
    - apply Forall_forall. intros x Hx. rewrite Forall_forall in Hfits.
      apply Hfits. eapply Permutation_in; [apply sort_by_perm | exact Hx].
    - unfold py_len in *. rewrite (Permutation_length (sort_by_perm _ _)).
      exact Hlen. }
  destruct Hvocabulary as [Hfits Hlen].
  destruct (datetime_add (stored w) CACHE_DURATION); cbn [fst snd];
    (split; [| split]); try tauto;
    cbn [vocabulary_cache categories_cache _cache_expiry];
    apply cache_sound_set; assumption.
Qed.

Lemma categories_keep_vocabulary (self : GoogleSheetsClient) (w : access) :
  vocabulary_cache (snd (get_categories self w)) = vocabulary_cache self.
Proof.
  unfold get_categories.
  destruct (match categories_cache self with Some _ => _ | None => _ end);
    [reflexivity |].
  destruct (result_bind (rows w) _); [| reflexivity].
  destruct (datetime_add _ _); reflexivity.
Qed.

Lemma reachable_sound (cap : Z) (self : GoogleSheetsClient) :
  reachable cap self -> cache_sound cap self.
Proof.
  induction 1 as [| self w category level limit _ IH Hcap _ _ | self w _ IH _
                  | self _ _].
  - intros category level held. discriminate.
  - apply (answer_sound cap self w category level limit IH Hcap).
  - intros category level held. rewrite categories_keep_vocabulary. apply IH.
  - intros category level held. discriminate.
Qed.

(** ** One request and another *)

Lemma answer_of_entry (s1 s2 : GoogleSheetsClient) (w : access)
      (category : string) (level : option EnglishLevel) (limit : Z) :
  dict_get (vocabulary_key category level) (vocabulary_cache s1) =
  dict_get (vocabulary_key category level) (vocabulary_cache s2) ->
  dict_get (vocabulary_key category level) (_cache_expiry s1) =
  dict_get (vocabulary_key category level) (_cache_expiry s2) ->
  fst (get_vocabulary_by_category s1 w category level limit) =
  fst (get_vocabulary_by_category s2 w category level limit).
Proof.
  intros Hentry Hexpiry. unfold get_vocabulary_by_category, _is_cache_valid.
  rewrite Hentry, Hexpiry.
  destruct (match dict_get _ (vocabulary_cache s2) with
            | Some _ => _ | None => _ end); [reflexivity |].
  destruct (result_bind (rows w) _); [| reflexivity].
  destruct (datetime_add _ _); reflexivity.
Qed.

Lemma names_of_entry (s1 s2 : GoogleSheetsClient) (w : access) :
  categories_cache s1 = categories_cache s2 ->
  dict_get "categories" (_cache_expiry s1) =
  dict_get "categories" (_cache_expiry s2) ->
  fst (get_categories s1 w) = fst (get_categories s2 w).
Proof.
  intros Hentry Hexpiry. unfold get_categories, _is_cache_valid.
  rewrite Hentry, Hexpiry.
  destruct (match categories_cache s2 with Some _ => _ | None => _ end);
    [reflexivity |].
  destruct (result_bind (rows w) _); [| reflexivity].
  destruct (datetime_add _ _); reflexivity.
Qed.

Lemma entries_after_vocabulary (self : GoogleSheetsClient) (w : access)
      (category : string) (level : option EnglishLevel) (limit : Z)
      (other : string) :
  vocabulary_key category level <> other ->
  let after := snd (get_vocabulary_by_category self w category level limit) in
  dict_get other (vocabulary_cache after) = dict_get other (vocabulary_cache self) /\
  dict_get other (_cache_expiry after) = dict_get other (_cache_expiry self) /\
  categories_cache after = categories_cache self.
Proof.
  intros Hne. cbv zeta. unfold get_vocabulary_by_category.
  destruct (match dict_get _ (vocabulary_cache self) with
            | Some _ => _ | None => _ end); [auto |].
  destruct (result_bind (rows w) _); [| auto].
  destruct (datetime_add _ _);
    cbn [snd vocabulary_cache categories_cache _cache_expiry];
    rewrite ?(dict_get_set_other _ _ _ _ Hne); auto.
Qed.

Lemma entries_after_categories (self : GoogleSheetsClient) (w : access)
      (other : string) :
  "categories" <> other ->
  dict_get other (_cache_expiry (snd (get_categories self w))) =
  dict_get other (_cache_expiry self).
Proof.
  intros Hne. unfold get_categories.
  destruct (match categories_cache self with Some _ => _ | None => _ end);
    [reflexivity |].
  destruct (result_bind (rows w) _); [| reflexivity].
  destruct (datetime_add _ _); cbn [snd _cache_expiry];
    rewrite ?(dict_get_set_other _ _ _ _ Hne); reflexivity.
Qed.

(** ** The categories *)

Lemma insert_sorted_perm (x : string) (l : list string) :
  Permutation (insert_sorted x l) (x :: l).
Proof.
  induction l as [| y t IH]; cbn; [reflexivity |].
  destruct (String.leb x y); [reflexivity |].
  rewrite IH. apply perm_swap.
Qed.

Lemma sorted_perm (l : list string) : Permutation (sorted l) l.
Proof.
  induction l as [| x t IH]; cbn; [reflexivity |].
  rewrite insert_sorted_perm. constructor. exact IH.
Qed.

Lemma insert_sorted_ordered (x : string) (l : list string) :
  Sorted (fun a b => String.leb a b = true) l ->
  Sorted (fun a b => String.leb a b = true) (insert_sorted x l).
Proof.
  induction 1 as [| y t Hs IH Hhd]; cbn.
  - repeat constructor.
  - destruct (String.leb x y) eqn:E.
    + constructor; [constructor; assumption | constructor; exact E].
    + assert (Hyx : String.leb y x = true).
      { destruct (String.leb_total x y) as [H | H]; [congruence | exact H]. }
      constructor; [exact IH |].
      destruct t as [| z t']; cbn; [constructor; exact Hyx |].
      destruct (String.leb x z); constructor; [exact Hyx |].
      inversion Hhd; assumption.
Qed.

Lemma sorted_ordered (l : list string) :
  Sorted (fun a b => String.leb a b = true) (sorted l).
Proof.
  induction l as [| x t IH]; cbn; [constructor |].
  apply insert_sorted_ordered, IH.
Qed.

Lemma ordered_distinct_ascending (l : list string) :
  Sorted (fun a b => String.leb a b = true) l -> NoDup l -> ascending l.
Proof.
  unfold ascending. induction 1 as [| x t Hs IH Hhd]; intros Hnd;
    [constructor |].
  inversion Hnd as [| ? ? Hnotin Hnd']; subst.
  constructor; [apply IH, Hnd' |].
  destruct Hhd as [| y t' Hle]; constructor.
  unfold String.leb in Hle. unfold String.ltb.
  destruct (String.compare x y) eqn:E; [| reflexivity | discriminate].
  apply String.compare_eq_iff in E. subst. destruct Hnotin. left. reflexivity.
Qed.

Lemma category_names_spec (records : list record) :
  Forall (fun r => ~ is_number (record_get r "category" (Text ""))) records ->
  forall categories,
    NoDup categories ->
    ~ In EmptyString categories ->
    exists names,
      category_names records categories = Ok names /\
      NoDup names /\
      forall name, In name names <-> In name categories \/ named_in records name.
Proof.
  induction 1 as [| r rest Hr _ IH]; intros categories Hnd Hne.
  - exists categories. split; [reflexivity | split; [exact Hnd |]].
    intros name. split; [auto |].
    intros [H | (_ & r & s & [] & _)]. exact H.
  - cbn [category_names].
    destruct (record_get r "category" (Text "")) as [s | |] eqn:Ecell;
      try (destruct Hr; exact I).
    cbn [cell_strip result_bind].
    set (next := match strip s with EmptyString => _ | String _ _ => _ end).
    assert (Hnext : NoDup next /\ ~ In EmptyString next /\
                    forall name, In name next <->
                                 In name categories \/
                                 (name <> EmptyString /\ strip s = name)).
    { unfold next. destruct (strip s) as [| c t] eqn:Es.
      - split; [exact Hnd | split; [exact Hne |]].
        intros name. split; [auto |]. intros [H | [H1 H2]]; [exact H |].
        congruence.
      - destruct (PyStr.mem (String c t) categories) eqn:Em.
        + apply mem_In in Em. split; [exact Hnd | split; [exact Hne |]].
          intros name. split; [auto |]. intros [H | [_ <-]]; assumption.
        + assert (Hnotin : ~ In (String c t) categories).
          { intros H. apply mem_In in H. congruence. }
          split; [| split].
          * apply NoDup_app; [exact Hnd | repeat constructor; intros [] |].
            intros x Hx [<- | []]. exact (Hnotin Hx).
          * rewrite in_app_iff. intros [H | [H | []]];
              [exact (Hne H) | discriminate].
          * intros name. rewrite in_app_iff. cbn. split.
            -- intros [H | [<- | []]]; [auto |]. right. split;
                 [discriminate | reflexivity].
            -- intros [H | [_ <-]]; auto. }
    destruct Hnext as (Hnd' & Hne' & Hin).
    destruct (IH next Hnd' Hne') as (names & E & Hnames & Hspec).
    exists names. split; [exact E | split; [exact Hnames |]].
    intros name. rewrite Hspec, Hin. unfold named_in. split.
    + intros [[H | [H1 H2]] | (H1 & r' & s' & H2 & H3 & H4)].
      * auto.
      * right. split; [exact H1 |]. exists r, s. cbn. auto.
      * right. split; [exact H1 |]. exists r', s'. cbn. auto.
    + intros [H | (H1 & r' & s' & [<- | H2] & H3 & H4)].
      * auto.
      * left. right. rewrite Ecell in H3. injection H3 as <-. auto.
      * right. split; [exact H1 |]. exists r', s'. auto.
Qed.

Lemma category_names_raise (records : list record) :
  Exists (fun r => is_number (record_get r "category" (Text ""))) records ->
  forall categories, exists e, category_names records categories = Raise e.
Proof.
  induction 1 as [r rest Hr | r rest _ IH]; intros categories;
    cbn [category_names].
  - destruct (record_get r "category" (Text "")); [destruct Hr | ..];
      eexists; reflexivity.
  - destruct (cell_strip _) as [name | e]; cbn [result_bind];
      [apply IH | eexists; reflexivity].
Qed.

Lemma names_stored (self : GoogleSheetsClient) (w : access)
      (records : list record) (names : list string) :
  misses_categories self w ->
  rows w = Ok records ->
  category_names records [] = Ok names ->
  storable w ->
  get_categories self w =
  (sorted names,
   mkClient (vocabulary_cache self) (Some (sorted names))
            (dict_set "categories" (stored w + CACHE_DURATION)%Z
                      (_cache_expiry self))).
Proof.
  intros Hmiss Hrows Hnames Hstore. unfold get_categories.
  rewrite Hrows. cbn [result_bind]. rewrite Hnames.
  unfold datetime_add. unfold storable in Hstore.
  destruct (Z.leb_spec (stored w + CACHE_DURATION) datetime_max); [| lia].
  destruct Hmiss as [-> | Hinvalid]; [reflexivity |].
  rewrite Hinvalid. destruct (categories_cache self); reflexivity.
Qed.

Lemma names_fail (self : GoogleSheetsClient) (w : access) :
  misses_categories self w ->
  unreadable_categories (rows w) ->
  get_categories self w = (default_categories, self).
Proof.
  intros Hmiss Hbad. unfold get_categories.
  assert (Hread : exists e,
             (records <- rows w ;; category_names records [])%result = Raise e).
  { unfold unreadable_categories in Hbad.
    destruct (rows w) as [records | e]; cbn [result_bind];
      [apply category_names_raise, Hbad | eexists; reflexivity]. }
  destruct Hread as (e & ->).
  destruct Hmiss as [-> | Hinvalid]; [reflexivity |].
  rewrite Hinvalid. destruct (categories_cache self); reflexivity.
Qed.

End SheetsFacts.

(* ===================================================================== *)
(** ** [get_vocabulary_by_category] *)
(* ===================================================================== *)

Import Sheets SheetsSpec SheetsFacts.

(** X16 -- a fresh reading.  For an ASCII category and a sheet whose rows
    are all valid entries with ASCII categories (text on which the lowering
    of the model is that of Python): when the client holds no usable answer,
    the reading answers with the first matching rows, in the order of the
    sheet, as many as [limit] allows and one at least; without a level they
    are then put in the order of the levels, rows of one level keeping their
    order. *)
Theorem fresh_read_takes_first_matches :
  forall (self : GoogleSheetsClient) (w : access) (category : string)
         (level : option EnglishLevel) (limit : Z) (records : list record),
    is_ascii category = true ->
    misses_vocabulary self w category level ->
    rows w = Ok records ->
    Forall ascii_row records ->
    Forall valid_row records ->
    storable w ->
    exists items,
      built_from (rows_read category level limit records) items /\
      fst (get_vocabulary_by_category self w category level limit) =
        match level with
        | Some _ => items
        | None => sort_by complexity_key items
        end /\
      StronglySorted (fun a b => (complexity_key a <= complexity_key b)%Z)
                     (sort_by complexity_key items) /\
      Permutation (sort_by complexity_key items) items.
Proof.
  intros self w category level limit records _ Hmiss Hrows _ Hvalid Hstore.
  destruct (collect_valid category level limit records Hvalid [])
    as (items & Hbuilt & Hfound).
  { apply reading_cap_pos. }
  exists items. cbn [List.length app] in *. rewrite Nat.sub_0_r in Hbuilt.
  split; [exact Hbuilt |].
  rewrite (read_stores _ _ _ _ _ _ _ Hmiss Hrows Hfound Hstore).
  split; [reflexivity |].
  split; [apply sort_by_sorted | apply sort_by_perm].
Qed.

Lemma fresh_read_takes_first_matches_witness :
  exists items,
    built_from (rows_read "WORK" None 0 SheetFixtures.sheet) items /\
    fst (get_vocabulary_by_category new_client
           (SheetFixtures.reading 0 SheetFixtures.sheet) "WORK" None 0) =
      sort_by complexity_key items /\
    StronglySorted (fun a b => (complexity_key a <= complexity_key b)%Z)
                   (sort_by complexity_key items) /\
    Permutation (sort_by complexity_key items) items.
Proof.
  apply (fresh_read_takes_first_matches new_client
           (SheetFixtures.reading 0 SheetFixtures.sheet) "WORK" None 0
           SheetFixtures.sheet).
  - reflexivity.
  - left. reflexivity.
  - reflexivity.
  - repeat constructor.
  - repeat constructor; eexists; reflexivity.
  - unfold storable. cbn. unfold CACHE_DURATION, datetime_max. lia.
Defined.





(** X19 -- answers fit the request.  Where the categories asked for and the
    categories and complexities of the sheets read are ASCII text (on which
    the lowering of the model is that of Python): whatever calls came
    before, every entry of an answer is about the requested category,
    whatever the case of the letters, and of the requested level; and while
    no call asked for more than [cap] entries, no answer holds more than
    [cap] (one, for a smaller [cap]). *)
Theorem store_answers_fit_request :
  forall (cap : Z) (self : GoogleSheetsClient) (w : access)
         (category : string) (level : option EnglishLevel) (limit : Z),
    reachable cap self ->
    is_ascii category = true ->
    ascii_sheet w ->
    (limit <= cap)%Z ->
    let answer := fst (get_vocabulary_by_category self w category level limit) in
    Forall (fits category level) answer /\
    (py_len answer <= Z.max cap 1)%Z.
Proof.
  intros cap self w category level limit Hreach _ _ Hcap answer.
  destruct (answer_sound cap self w category level limit
              (reachable_sound _ _ Hreach) Hcap) as (Hfits & Hlen & _).
  split; assumption.
Qed.

Lemma store_answers_fit_request_witness :
  let self :=
    snd (get_vocabulary_by_category new_client
           (SheetFixtures.reading 0 SheetFixtures.sheet) "Work" None 100) in
  let answer :=
    fst (get_vocabulary_by_category self (SheetFixtures.failing 7)
                                    "Work" None 1) in
  Forall (fits "Work" None) answer /\ (py_len answer <= Z.max 100 1)%Z.
Proof.
  apply (store_answers_fit_request 100).
  - apply reach_vocabulary;
      [apply reach_new | lia | reflexivity | repeat constructor].
  - reflexivity.
  - exact I.
  - lia.
Defined.

(** X20 -- requests do not interfere.  The answer to one request does not
    depend on the calls made for other requests, nor on calls of
    [get_categories], and the other way round; requests that differ in the
    case of a letter are different requests. *)
Theorem other_requests_unaffected :
  forall (self : GoogleSheetsClient) (w later : access)
         (category category' : string) (level level' : option EnglishLevel)
         (limit limit' : Z),
    (category, level) <> (category', level') ->
    let after :=
      snd (get_vocabulary_by_category self w category level limit) in
    fst (get_vocabulary_by_category after later category' level' limit') =
    fst (get_vocabulary_by_category self later category' level' limit') /\
    fst (get_categories after later) = fst (get_categories self later) /\
    fst (get_vocabulary_by_category (snd (get_categories self w)) later
                                    category' level' limit') =
    fst (get_vocabulary_by_category self later category' level' limit').
Proof.
  intros self w later category category' level level' limit limit' Hne after.
  assert (Hkey : vocabulary_key category level <> vocabulary_key category' level').
  { intros E. apply vocabulary_key_injective in E. destruct E. congruence. }
  destruct (entries_after_vocabulary self w category level limit _ Hkey)
    as (Hentry & Hexpiry & _).
  destruct (entries_after_vocabulary self w category level limit "categories"
              (vocabulary_key_not_categories _ _)) as (_ & Hnames & Hcache).
  split; [| split].
  - apply answer_of_entry; assumption.
  - apply names_of_entry; assumption.
  - apply answer_of_entry.
    + rewrite categories_keep_vocabulary. reflexivity.
    + apply entries_after_categories. intros E.
      apply (vocabulary_key_not_categories category' level'). auto.
Qed.

Lemma other_requests_unaffected_witness :
  let after :=
    snd (get_vocabulary_by_category new_client
           (SheetFixtures.reading 0 SheetFixtures.sheet) "work" None 5) in
  fst (get_vocabulary_by_category after (SheetFixtures.failing 1)
                                  "Work" None 5) =
  fst (get_vocabulary_by_category new_client (SheetFixtures.failing 1)
                                  "Work" None 5) /\
  fst (get_categories after (SheetFixtures.failing 1)) =
  fst (get_categories new_client (SheetFixtures.failing 1)) /\
  fst (get_vocabulary_by_category
         (snd (get_categories new_client
                 (SheetFixtures.reading 0 SheetFixtures.sheet)))
         (SheetFixtures.failing 1) "Work" None 5) =
  fst (get_vocabulary_by_category new_client (SheetFixtures.failing 1)
                                  "Work" None 5).
Proof.
  apply (other_requests_unaffected new_client
           (SheetFixtures.reading 0 SheetFixtures.sheet)
           (SheetFixtures.failing 1) "work" "Work" None None 5 5).
  discriminate.
Defined.

(* ===================================================================== *)
(** ** [get_categories] *)
(* ===================================================================== *)

(** X21 -- the list of categories.  When the client holds no usable list, a
    reading of a sheet whose categories are all ASCII text (on which the
    stripping of the model is that of Python) answers with the names the
    rows carry, stripped of surrounding white space, each once and in
    strictly ascending order, the empty name left out; and the answer is
    served again for five minutes. *)
Theorem categories_sorted_and_complete :
  forall (self : GoogleSheetsClient) (w : access) (records : list record),
    misses_categories self w ->
    rows w = Ok records ->
    Forall ascii_row records ->
    Forall (fun r => ~ is_number (record_get r "category" (Text ""))) records ->
    storable w ->
    let first := get_categories self w in
    ascending (fst first) /\
    (forall name, In name (fst first) <-> named_in records name) /\
    (forall later : access,
        (checked later < stored w + CACHE_DURATION)%Z ->
        get_categories (snd first) later = first).
Proof.
  intros self w records Hmiss Hrows _ Htext Hstore first.
  destruct (category_names_spec records Htext [])
    as (names & Hnames & Hnd & Hspec); [constructor | intros [] |].
  unfold first. rewrite (names_stored _ _ _ _ Hmiss Hrows Hnames Hstore).
  cbn [fst snd]. split; [| split].
  - apply ordered_distinct_ascending; [apply sorted_ordered |].
    eapply Permutation_NoDup; [symmetry; apply sorted_perm | exact Hnd].
  - intros name. split.
    + intros H. apply (Permutation_in _ (sorted_perm names)) in H.
      apply Hspec in H. destruct H as [[] | H]. exact H.
    + intros H. apply (Permutation_in _ (Permutation_sym (sorted_perm names))).
      apply Hspec. right. exact H.
  - intros later Hnow. unfold get_categories, _is_cache_valid.
    cbn [categories_cache _cache_expiry]. rewrite dict_get_set_same.
    destruct (Z.ltb_spec (checked later) (stored w + CACHE_DURATION));
      [reflexivity | lia].
Qed.

Lemma categories_sorted_and_complete_witness :
  let first :=
    get_categories new_client (SheetFixtures.reading 0 SheetFixtures.sheet) in
  ascending (fst first) /\
  (forall name, In name (fst first) <-> named_in SheetFixtures.sheet name) /\
  (forall later : access,
      (checked later < 0 + CACHE_DURATION)%Z ->
      get_categories (snd first) later = first).
Proof.
  apply (categories_sorted_and_complete new_client
           (SheetFixtures.reading 0 SheetFixtures.sheet) SheetFixtures.sheet).
  - left. reflexivity.
  - reflexivity.
  - repeat constructor.
  - repeat constructor; intros [].
  - unfold storable. cbn. unfold CACHE_DURATION, datetime_max. lia.
Defined.

(** X22 -- categories by default.  When the client holds no usable list and
    the sheet cannot be read, or the category of one row is a number,
    [get_categories] answers with its five built-in names and stores
    nothing. *)
Theorem categories_default_when_unreadable :
  forall (self : GoogleSheetsClient) (w : access),
    misses_categories self w ->
    unreadable_categories (rows w) ->
    get_categories self w =
    ([ "daily_life"; "work"; "education"; "food"; "transport" ], self).
Proof.
  intros self w Hmiss Hbad. unfold get_categories.
  assert (Hread : exists e,
             (records <- rows w ;; category_names records [])%result = Raise e).
  { unfold unreadable_categories in Hbad.
    destruct (rows w) as [records | e]; cbn [result_bind];
      [apply category_names_raise, Hbad | eexists; reflexivity]. }
  destruct Hread as (e & ->).
  destruct Hmiss as [-> | Hinvalid]; [reflexivity |].
  rewrite Hinvalid. destruct (categories_cache self); reflexivity.
Qed.

Lemma categories_default_when_unreadable_witness :
  get_categories new_client
    (SheetFixtures.reading 0
       [ SheetFixtures.row "w1" "work" "boss" "jefe" "My boss." "basic";
         [ ("id", Text "y1"); ("category", Integer 2024) ] ]) =
  ([ "daily_life"; "work"; "education"; "food"; "transport" ], new_client).
Proof.
  apply categories_default_when_unreadable.
  - left. reflexivity.
  - right. left. exact I.
Defined.

(* ===================================================================== *)
(** ** The service on top of the store *)
(* ===================================================================== *)



(** X24 -- what the service returns from the store.  Where the categories
    asked for and the categories and complexities of the sheets read are
    ASCII text (on which the lowering of the model is that of Python):
    whatever calls the application made before (none asking the store for
    more than 100 entries), [get_category_vocabulary] returns normally for
    every limit above [-2^63]; when the store has an answer, every entry
    returned is about the requested category, whatever the case of the
    letters, and for a non-negative limit at most [limit] entries are
    returned. *)
Theorem service_answers_fit_category :
  forall (json_loads : string -> result json) (timestamp : nat -> string)
         (self : GoogleSheetsClient) (w : access) (response : result string)
         (category : string) (user_level : option EnglishLevel) (limit : Z),
    reachable 100 self ->
    is_ascii category = true ->
    ascii_sheet w ->
    (- 2 ^ 63 < limit)%Z ->
    let call :=
      VocabularyService.get_category_vocabulary json_loads timestamp self w
        response category user_level limit in
    reachable 100 (snd call) /\
    forall g,
    exists res g',
      fst call g = Ok (res, g') /\
      (fst (get_vocabulary_by_category self w category None 100) <> [] ->
       Forall (fits category None) res /\
       ((0 <= limit)%Z -> (py_len res <= limit)%Z)).
Proof.
  intros json_loads timestamp self w response category user_level limit
         Hreach Hcategory Hsheet Hlow call.
  unfold call, VocabularyService.get_category_vocabulary.
  destruct (answer_sound 100 self w category None 100
              (reachable_sound _ _ Hreach) ltac:(lia)) as (Hfits & Hlen & _).
  assert (Hafter : reachable 100
                     (snd (get_vocabulary_by_category self w category None 100)))
    by (apply reach_vocabulary; [exact Hreach | lia | exact Hcategory | exact Hsheet]).
  destruct (get_vocabulary_by_category self w category None 100)
    as [all_vocab after].
  cbn [fst snd] in *. split; [exact Hafter |]. intros g.
  destruct (get_category_vocabulary_returns json_loads timestamp all_vocab
              response category user_level limit) with (g := g)
    as (res & g' & E & Hres).
  { unfold sys_maxsize. lia. }
  { exact Hlow. }
  exists res, g'. split; [exact E |]. intros Hne.
  destruct (Hres Hne) as [Hincl Hbound]. split; [| exact Hbound].
  apply Forall_forall. intros x Hx. rewrite Forall_forall in Hfits.
  apply Hfits, Hincl, Hx.
Qed.

Lemma service_answers_fit_category_witness :
  let call :=
    VocabularyService.get_category_vocabulary Examples.reject_all
      Examples.frozen_clock new_client
      (SheetFixtures.reading 0 SheetFixtures.sheet)
      (Ok "{}") "WORK" (Some BASIC) 1 in
  reachable 100 (snd call) /\
  forall g,
  exists res g',
    fst call g = Ok (res, g') /\
    (fst (get_vocabulary_by_category new_client
            (SheetFixtures.reading 0 SheetFixtures.sheet) "WORK" None 100)
     <> [] ->
     Forall (fits "WORK" None) res /\
     ((0 <= 1)%Z -> (py_len res <= 1)%Z)).
Proof.
  apply (service_answers_fit_category Examples.reject_all Examples.frozen_clock
           new_client (SheetFixtures.reading 0 SheetFixtures.sheet)
           (Ok "{}") "WORK" (Some BASIC) 1).
  - apply reach_new.
  - reflexivity.
  - repeat constructor.
  - reflexivity.
Defined.

(** X25 -- spaced repetition during a total outage.  When neither the list
    of categories nor any vocabulary can be read from the sheet, nothing
    usable is cached and the generator is down,
    [get_spaced_repetition_words] does not raise: it chooses one of the five
    built-in names of the store -- daily_life, work, education, food,
    transport, not the three of the service -- and returns the built-in
    fallback vocabulary for it. *)
Theorem spaced_repetition_during_outage :
  forall (json_loads : string -> result json) (timestamp : nat -> string)
         (self : GoogleSheetsClient) (w_categories w_vocabulary : access)
         (respond : string -> result string) (count : Z) (e : exn),
    misses_categories self w_categories ->
    unreadable_categories (rows w_categories) ->
    rows w_vocabulary = Raise e ->
    (forall c, In c default_categories ->
               misses_vocabulary self w_vocabulary c None) ->
    (forall c, exists e', respond c = Raise e') ->
    forall g,
    exists selected_category g',
      In selected_category
         [ "daily_life"; "work"; "education"; "food"; "transport" ] /\
      VocabularyService.get_spaced_repetition_words json_loads timestamp self
        w_categories w_vocabulary respond count g =
      Ok (_get_fallback_vocabulary selected_category None count, g').
Proof.
  intros json_loads timestamp self w_categories w_vocabulary respond count e
         Hmiss Hbad Hrows Hfresh Hdown g.
  unfold VocabularyService.get_spaced_repetition_words.
  rewrite (names_fail _ _ Hmiss Hbad).
  unfold get_spaced_repetition_words.
  destruct (choice_returns default_categories ltac:(discriminate) g)
    as (c & g' & Ec & Hc).
  exists c, g'. split; [exact Hc |].
  unfold default_categories in *. unfold Rand.bind. rewrite Ec.
  rewrite read_spoiled; [| apply Hfresh, Hc | rewrite Hrows; exact I].
  cbn [fst get_category_vocabulary]. destruct (Hdown c) as (e' & Ee).
  rewrite Ee. reflexivity.
Qed.

Lemma spaced_repetition_during_outage_witness :
  exists selected_category g',
    In selected_category
       [ "daily_life"; "work"; "education"; "food"; "transport" ] /\
    VocabularyService.get_spaced_repetition_words Examples.reject_all
      Examples.frozen_clock new_client (SheetFixtures.failing 0)
      (SheetFixtures.failing 1) (fun _ => Raise (ExternalError "timeout"))
      10 [3] =
    Ok (_get_fallback_vocabulary selected_category None 10, g').
Proof.
  apply (spaced_repetition_during_outage Examples.reject_all
           Examples.frozen_clock new_client (SheetFixtures.failing 0)
           (SheetFixtures.failing 1) (fun _ => Raise (ExternalError "timeout"))
           10 (ExternalError "APIError")).
  - left. reflexivity.
  - exact I.
  - reflexivity.
  - intros c _. left. reflexivity.
  - intros c. eexists. reflexivity.
Defined.

(** X27 -- an empty answer is an answer.  For an ASCII category and a sheet
    of valid rows with ASCII categories (on which the lowering of the model
    is that of Python): after a reading that found no row of the category,
    the empty list is what the store holds for it, and for five minutes
    every call of [get_category_vocabulary] for the category goes to the
    generator and returns what [_generate_vocabulary] yields, whatever rows
    the sheet has got in the meantime. *)
Theorem empty_answer_is_cached :
  forall (json_loads : string -> result json) (timestamp : nat -> string)
         (self : GoogleSheetsClient) (w later : access)
         (response response' : result string) (category : string)
         (user_level user_level' : option EnglishLevel) (limit limit' : Z)
         (records : list record),
    is_ascii category = true ->
    misses_vocabulary self w category None ->
    rows w = Ok records ->
    Forall ascii_row records ->
    Forall valid_row records ->
    filter (row_matches category None) records = [] ->
    storable w ->
    (checked later < stored w + CACHE_DURATION)%Z ->
    let after :=
      snd (VocabularyService.get_category_vocabulary json_loads timestamp self
             w response category user_level limit) in
    VocabularyService.get_category_vocabulary json_loads timestamp after later
      response' category user_level' limit' =
    (Rand.lift (_generate_vocabulary json_loads timestamp response' category
                                     user_level' limit'),
     after).
Proof.
  intros json_loads timestamp self w later response response' category
         user_level user_level' limit limit' records
         _ Hmiss Hrows _ Hvalid Hnone Hstore Hnow after.
  destruct (collect_valid category None 100 records Hvalid [])
    as (items & Hbuilt & Hfound); [apply reading_cap_pos |].
  rewrite Hnone, firstn_nil in Hbuilt. inversion Hbuilt; subst items.
  cbn [app] in Hfound.
  unfold after, VocabularyService.get_category_vocabulary.
  rewrite (read_stores _ _ _ _ _ _ _ Hmiss Hrows Hfound Hstore).
  cbn [snd sort_by fold_right].
  rewrite (stored_answer_served _ _ _ _ _ _ _ (stored w + CACHE_DURATION)%Z []);
    [reflexivity | apply dict_get_set_same | apply dict_get_set_same | exact Hnow].
Qed.

Lemma empty_answer_is_cached_witness :
  let after :=
    snd (VocabularyService.get_category_vocabulary Examples.reject_all
           Examples.frozen_clock new_client
           (SheetFixtures.reading 0 SheetFixtures.sheet) (Ok "{}") "sports"
           None 10) in
  VocabularyService.get_category_vocabulary Examples.reject_all
    Examples.frozen_clock after
    (SheetFixtures.reading 60000000
       [ SheetFixtures.row "s1" "sports" "goal" "gol" "What a goal!" "basic" ])
    (Ok "{}") "sports" (Some BASIC) 10 =
  (Rand.lift (_generate_vocabulary Examples.reject_all Examples.frozen_clock
                (Ok "{}") "sports" (Some BASIC) 10),
   after).
Proof.
  apply (empty_answer_is_cached Examples.reject_all Examples.frozen_clock
           new_client (SheetFixtures.reading 0 SheetFixtures.sheet)
           (SheetFixtures.reading 60000000
              [ SheetFixtures.row "s1" "sports" "goal" "gol" "What a goal!"
                                  "basic" ])
           (Ok "{}") (Ok "{}") "sports" None (Some BASIC) 10 10
           SheetFixtures.sheet).
  - reflexivity.
  - left. reflexivity.
  - reflexivity.
  - repeat constructor.
  - repeat constructor; eexists; reflexivity.
  - reflexivity.
  - unfold storable. cbn. unfold CACHE_DURATION, datetime_max. lia.
  - reflexivity.
Defined.

(* ===================================================================== *)
(** ** The practical words *)
(* ===================================================================== *)

Lemma prefix_split (a b : string) :
  String.prefix a b = true -> exists post, b = (a ++ post)%string.
Proof.
  revert b. induction a as [| c t IH]; intros b H.
  - exists b. reflexivity.
  - destruct b as [| d b']; cbn in H; [discriminate |].
    destruct (ascii_dec c d) as [-> | _]; [| discriminate].
    destruct (IH _ H) as (post & ->). exists post. reflexivity.
Qed.

Lemma contains_occurs (needle hay : string) :
  PyStr.contains needle hay = true <-> occurs_in needle hay.
Proof.
  unfold occurs_in. split.
  - induction hay as [| c t IH]; cbn [PyStr.contains]; intros H;
      apply orb_true_iff in H; destruct H as [H | H]; try discriminate.
    + apply prefix_split in H. destruct H as (post & ->).
      exists EmptyString, post. reflexivity.
    + apply prefix_split in H. destruct H as (post & ->).
      exists EmptyString, post. reflexivity.
    + destruct (IH H) as (pre & post & ->).
      exists (String c pre), post. reflexivity.
  - intros (pre & post & ->). induction pre as [| c pre IH].
    + cbn [String.append].
      assert (H := prefix_app needle post).
      destruct (needle ++ post)%string; cbn [PyStr.contains]; rewrite H;
        reflexivity.
    + cbn [String.append PyStr.contains]. rewrite IH. apply orb_true_r.
Qed.

Lemma append_assoc (a b c : string) :
  ((a ++ b) ++ c)%string = (a ++ b ++ c)%string.
Proof. induction a as [| x a IH]; cbn; [reflexivity | rewrite IH; reflexivity]. Qed.

Lemma occurs_in_chain (a b c : string) :
  occurs_in a b -> occurs_in b c -> occurs_in a c.
Proof.
  intros (p1 & q1 & ->) (p2 & q2 & ->).
  exists (p2 ++ p1)%string, (q1 ++ q2)%string.
  rewrite !append_assoc. reflexivity.
Qed.

(** X26 -- practical words by substring.  [_is_practical_word] looks for the
    listed words inside the lowered word, so it holds of every word in which
    a practical word occurs, whatever the case of the letters and wherever
    the occurrence lies: a word is practical as soon as it has a practical
    word inside it. *)
Theorem practical_word_by_substring :
  forall inner outer : string,
    occurs_in (PyStr.lower inner) (PyStr.lower outer) ->
    _is_practical_word inner = true ->
    _is_practical_word outer = true.
Proof.
  intros inner outer Hocc Hinner. unfold _is_practical_word in *.
  apply existsb_exists in Hinner. destruct Hinner as (practical & Hin & Hc).
  apply existsb_exists. exists practical. split; [exact Hin |].
  apply contains_occurs. apply contains_occurs in Hc.
  exact (occurs_in_chain _ _ _ Hc Hocc).
Qed.

Lemma practical_word_by_substring_witness :
  _is_practical_word "Window" = true.
Proof.
  apply (practical_word_by_substring "DO" "Window").
  - exists "win", "w". reflexivity.
  - reflexivity.
Defined.
